(** * YieldGuard AI: the scoring, exit-comparison and export arithmetic

    A shallow embedding of the computational core of the dashboard:

    - [RiskCore]      embeds [RiskCoreEngine] of [js/risk-core.js]
                      ([calculatePulseScore], [_daysUntilDate],
                      [getStatusFromScore], [_getHexColor], the records
                      built by the three fetchers, the average of
                      [updateGlobalScore]) and [_trimHistory] of the chat
                      agent;
    - [ExitOptimizer] embeds the comparison engine of [js/exit-optimizer.js]
                      (the constructor, [calculateRedemptionPath],
                      [calculateMarketPath], [calculateLiquidityGain],
                      [_calculateBreakeven], [_scenarioAnalysis],
                      [prepareUniswapTransaction]);
    - [AuditManager]  embeds the CSV export of [js/audit-manager.js]
                      ([calculateCostBasis], [calculateTaxLiability],
                      [generateTaxCSV], [filterByProtocol]).

    JavaScript numbers are IEEE 754 binary64 values.  They are modelled by
    [spec_float] with the operations of [SpecFloat] at precision 53 and
    maximal exponent 1024, so that every arithmetic step rounds exactly as
    the engine does.  Integers that the code only ever adds and subtracts in
    a small range (the pulse score) are modelled by [Z]. *)

From Stdlib Require Import ZArith Bool List String Ascii Lia.
From Stdlib Require Import DecimalString SpecFloat.
Import ListNotations.

Local Open Scope string_scope.
Local Open Scope Z_scope.

(** ** JavaScript numbers *)

Module JS.

Definition prec : Z := 53.
Definition emax : Z := 1024.

Definition number : Type := spec_float.

Definition NaN : number := S754_nan.

(** The Number value of a mathematical integer (correctly rounded). *)
Definition of_Z (n : Z) : number := binary_normalize prec emax n 0 false.

(** A decimal literal [n / 10^k], for instance [decimal 24 3] for [0.024]:
    the double nearest to the quotient.  The division is rounded once, on
    the exact integer mantissas. *)
Definition decimal (n : positive) (k : nat) : number :=
  SFdiv prec emax (S754_finite false n 0)
                  (S754_finite false (Z.to_pos (10 ^ Z.of_nat k)) 0).

Definition add : number -> number -> number := SFadd prec emax.
Definition sub : number -> number -> number := SFsub prec emax.
Definition mul : number -> number -> number := SFmul prec emax.
Definition div : number -> number -> number := SFdiv prec emax.

(** [x < y] and [x > y]; both are [false] as soon as one side is [NaN]. *)
Definition lt (x y : number) : bool := SFltb x y.
Definition gt (x y : number) : bool := SFltb y x.
(** [x >= y], used to state hypotheses on inputs. *)
Definition ge (x y : number) : bool := SFleb y x.
(** [x == y] on numbers. *)
Definition eq (x y : number) : bool := SFeqb x y.

(** ToBoolean on a number: [0], [-0] and [NaN] are falsy. *)
Definition truthy (x : number) : bool :=
  match x with
  | S754_zero _ | S754_nan => false
  | _ => true
  end.

(** [x || d] on numbers. *)
Definition or_default (x d : number) : number := if truthy x then x else d.

(** ToNumber on a property that may be absent: [undefined] becomes [NaN]. *)
Definition ToNumber (o : option number) : number :=
  match o with
  | Some x => x
  | None => NaN
  end.

(** [o || d] on a property that may be absent. *)
Definition opt_or_default (o : option number) (d : number) : number :=
  match o with
  | Some x => or_default x d
  | None => d
  end.

Definition Math_abs (x : number) : number := SFabs x.

(** [Math.ceil].  A finite double with a non-negative exponent is an
    integer already.  Otherwise the integer part of the magnitude is
    [m / 2^(-e)]; a negative value that is not an integer rounds towards
    zero, and gives [-0] when the integer part vanishes. *)
Definition Math_ceil (x : number) : number :=
  match x with
  | S754_finite s m e =>
      if 0 <=? e then x
      else
        let q := Z.shiftr (Zpos m) (- e) in
        if Zpos m =? Z.shiftl q (- e) then x
        else if s then
          match q with
          | Z0 => S754_zero true
          | _ => of_Z (- q)
          end
        else of_Z (q + 1)
  | _ => x
  end.

(** [Math.round]: the nearest integer, the larger one on a tie.  A value
    that rounds to zero keeps its sign. *)
Definition Math_round (x : number) : number :=
  match x with
  | S754_finite s m e =>
      if 0 <=? e then x
      else if s then
        (* the magnitude [v] rounds to the ceiling of [v - 1/2] *)
        let n := (2 * Zpos m - 2 ^ (- e) + 2 ^ (1 - e) - 1) / 2 ^ (1 - e) in
        match n with
        | Z0 => S754_zero true
        | _ => of_Z (- n)
        end
      else
        (* the value [v] rounds to the floor of [v + 1/2] *)
        let n := (2 * Zpos m + 2 ^ (- e)) / 2 ^ (1 - e) in
        match n with
        | Z0 => S754_zero false
        | _ => of_Z n
        end
  | _ => x
  end.

(** *** Number.prototype.toFixed *)

(** Decimal digits of an integer. *)
Definition digits (n : Z) : string := NilZero.string_of_int (Z.to_int n).

Fixpoint zeros (k : nat) : string :=
  match k with
  | O => EmptyString
  | S k' => String "0" (zeros k')
  end.

(** The digits of [n >= 0] with a decimal point before the last [f]
    digits, padded with zeros on the left to at least [f + 1] digits. *)
Definition fixed_point (f : nat) (n : Z) : string :=
  let m := digits n in
  match f with
  | O => m
  | _ =>
      let k := String.length m in
      let m := if Nat.leb k f then zeros (f + 1 - k) ++ m else m in
      let k := String.length m in
      substring 0 (k - f) m ++ "." ++ substring (k - f) f m
  end.

(** The integer [n] for which [n / 10^f - m * 2^e] is closest to zero,
    the larger one on a tie. *)
Definition nearest_scaled (f : nat) (m : positive) (e : Z) : Z :=
  let p := 10 ^ Z.of_nat f in
  if 0 <=? e then Zpos m * 2 ^ e * p
  else (2 * Zpos m * p + 2 ^ (- e)) / 2 ^ (1 - e).

(** Number::toString on an integral double [X >= 10^21], which is always
    rendered in exponential notation: the shortest digit string [s] of
    [k] digits such that [s * 10^(n-k)] rounds to the double, the closest
    to [X] when two fit, the even one on a tie. *)
Section Shortest.
Variable X : Z.
Variable x : number.

Definition fits (v : Z) : bool := SFeqb (of_Z v) x.

Definition candidate (n0 k : Z) : option (Z * Z) :=
  let P := 10 ^ (n0 - k) in
  let lo := X / P in
  let hi := lo + 1 in
  let hi_sn := if hi =? 10 ^ k then (10 ^ (k - 1), n0 + 1) else (hi, n0) in
  match fits (lo * P), fits (hi * P) with
  | true, false => Some (lo, n0)
  | false, true => Some hi_sn
  | true, true =>
      match (X - lo * P) ?= (hi * P - X) with
      | Lt => Some (lo, n0)
      | Gt => Some hi_sn
      | Eq => if Z.even lo then Some (lo, n0) else Some hi_sn
      end
  | false, false => None
  end.

Fixpoint shortest (fuel : nat) (n0 k : Z) : Z * Z :=
  match fuel with
  | O => (X, n0)
  | S fuel' =>
      match candidate n0 k with
      | Some sn => sn
      | None => shortest fuel' n0 (k + 1)
      end
  end.
End Shortest.

Definition toString_large (m : positive) (e : Z) : string :=
  let X := Zpos m * 2 ^ e in
  let n0 := Z.of_nat (String.length (digits X)) in
  let '(s, n) := shortest X (S754_finite false m e) 17 n0 1 in
  let d := digits s in
  let mant :=
    match d with
    | String c EmptyString => d
    | String c rest => String c ("." ++ rest)
    | EmptyString => d
    end in
  mant ++ "e+" ++ digits (n - 1).

(** [x.toFixed(f)] for [0 <= f <= 100]. *)
Definition toFixed (f : nat) (x : number) : string :=
  match x with
  | S754_nan => "NaN"
  | S754_infinity s => if s then "-Infinity" else "Infinity"
  | S754_zero _ => fixed_point f 0
  | S754_finite s m e =>
      (if s then "-" else "") ++
      (if SFleb (of_Z (10 ^ 21)) (S754_finite false m e)
       then toString_large m e
       else fixed_point f (nearest_scaled f m e))
  end.

(** The Number value of a string that [toFixed] produced, as [Number(s)]
    or an arithmetic comparison reads it back: an optional minus sign,
    then [Infinity] or decimal digits with at most one point.  Any other
    text, [NaN] included, reads as [NaN]. *)
Definition digit_value (c : ascii) : option Z :=
  let n := Z.of_nat (nat_of_ascii c) in
  if (48 <=? n) && (n <=? 57) then Some (n - 48) else None.

Fixpoint parse_decimal (s : string) (acc : Z) (frac : option nat)
  : option (Z * nat) :=
  match s with
  | EmptyString =>
      Some (acc, match frac with Some k => k | None => O end)
  | String c rest =>
      if Ascii.eqb c "." then
        match frac with
        | None => parse_decimal rest acc (Some O)
        | Some _ => None
        end
      else
        match digit_value c with
        | Some d => parse_decimal rest (10 * acc + d) (option_map S frac)
        | None => None
        end
  end.

Definition StringToNumber (s : string) : number :=
  let '(neg, body) :=
    match s with
    | String "-" rest => (true, rest)
    | _ => (false, s)
    end in
  if (body =? "Infinity")%string then S754_infinity neg
  else
    match parse_decimal body 0 None with
    | Some (Z0, _) => S754_zero neg
    | Some (Zpos n, k) => if neg then SFopp (decimal n k) else decimal n k
    | _ => NaN
    end.

End JS.

(** ** risk-core.js *)

Module RiskCore.
Import JS.

(** The metrics object handed to [calculatePulseScore].  A property that
    the object does not carry is [None] ([undefined] in the source).
    [maturityDate] holds what [new Date(protocolData.maturityDate)] makes
    of the property: the time value in milliseconds since the epoch, or
    [None] for an Invalid Date (an absent or unparsable date), whose time
    value is [NaN]. *)
Record ProtocolData : Type := {
  protocol : string;
  maturityDate : option Z;
  cooldownDays : option number;
  fundingRate : option number;
  depegRisk : option number;
  confidence : option number
}.

(** The time values that a Date can hold (TimeClip): at most
    8.64e15 milliseconds away from the epoch. *)
Definition valid_time (t : Z) : Prop := Z.abs t <= 8640000000000000.

(** The time value of a Date as a number. *)
Definition time_value (d : option Z) : number :=
  match d with
  | Some t => of_Z t
  | None => NaN
  end.

(** [_daysUntilDate(dateString)]; [now] is the time value of the
    [new Date()] the function takes, in milliseconds since the epoch. *)
Definition _daysUntilDate (now : Z) (dateString : option Z) : number :=
  let date := time_value dateString in
  let diffMs := sub date (of_Z now) in
  Math_ceil
    (div diffMs (mul (mul (mul (of_Z 1000) (of_Z 60)) (of_Z 60)) (of_Z 24))).

(** [calculatePulseScore(protocolData)]; [None] is a falsy argument
    ([null] or [undefined]). *)
Definition calculatePulseScore (now : Z) (protocolData : option ProtocolData)
  : Z :=
  match protocolData with
  | None => 0
  | Some pd =>
      let score := 100 in
      (* Factor 1: temporal risk *)
      let score :=
        if (protocol pd =? "Pendle")%string then
          let daysToMaturity := _daysUntilDate now (maturityDate pd) in
          if lt daysToMaturity (of_Z 1) then score - 30
          else if lt daysToMaturity (of_Z 3) then score - 20
          else if lt daysToMaturity (of_Z 7) then score - 10
          else score
        else score in
      let score :=
        if (protocol pd =? "Falcon")%string then
          let cooldownDays := ToNumber (cooldownDays pd) in
          if lt cooldownDays (of_Z 3) then score - 25
          else if lt cooldownDays (of_Z 5) then score - 15
          else if lt cooldownDays (of_Z 7) then score - 5
          else score
        else score in
      (* Factor 2: de-peg deviation *)
      let score :=
        if (protocol pd =? "Ethena")%string then
          let fundingRate := Math_abs (ToNumber (fundingRate pd)) in
          let depegRisk := opt_or_default (depegRisk pd) (decimal 1 2) in
          let score :=
            if gt fundingRate (decimal 5 2) then score - 20
            else if gt fundingRate (decimal 2 2) then score - 10
            else score in
          if gt depegRisk (decimal 2 2) then score - 15
          else if gt depegRisk (decimal 1 2) then score - 8
          else score
        else score in
      (* Factor 3: liveness *)
      let score :=
        match confidence pd with
        | Some confidence =>
            if lt confidence (decimal 8 1) then score - 30
            else if lt confidence (decimal 9 1) then score - 15
            else if lt confidence (decimal 95 2) then score - 5
            else score
        | None => score
        end in
      Z.max 0 (Z.min 100 score)
  end.

Inductive Status : Type := Safe | Monitor | Warning | Critical.

(** The object returned by [getStatusFromScore]. *)
Record StatusInfo : Type := {
  status : Status;
  color : string;
  indicator : string
}.

(** [getStatusFromScore(score)] on an integer score. *)
Definition getStatusFromScore (score : Z) : StatusInfo :=
  if 75 <=? score then
    {| status := Safe; color := "text-green-400";
       indicator := "status-safe" |}
  else if 50 <=? score then
    {| status := Monitor; color := "text-yellow-400";
       indicator := "status-warning" |}
  else if 25 <=? score then
    {| status := Warning; color := "text-orange-500";
       indicator := "status-warning" |}
  else
    {| status := Critical; color := "text-red-500";
       indicator := "status-critical" |}.

(** [_getHexColor(tailwindColor)]: a lookup in [colorMap], green when the
    key is missing. *)
Definition colorMap : list (string * string) :=
  [ ("text-green-400", "#22c55e"); ("text-yellow-400", "#eab308");
    ("text-orange-500", "#f97316"); ("text-red-500", "#ef4444") ].

Fixpoint lookup (key : string) (table : list (string * string))
  : option string :=
  match table with
  | [] => None
  | (k, v) :: rest => if (k =? key)%string then Some v else lookup key rest
  end.

Definition _getHexColor (tailwindColor : string) : string :=
  match lookup tailwindColor colorMap with
  | Some hex => hex
  | None => "#22c55e"
  end.

(** *** The records that the three fetchers build

    Each fetcher returns [null] when the request fails and otherwise an
    object built from the JSON answer [data].  The arguments below are the
    properties of [data] that reach the score: a number is what
    [parseFloat] made of the property, [None] is a property that the
    answer does not carry. *)

(** [fetchPendleAPY]: [confidence: data.confidence || 0.95]. *)
Definition fetchPendleAPY_result (data_maturityDate : option Z)
    (data_confidence : option number) : ProtocolData :=
  {| protocol := "Pendle";
     maturityDate := data_maturityDate;
     cooldownDays := None;
     fundingRate := None;
     depegRisk := None;
     confidence := Some (opt_or_default data_confidence (decimal 95 2)) |}.

(** [fetchEthenaFundingRate]:
    [depegRisk: parseFloat(data.depegRisk) || 0.01], no [confidence]. *)
Definition fetchEthenaFundingRate_result (data_fundingRate : number)
    (data_depegRisk : number) : ProtocolData :=
  {| protocol := "Ethena";
     maturityDate := None;
     cooldownDays := None;
     fundingRate := Some data_fundingRate;
     depegRisk := Some (or_default data_depegRisk (decimal 1 2));
     confidence := None |}.

(** [fetchFalconCooldown]: no [confidence]. *)
Definition fetchFalconCooldown_result (data_cooldownDays : number)
    : ProtocolData :=
  {| protocol := "Falcon";
     maturityDate := None;
     cooldownDays := Some data_cooldownDays;
     fundingRate := None;
     depegRisk := None;
     confidence := None |}.

(** The average that [updateGlobalScore(scores)] shows: the scores of
    the values of [scores] are summed up from 0, divided by their number
    and rounded; 0 when there is no value. *)
Definition averageScore (now : Z) (values : list (option ProtocolData))
  : number :=
  match values with
  | [] => of_Z 0
  | _ =>
      Math_round
        (div (fold_left
                (fun a b => add a (of_Z (calculatePulseScore now b)))
                values (of_Z 0))
             (of_Z (Z.of_nat (List.length values))))
  end.

(** [Array.prototype.slice(start)] with an integer [start]: a negative
    [start] counts from the end, and both ends are clamped to the array. *)
Definition slice_from {A : Type} (start : Z) (l : list A) : list A :=
  let len := Z.of_nat (List.length l) in
  let k := if start <? 0 then Z.max (len + start) 0 else Z.min start len in
  skipn (Z.to_nat k) l.

(** [_trimHistory(maxMessages)] of the chat agent, on the conversation
    history [this.conversationHistory]; [-0] is the integer 0. *)
Definition _trimHistory {A : Type} (maxMessages : Z)
    (conversationHistory : list A) : list A :=
  slice_from (- maxMessages) conversationHistory.

(** The history that [sendMessage(userMessage)] posts to the agent: the
    user message is pushed first, then the history is trimmed with the
    default bound of 10 messages. *)
Definition sent_history {A : Type} (conversationHistory : list A)
    (userMessage : A) : list A :=
  _trimHistory 10 (conversationHistory ++ [userMessage])%list.

(** The metrics object with its [depegRisk] property replaced. *)
Definition with_depegRisk (d : option number) (pd : ProtocolData)
  : ProtocolData :=
  {| protocol := protocol pd;
     maturityDate := maturityDate pd;
     cooldownDays := cooldownDays pd;
     fundingRate := fundingRate pd;
     depegRisk := d;
     confidence := confidence pd |}.

(** *** The penalty tiers as the specification words them

    These four definitions follow section 4.1 of the specification, not
    the code; the theorems below compare [calculatePulseScore] with
    them. *)

(** Liveness: [confidence < 0.8] costs 30, [< 0.9] costs 15, [< 0.95]
    costs 5; nothing when [confidence] is missing. *)
Definition liveness_penalty (confidence : option number) : Z :=
  match confidence with
  | None => 0
  | Some c =>
      if lt c (decimal 8 1) then 30
      else if lt c (decimal 9 1) then 15
      else if lt c (decimal 95 2) then 5
      else 0
  end.

(** De-peg deviation, first part: [|fundingRate| > 0.05] costs 20,
    [> 0.02] costs 10. *)
Definition funding_penalty (fundingRate : option number) : Z :=
  let f := Math_abs (ToNumber fundingRate) in
  if gt f (decimal 5 2) then 20
  else if gt f (decimal 2 2) then 10
  else 0.

(** De-peg deviation, second part: [depegRisk > 0.02] costs 15,
    [> 0.01] costs 8. *)
Definition depeg_penalty (depegRisk : number) : Z :=
  if gt depegRisk (decimal 2 2) then 15
  else if gt depegRisk (decimal 1 2) then 8
  else 0.

(** Temporal risk for Falcon: [cooldownDays < 3] costs 25, [< 5] costs
    15, [< 7] costs 5. *)
Definition cooldown_penalty (cooldownDays : option number) : Z :=
  let c := ToNumber cooldownDays in
  if lt c (of_Z 3) then 25
  else if lt c (of_Z 5) then 15
  else if lt c (of_Z 7) then 5
  else 0.

(** Temporal risk for Pendle, on the whole days until maturity: [< 1]
    costs 30, [< 3] costs 20, [< 7] costs 10. *)
Definition maturity_penalty (days : number) : Z :=
  if lt days (of_Z 1) then 30
  else if lt days (of_Z 3) then 20
  else if lt days (of_Z 7) then 10
  else 0.

(** The final clamp to [0, 100]. *)
Definition clamp (score : Z) : Z := Z.max 0 (Z.min 100 score).

End RiskCore.

(** ** exit-optimizer.js *)

Module ExitOptimizer.
Import JS.

Inductive Scenario : Type := best | mid | worst.

(** The fields of the engine that the computation reads. *)
Record Engine : Type := {
  slippageEstimate : number;
  gasEstimate : number;
  dailyYieldRate : number;
  depegRiskScenarios : Scenario -> number
}.

(** The [config] argument of the constructor. *)
Record Config : Type := {
  cfg_slippageEstimate : option number;
  cfg_gasEstimate : option number;
  cfg_dailyYieldRate : option number
}.

Definition constructor (config : Config) : Engine := {|
  slippageEstimate := opt_or_default (cfg_slippageEstimate config) (decimal 4 3);
  gasEstimate := opt_or_default (cfg_gasEstimate config) (of_Z 5);
  dailyYieldRate := opt_or_default (cfg_dailyYieldRate config) (decimal 24 3);
  depegRiskScenarios := fun s =>
    match s with
    | best => of_Z 0
    | mid => decimal 5 3
    | worst => decimal 2 2
    end
|}.

(** [new ExitOptimizer({})]: every parameter at its default. *)
Definition default_engine : Engine :=
  constructor {| cfg_slippageEstimate := None;
                 cfg_gasEstimate := None;
                 cfg_dailyYieldRate := None |}.

(** What [fetchRedemptionValue] and [fetchMarketPrice] hand over. *)
Record RedemptionData : Type := {
  rd_nav : number;
  rd_cooldownDays : number
}.

Record MarketData : Type := {
  md_price : number;
  md_liquidity : option number;
  md_dex : option string
}.

Inductive Recommendation : Type := WAIT | EXIT_NOW.

(** The object returned by [calculateRedemptionPath].  Its
    [timeToLiquidity] label, the text of [cooldownDays] followed by
    [" days"], is presentation only and is left out. *)
Record RedemptionPath : Type := {
  r_strategy : string;
  r_amount : number;
  r_nav : number;
  r_finalValue : number;
  r_yieldAccrued : number;
  r_haircut : number;
  r_fees : number;
  r_cooldownDays : number;
  r_risks : list string
}.

Record MarketPath : Type := {
  m_strategy : string;
  m_amount : number;
  m_price : number;
  m_finalValue : number;
  m_slippageLoss : number;
  m_gasEstimate : number;
  m_totalCost : number;
  m_haircut : string;
  m_timeToLiquidity : string;
  m_dex : option string;
  m_liquidity : option number;
  m_risks : list string
}.

Record ScenarioResult : Type := {
  s_scenario : string;
  s_depegPercent : string;
  s_redemptionValue : string;
  s_marketValue : string;
  s_recommendation : Recommendation;
  s_gainLoss : string
}.

Record LiquidityGain : Type := {
  liquidityGainHours : number;
  timeUnit : string;
  netDifference : number;
  percentDifference : string;
  recommendation : Recommendation;
  breakeven_depegPercent : string;
  breakeven_description : string;
  bestCase : ScenarioResult;
  midCase : ScenarioResult;
  worstCase : ScenarioResult
}.

Section Engine.
Variable this : Engine.

Definition calculateRedemptionPath (amount : number)
    (redemptionData : RedemptionData) : RedemptionPath :=
  let nav := rd_nav redemptionData in
  let cooldownDays := rd_cooldownDays redemptionData in
  let yieldAccrued := mul (mul amount (dailyYieldRate this)) cooldownDays in
  {| r_strategy := "Redemption (Cooldown)";
     r_amount := amount;
     r_nav := nav;
     r_finalValue := add (mul amount nav) yieldAccrued;
     r_yieldAccrued := yieldAccrued;
     r_haircut := of_Z 0;
     r_fees := of_Z 0;
     r_cooldownDays := cooldownDays;
     r_risks := [ "De-peg exposure during lock-up";
                  "Opportunity cost of capital";
                  "Potential protocol changes" ] |}.

Definition calculateMarketPath (amount : number) (marketData : MarketData)
    : MarketPath :=
  let price := md_price marketData in
  let slippageLoss := mul (mul amount price) (slippageEstimate this) in
  let finalValue :=
    sub (sub (mul amount price) slippageLoss) (gasEstimate this) in
  {| m_strategy := "Instant Liquidity (DEX)";
     m_amount := amount;
     m_price := price;
     m_finalValue := finalValue;
     m_slippageLoss := slippageLoss;
     m_gasEstimate := gasEstimate this;
     m_totalCost := add slippageLoss (gasEstimate this);
     m_haircut := toFixed 2 (mul (slippageEstimate this) (of_Z 100));
     m_timeToLiquidity := "2-5 minutes";
     m_dex := md_dex marketData;
     m_liquidity := md_liquidity marketData;
     m_risks := [ "DEX slippage impact";
                  "Gas fee volatility";
                  "Smart contract risk" ] |}.

Definition _calculateBreakeven (redemptionPath : RedemptionPath)
    (marketPath : MarketPath) : string :=
  let costOfWaiting := or_default (r_yieldAccrued redemptionPath) (of_Z 0) in
  let costOfExiting := m_totalCost marketPath in
  let breakeven :=
    div (sub costOfExiting costOfWaiting) (r_amount redemptionPath) in
  toFixed 2 (mul (Math_abs breakeven) (of_Z 100)).

(** The scenario key with its first letter in upper case. *)
Definition scenario_label (scenario : Scenario) : string :=
  match scenario with
  | best => "Best"
  | mid => "Mid"
  | worst => "Worst"
  end.

Definition _scenarioAnalysis (redemptionPath : RedemptionPath)
    (marketPath : MarketPath) (scenario : Scenario) : ScenarioResult :=
  let depegRisk := depegRiskScenarios this scenario in
  let redemptionValue :=
    add (mul (r_amount redemptionPath) (sub (of_Z 1) depegRisk))
        (r_yieldAccrued redemptionPath) in
  let marketValue := m_finalValue marketPath in
  {| s_scenario := scenario_label scenario;
     s_depegPercent := toFixed 2 (mul depegRisk (of_Z 100));
     s_redemptionValue := toFixed 2 redemptionValue;
     s_marketValue := toFixed 2 marketValue;
     s_recommendation :=
       if gt redemptionValue marketValue then WAIT else EXIT_NOW;
     s_gainLoss := toFixed 2 (sub redemptionValue marketValue) |}.

Definition calculateLiquidityGain (redemptionPath : RedemptionPath)
    (marketPath : MarketPath) : LiquidityGain :=
  let cooldownHours := mul (r_cooldownDays redemptionPath) (of_Z 24) in
  let redemptionValue := r_finalValue redemptionPath in
  let marketValue := m_finalValue marketPath in
  let netDifference := sub redemptionValue marketValue in
  let recommendation :=
    if gt netDifference (of_Z 0) then WAIT else EXIT_NOW in
  {| liquidityGainHours := cooldownHours;
     timeUnit := "hours";
     netDifference := netDifference;
     percentDifference :=
       toFixed 2 (mul (div netDifference redemptionValue) (of_Z 100));
     recommendation := recommendation;
     breakeven_depegPercent := _calculateBreakeven redemptionPath marketPath;
     breakeven_description := "De-peg % that makes waiting equal to exiting";
     bestCase := _scenarioAnalysis redemptionPath marketPath best;
     midCase := _scenarioAnalysis redemptionPath marketPath mid;
     worstCase := _scenarioAnalysis redemptionPath marketPath worst |}.

(** The amounts of the object returned by [prepareUniswapTransaction]:
    [amountIn: amount] and [minAmountOut: amount * 0.995], with the gas
    estimate of its payload.  The token names, the recipient and the
    deadline, which is read off the clock, are left out. *)
Record SwapAmounts : Type := {
  amountIn : number;
  minAmountOut : number;
  payload_gasEstimate : number
}.

Definition prepareUniswapTransaction (amount : number) : SwapAmounts :=
  {| amountIn := amount;
     minAmountOut := mul amount (decimal 995 3);
     payload_gasEstimate := gasEstimate this |}.

(** Steps 3 and 4 of [calculateExit]: both paths and their comparison,
    from the amount and the two fetched quotes. *)
Definition calculateExit (amount : number) (redemptionData : RedemptionData)
    (marketData : MarketData)
    : RedemptionPath * MarketPath * LiquidityGain :=
  let redemptionPath := calculateRedemptionPath amount redemptionData in
  let marketPath := calculateMarketPath amount marketData in
  let liquidityGain := calculateLiquidityGain redemptionPath marketPath in
  (redemptionPath, marketPath, liquidityGain).
End Engine.

(** The comparison of section 8 of the specification: an amount of 100,
    a redemption quote with NAV 1 and a cooldown of 7 days, a market
    quote at price 1, on the default engine. *)
Definition reference_exit (liquidity : option number) (dex : option string)
  : RedemptionPath * MarketPath * LiquidityGain :=
  calculateExit default_engine (of_Z 100)
    {| rd_nav := of_Z 1; rd_cooldownDays := of_Z 7 |}
    {| md_price := of_Z 1; md_liquidity := liquidity; md_dex := dex |}.

(** A comparison in which both exits are worth 100.00 to the cent: an
    amount of 100 with no cooldown, against a market price of 1.0542. *)
Definition close_exit : RedemptionPath * MarketPath * LiquidityGain :=
  calculateExit default_engine (of_Z 100)
    {| rd_nav := of_Z 1; rd_cooldownDays := of_Z 0 |}
    {| md_price := decimal 10542 4; md_liquidity := None; md_dex := None |}.

(** The same quotes for an amount of zero: the redemption path is worth
    nothing. *)
Definition zero_exit : RedemptionPath * MarketPath * LiquidityGain :=
  calculateExit default_engine (of_Z 0)
    {| rd_nav := of_Z 1; rd_cooldownDays := of_Z 7 |}
    {| md_price := of_Z 1; md_liquidity := None; md_dex := None |}.

(** A tie: one unit redeemed at a NAV of 94.6 without cooldown, against
    a market price of 100. *)
Definition tie_exit : RedemptionPath * MarketPath * LiquidityGain :=
  calculateExit default_engine (of_Z 1)
    {| rd_nav := decimal 946 1; rd_cooldownDays := of_Z 0 |}
    {| md_price := of_Z 100; md_liquidity := None; md_dex := None |}.

(** A redemption below par: 100 units at a NAV of 0.9 without cooldown,
    against a market price of 1. *)
Definition discount_exit : RedemptionPath * MarketPath * LiquidityGain :=
  calculateExit default_engine (of_Z 100)
    {| rd_nav := decimal 9 1; rd_cooldownDays := of_Z 0 |}
    {| md_price := of_Z 1; md_liquidity := None; md_dex := None |}.

End ExitOptimizer.

(** ** audit-manager.js *)

Module AuditManager.
Import JS.

(** A record of [this.yieldLogs].  [RewardAmount] and [ExchangeRate] hold
    what [parseFloat] makes of the stored property ([NaN] when it does not
    start with a number); [RiskScore] is the logged integer score, if
    any; [Currency] is the currency tag of the record, if any. *)
Record YieldLog : Type := {
  Timestamp : string;
  Asset : string;
  Protocol : string;
  RewardAmount : number;
  ExchangeRate : number;
  RiskScore : option Z;
  Currency : option string
}.

Record Manager : Type := {
  userLocation : string;
  yieldLogs : list YieldLog
}.

Definition dquote : ascii := Eval cbv in ascii_of_nat 34.
Definition comma : ascii := Eval cbv in ascii_of_nat 44.
Definition line_feed : ascii := Eval cbv in ascii_of_nat 10.
Definition newline : string := String line_feed EmptyString.

(** The global replacement of every double quote by two of them. *)
Fixpoint escape_quotes (s : string) : string :=
  match s with
  | EmptyString => EmptyString
  | String c rest =>
      if Ascii.eqb c dquote
      then String dquote (String dquote (escape_quotes rest))
      else String c (escape_quotes rest)
  end.

(** Whether the string includes a comma. *)
Fixpoint includes_comma (s : string) : bool :=
  match s with
  | EmptyString => false
  | String c rest => Ascii.eqb c comma || includes_comma rest
  end.

(** The rendering of one cell in [generateTaxCSV]. *)
Definition render_cell (cell : string) : string :=
  let escaped := escape_quotes cell in
  if includes_comma escaped
  then String dquote (escaped ++ String dquote EmptyString)
  else escaped.

Section Manager.
Variable this : Manager.

Definition calculateTaxLiability (costBasisLocal : number) : number :=
  let taxRate :=
    if (userLocation this =? "KE")%string then decimal 30 2 else decimal 20 2 in
  mul costBasisLocal taxRate.

(** The object returned by [calculateCostBasis]. *)
Record CostBasis : Type := {
  acquisitionDate : string;
  acquisitionRate : number;
  amountCrypto : number;
  costBasisLocal : number;
  cb_currency : string
}.

(** ToBoolean on a string property that may be absent: the empty string
    and [undefined] are falsy. *)
Definition string_truthy (o : option string) : bool :=
  match o with
  | Some EmptyString | None => false
  | Some _ => true
  end.

(** [calculateCostBasis(yieldLog)].  The conditional operator binds
    weaker than [||]: the condition of [currency] is
    [yieldLog.Currency || this.userLocation === 'KE']. *)
Definition calculateCostBasis (yieldLog : YieldLog) : CostBasis :=
  let acquisitionDate := Timestamp yieldLog in
  let acquisitionRate := or_default (ExchangeRate yieldLog) (of_Z 1) in
  let amountCrypto := RewardAmount yieldLog in
  let costBasisLocal := mul amountCrypto acquisitionRate in
  {| acquisitionDate := acquisitionDate;
     acquisitionRate := acquisitionRate;
     amountCrypto := amountCrypto;
     costBasisLocal := costBasisLocal;
     cb_currency :=
       if string_truthy (Currency yieldLog)
          || (userLocation this =? "KE")%string
       then "KES" else "USD" |}.


Definition header_row (currency : string) : list string :=
  [ "Timestamp"; "Asset"; "Protocol"; "Reward Amount (Crypto)";
    "Value at Receipt (" ++ currency ++ ")"; "Exchange Rate";
    "Tax Liability"; "Risk Score at Time" ].

Definition log_row (log : YieldLog) : list string :=
  let timestamp := Timestamp log in
  let asset := Asset log in
  let protocol := Protocol log in
  let amount := RewardAmount log in
  let exchangeRate := or_default (ExchangeRate log) (of_Z 1) in
  let valueLocal := mul amount exchangeRate in
  let taxLiability := calculateTaxLiability valueLocal in
  let riskScore :=
    match RiskScore log with
    | Some 0 | None => "N/A"
    | Some n => digits n
    end in
  [ timestamp; asset; protocol; toFixed 8 amount; toFixed 2 valueLocal;
    toFixed 4 exchangeRate; toFixed 2 taxLiability; riskScore ].

(** The string that [generateTaxCSV(currency)] resolves to. *)
Definition generateTaxCSV (currency : string) : string :=
  let csvRows := header_row currency :: map log_row (yieldLogs this) in
  String.concat newline
    (map (fun row => String.concat "," (map render_cell row)) csvRows).
End Manager.

End AuditManager.

(** ** Measures used in the statements *)

Module Measures.

(** The statuses from the most to the least alarming. *)
Definition rank (s : RiskCore.Status) : Z :=
  match s with
  | RiskCore.Critical => 0
  | RiskCore.Warning => 1
  | RiskCore.Monitor => 2
  | RiskCore.Safe => 3
  end.

(** The number of occurrences of a character in a string. *)
Fixpoint count_char (c : ascii) (s : string) : nat :=
  match s with
  | EmptyString => O
  | String c' rest =>
      if Ascii.eqb c' c then S (count_char c rest) else count_char c rest
  end.

(** A text without comma, double quote or line feed. *)
Fixpoint plain (s : string) : bool :=
  match s with
  | EmptyString => true
  | String c rest =>
      negb (Ascii.eqb c AuditManager.comma)
      && negb (Ascii.eqb c AuditManager.dquote)
      && negb (Ascii.eqb c AuditManager.line_feed)
      && plain rest
  end.

(** The exact sum of the scores of a list of metrics. *)
Definition totalScore (now : Z) (values : list (option RiskCore.ProtocolData))
  : Z :=
  fold_right Z.add 0 (map (RiskCore.calculatePulseScore now) values).

(** The quotient [total / count] rounded to the nearest integer, upwards
    on a tie. *)
Definition roundedMean (total count : Z) : Z :=
  (2 * total + count) / (2 * count).

End Measures.

(** ** Predicates on rounded results *)

Module Rounding.
Import JS.

(** The results of a rounding that carry the sign [s]. *)
Definition signed (s : bool) (x : number) : Prop :=
  x = S754_zero s \/ x = S754_infinity s \/
  exists m e, x = S754_finite s m e.

(** Values are compared on a common scale: every exponent met below is
    well above [-5000]. *)
Definition scaled (m e : Z) : Z := m * 2 ^ (e + 5000).

(** The results with sign [s] that are a normal double at least
    [mc * 2^ec], itself a normal double, or the infinity. *)
Definition above (s : bool) (mc ec : Z) (x : number) : Prop :=
  x = S754_infinity s \/
  exists m e, x = S754_finite s m e /\ 2 ^ 52 <= Zpos m < 2 ^ 53 /\
              (ec < e \/ (e = ec /\ mc <= Zpos m)).

(** The non-negative results that are at most the normal double
    [mc * 2^ec]. *)
Definition below (mc ec : Z) (x : number) : Prop :=
  x = S754_zero false \/
  exists m e, x = S754_finite false m e /\ Zpos m < 2 ^ 53 /\
              -1074 <= e /\ (e < ec \/ (e = ec /\ Zpos m <= mc)).

End Rounding.

(** * Facts on binary64 rounding *)

Module FloatFacts.
Import JS Rounding.

(** Power terms are opaque to linear arithmetic: name them first. *)
Ltac hide_pow :=
  repeat match goal with
  | |- context [Z.pow ?a ?b] =>
      let x := fresh "pw" in set (x := Z.pow a b) in *; clearbody x
  | H : context [Z.pow ?a ?b] |- _ =>
      let x := fresh "pw" in set (x := Z.pow a b) in *; clearbody x
  end.

Lemma fexp_unfold (e : Z) : fexp prec emax e = Z.max (e - 53) (-1074).
Proof. reflexivity. Qed.

Lemma pow2_pos (k : Z) : 0 <= k -> 0 < 2 ^ k.
Proof. intros; apply Z.pow_pos_nonneg; lia. Qed.

Lemma pow2_split (a b : Z) : 0 <= a -> 0 <= b -> 2 ^ (a + b) = 2 ^ a * 2 ^ b.
Proof. intros; apply Z.pow_add_r; assumption. Qed.

Lemma pow2_lt_inv (a b : Z) : 0 <= a -> 0 <= b -> 2 ^ a < 2 ^ b -> a < b.
Proof. intros Ha Hb H. apply (Z.pow_lt_mono_r_iff 2); lia. Qed.

Lemma digits2_pos_bounds (p : positive) :
  2 ^ (Zpos (digits2_pos p) - 1) <= Zpos p < 2 ^ Zpos (digits2_pos p).
Proof.
  induction p as [p IH | p IH |]; cbn [digits2_pos].
  - rewrite Pos2Z.inj_succ. change (Zpos p~1) with (2 * Zpos p + 1).
    replace (Z.succ (Zpos (digits2_pos p)) - 1)
      with (Z.succ (Zpos (digits2_pos p) - 1)) by lia.
    rewrite !Z.pow_succ_r by lia. hide_pow. lia.
  - rewrite Pos2Z.inj_succ. change (Zpos p~0) with (2 * Zpos p).
    replace (Z.succ (Zpos (digits2_pos p)) - 1)
      with (Z.succ (Zpos (digits2_pos p) - 1)) by lia.
    rewrite !Z.pow_succ_r by lia. hide_pow. lia.
  - cbn. lia.
Qed.

Lemma digits2_pos_unique (p : positive) (d : Z) :
  2 ^ (d - 1) <= Zpos p < 2 ^ d -> Zpos (digits2_pos p) = d.
Proof.
  intros [Hlo Hhi].
  destruct (digits2_pos_bounds p) as [Blo Bhi].
  assert (0 < d).
  { destruct (Z_lt_le_dec 0 d) as [|Hd]; [assumption|].
    assert (2 ^ d <= 1).
    { destruct (Z.eq_dec d 0) as [->|]; [cbn; lia|].
      rewrite Z.pow_neg_r by lia. lia. }
    lia. }
  assert (d - 1 < Zpos (digits2_pos p)) by (apply pow2_lt_inv; lia).
  assert (Zpos (digits2_pos p) - 1 < d) by (apply pow2_lt_inv; lia).
  lia.
Qed.

Lemma iter_xO (p : positive) (n : positive) :
  Zpos (Pos.iter xO p n) = Zpos p * 2 ^ Zpos n.
Proof.
  revert p. induction n as [|n IH] using Pos.peano_ind; intro p.
  - cbn [Pos.iter]. change (Zpos p~0) with (2 * Zpos p). lia.
  - rewrite Pos.iter_succ, Pos2Z.inj_succ.
    change (Zpos (Pos.iter xO p n)~0) with (2 * Zpos (Pos.iter xO p n)).
    rewrite IH, Z.pow_succ_r by lia. hide_pow. lia.
Qed.

Lemma shr_m_of_loc (m : Z) (l : location) : shr_m (shr_record_of_loc m l) = m.
Proof. destruct l as [|[| |]]; reflexivity. Qed.

Lemma shr_1_m (r : shr_record) : 0 <= shr_m r -> shr_m (shr_1 r) = shr_m r / 2.
Proof.
  destruct r as [m r s]; cbn [shr_m shr_1]; intro Hm.
  destruct m as [|[p|p|]|p]; cbn [shr_m]; try lia.
  - reflexivity.
  - change (Zpos p~1) with (2 * Zpos p + 1).
    apply Z.div_unique with 1; lia.
  - change (Zpos p~0) with (2 * Zpos p).
    apply Z.div_unique with 0; lia.
  - reflexivity.
Qed.

Lemma iter_shr_1_m (n : positive) (r : shr_record) :
  0 <= shr_m r -> shr_m (iter_pos shr_1 n r) = shr_m r / 2 ^ Zpos n.
Proof.
  revert r. induction n as [n IH | n IH |]; intros r Hr; cbn [iter_pos].
  - assert (H1 : 0 <= shr_m (shr_1 r)).
    { rewrite shr_1_m by assumption. apply Z.div_pos; lia. }
    assert (H2 : 0 <= shr_m (iter_pos shr_1 n (shr_1 r))).
    { rewrite IH by assumption. apply Z.div_pos; [lia | apply pow2_pos; lia]. }
    rewrite IH, IH, shr_1_m by assumption.
    rewrite !Z.div_div by (try apply pow2_pos; lia).
    f_equal. change (Zpos n~1) with (2 * Zpos n + 1).
    replace (2 * Zpos n + 1) with (1 + Zpos n + Zpos n) by lia.
    rewrite !pow2_split by lia. change (2 ^ 1) with 2. ring.
  - assert (H2 : 0 <= shr_m (iter_pos shr_1 n r)).
    { rewrite IH by assumption. apply Z.div_pos; [lia | apply pow2_pos; lia]. }
    rewrite IH, IH by assumption.
    rewrite !Z.div_div by (try apply pow2_pos; lia).
    f_equal. change (Zpos n~0) with (2 * Zpos n).
    replace (2 * Zpos n) with (Zpos n + Zpos n) by lia.
    rewrite !pow2_split by lia. ring.
  - rewrite shr_1_m by assumption. reflexivity.
Qed.

(** [shr_fexp] divides the mantissa by the power of two that brings the
    exponent up to [fexp]. *)
Lemma shr_fexp_spec (m e : Z) (l : location) :
  0 <= m ->
  let k := Z.max 0 (fexp prec emax (Zdigits2 m + e) - e) in
  shr_m (fst (shr_fexp prec emax m e l)) = m / 2 ^ k /\
  snd (shr_fexp prec emax m e l) = e + k.
Proof.
  intros Hm k. unfold shr_fexp, shr.
  subst k. destruct (fexp prec emax (Zdigits2 m + e) - e) as [|n|n] eqn:E;
    cbn [fst snd].
  - rewrite shr_m_of_loc. cbn. rewrite Z.div_1_r. split; lia.
  - rewrite iter_shr_1_m by (rewrite shr_m_of_loc; assumption).
    rewrite shr_m_of_loc.
    replace (Z.max 0 (Zpos n)) with (Zpos n) by lia. split; reflexivity.
  - rewrite shr_m_of_loc. cbn. rewrite Z.div_1_r. split; lia.
Qed.

Lemma round_nearest_even_bounds (m : Z) (l : location) :
  m <= round_nearest_even m l <= m + 1.
Proof.
  destruct l as [|[| |]]; cbn [round_nearest_even]; try lia.
  destruct (Z.even m); lia.
Qed.

Lemma binary_round_aux_unfold (s : bool) (mx ex : Z) (lx : location) :
  binary_round_aux prec emax s mx ex lx =
  let r1 := shr_fexp prec emax mx ex lx in
  let r2 := shr_fexp prec emax
              (round_nearest_even (shr_m (fst r1)) (loc_of_shr_record (fst r1)))
              (snd r1) loc_Exact in
  match shr_m (fst r2) with
  | Z0 => S754_zero s
  | Zpos m => if snd r2 <=? emax - prec then S754_finite s m (snd r2)
              else S754_infinity s
  | Zneg _ => S754_nan
  end.
Proof.
  unfold binary_round_aux.
  destruct (shr_fexp prec emax mx ex lx) as [mrs' e']. cbn [fst snd].
  destruct (shr_fexp prec emax _ e' loc_Exact) as [mrs'' e'']. reflexivity.
Qed.

Lemma binary_round_aux_signed (s : bool) (mx ex : Z) (lx : location) :
  0 <= mx -> signed s (binary_round_aux prec emax s mx ex lx).
Proof.
  intro Hm. rewrite binary_round_aux_unfold. cbv zeta.
  destruct (shr_fexp_spec mx ex lx Hm) as [H1 _].
  set (r1 := shr_fexp prec emax mx ex lx) in *.
  set (m2 := round_nearest_even (shr_m (fst r1)) (loc_of_shr_record (fst r1))).
  assert (Hm2 : 0 <= m2).
  { pose proof (round_nearest_even_bounds (shr_m (fst r1))
                  (loc_of_shr_record (fst r1))) as B.
    fold m2 in B. rewrite H1 in B.
    assert (0 <= mx / 2 ^ Z.max 0 (fexp prec emax (Zdigits2 mx + ex) - ex))
      by (apply Z.div_pos; [lia | apply pow2_pos; lia]).
    lia. }
  destruct (shr_fexp_spec m2 (snd r1) loc_Exact Hm2) as [H3 _].
  set (r2 := shr_fexp prec emax m2 (snd r1) loc_Exact) in *.
  assert (0 <= shr_m (fst r2)).
  { rewrite H3. apply Z.div_pos; [lia | apply pow2_pos; lia]. }
  destruct (shr_m (fst r2)) as [|m|m]; [left; reflexivity | | lia].
  destruct (snd r2 <=? emax - prec); right;
    [right; eexists; eexists; reflexivity | left; reflexivity].
Qed.


Lemma binary_round_aux_above (s : bool) (mx ex : Z) (lx : location)
    (mc ec : Z) :
  0 < mx -> -5000 <= ex ->
  ex <= fexp prec emax (Zdigits2 mx + ex) ->
  2 ^ 52 <= mc < 2 ^ 53 -> -1074 <= ec ->
  scaled mc ec <= scaled mx ex ->
  above s mc ec (binary_round_aux prec emax s mx ex lx).
Proof.
  intros Hmx Hex Hpre Hmc Hec Hle.
  destruct mx as [|p|p]; try lia.
  cbn [Zdigits2] in Hpre.
  destruct (digits2_pos_bounds p) as [Dlo Dhi].
  set (d := Zpos (digits2_pos p)) in *.
  assert (Hd : 0 < d) by (unfold d; lia).
  (* the value is at least 2^(52+ec), hence has enough digits *)
  assert (H1 : 2 ^ (ec + 5052) <= scaled mc ec).
  { unfold scaled. replace (ec + 5052) with (52 + (ec + 5000)) by lia.
    rewrite (pow2_split 52 (ec + 5000)) by lia.
    apply Z.mul_le_mono_nonneg_r; [apply Z.lt_le_incl, pow2_pos|]; lia. }
  assert (H2 : scaled (Zpos p) ex < 2 ^ (d + ex + 5000)).
  { unfold scaled. replace (d + ex + 5000) with (d + (ex + 5000)) by lia.
    rewrite (pow2_split d (ex + 5000)) by lia.
    apply Z.mul_lt_mono_pos_r; [apply pow2_pos|]; lia. }
  assert (H3 : ec + 5052 < d + ex + 5000) by (apply pow2_lt_inv; lia).
  rewrite fexp_unfold in Hpre.
  set (k1 := d - 53).
  assert (Hk1 : 0 <= k1) by (unfold k1; lia).
  rewrite binary_round_aux_unfold. cbv zeta.
  destruct (shr_fexp_spec (Zpos p) ex lx ltac:(lia)) as [R1m R1e].
  cbn [Zdigits2] in R1m, R1e. fold d in R1m, R1e.
  rewrite fexp_unfold in R1m, R1e.
  replace (Z.max 0 (Z.max (d + ex - 53) (-1074) - ex)) with k1
    in R1m, R1e by (unfold k1; lia).
  set (r1 := shr_fexp prec emax (Zpos p) ex lx) in *.
  set (e1 := ex + k1) in *.
  (* the truncated mantissa has 53 digits *)
  assert (M1 : 2 ^ 52 <= shr_m (fst r1) < 2 ^ 53).
  { rewrite R1m. split.
    - apply Z.div_le_lower_bound; [apply pow2_pos; lia|].
      rewrite <- pow2_split by lia.
      replace (k1 + 52) with (d - 1) by (unfold k1; lia). exact Dlo.
    - apply Z.div_lt_upper_bound; [apply pow2_pos; lia|].
      rewrite <- pow2_split by lia.
      replace (k1 + 53) with d by (unfold k1; lia). exact Dhi. }
  assert (M1c : e1 = ec -> mc <= shr_m (fst r1)).
  { intro He. rewrite R1m.
    apply Z.div_le_lower_bound; [apply pow2_pos; lia|].
    unfold scaled in Hle.
    replace (ec + 5000) with (k1 + (ex + 5000)) in Hle by (unfold e1 in He; lia).
    rewrite (pow2_split k1 (ex + 5000)) in Hle by lia.
    apply (proj2 (Z.mul_le_mono_pos_r (2 ^ k1 * mc) (Zpos p)
                    (2 ^ (ex + 5000)) (pow2_pos (ex + 5000) ltac:(lia)))).
    replace (2 ^ k1 * mc * 2 ^ (ex + 5000))
      with (mc * (2 ^ k1 * 2 ^ (ex + 5000))) by ring.
    exact Hle. }
  pose proof (round_nearest_even_bounds (shr_m (fst r1))
                (loc_of_shr_record (fst r1))) as B2.
  set (m2 := round_nearest_even (shr_m (fst r1)) (loc_of_shr_record (fst r1)))
    in *.
  destruct (shr_fexp_spec m2 (snd r1) loc_Exact ltac:(lia)) as [R2m R2e].
  set (r2 := shr_fexp prec emax m2 (snd r1) loc_Exact) in *.
  rewrite R1e in R2m, R2e.
  rewrite fexp_unfold in R2m, R2e.
  destruct m2 as [|p2|p2] eqn:Em2; try lia.
  cbn [Zdigits2] in R2m, R2e.
  destruct (Z_lt_le_dec (Zpos p2) (2 ^ 53)) as [Hlt | Hge].
  - (* no carry *)
    assert (D2 : Zpos (digits2_pos p2) = 53)
      by (apply digits2_pos_unique; change (53 - 1) with 52; lia).
    rewrite D2 in R2m, R2e.
    replace (Z.max 0 (Z.max (53 + e1 - 53) (-1074) - e1)) with 0
      in R2m, R2e by (unfold e1, k1; lia).
    change (2 ^ 0) with 1 in R2m. rewrite Z.div_1_r in R2m.
    rewrite R2m, R2e.
    destruct (e1 + 0 <=? emax - prec); [right | left; reflexivity].
    exists p2, (e1 + 0). split; [reflexivity|]. split; [lia|].
    destruct (Z.eq_dec e1 ec) as [He|He].
    + right. split; [lia|]. specialize (M1c He). lia.
    + left. unfold e1, k1 in *. lia.
  - (* the rounding carried into a 54th digit *)
    assert (E2 : Zpos p2 = 2 ^ 53) by lia.
    assert (D2 : Zpos (digits2_pos p2) = 54)
      by (apply digits2_pos_unique; change (54 - 1) with 53; lia).
    rewrite D2 in R2m, R2e.
    replace (Z.max 0 (Z.max (54 + e1 - 53) (-1074) - e1)) with 1
      in R2m, R2e by (unfold e1, k1; lia).
    rewrite E2 in R2m. change (2 ^ 53 / 2 ^ 1) with (2 ^ 52) in R2m.
    rewrite R2e.
    destruct (shr_m (fst r2)) as [|p3|p3] eqn:E3; try (exfalso; lia).
    destruct (e1 + 1 <=? emax - prec); [right | left; reflexivity].
    exists p3, (e1 + 1). split; [reflexivity|]. split; [lia|].
    left. unfold e1, k1 in *. lia.
Qed.


Lemma scaled_shift (m e k : Z) :
  0 <= k -> -5000 <= e -> scaled (m * 2 ^ k) e = scaled m (e + k).
Proof.
  intros Hk He. unfold scaled.
  replace (e + k + 5000) with (k + (e + 5000)) by lia.
  rewrite (pow2_split k (e + 5000)) by lia. ring.
Qed.

Lemma scaled_le_cancel (a b e : Z) :
  -5000 <= e -> scaled a e <= scaled b e -> a <= b.
Proof.
  intros He H. unfold scaled in H.
  apply (proj2 (Z.mul_le_mono_pos_r a b (2 ^ (e + 5000))
                  (pow2_pos (e + 5000) ltac:(lia)))). exact H.
Qed.

Lemma scaled_le_mono (a b e : Z) :
  -5000 <= e -> a <= b -> scaled a e <= scaled b e.
Proof.
  intros He H. unfold scaled.
  apply Z.mul_le_mono_nonneg_r; [apply Z.lt_le_incl, pow2_pos; lia | exact H].
Qed.

(** A normal mantissa weighs between [2^(e+52)] and [2^(e+53)]. *)
Lemma scaled_normal_bounds (m e : Z) :
  -5000 <= e -> 2 ^ 52 <= m < 2 ^ 53 ->
  2 ^ (e + 5052) <= scaled m e < 2 ^ (e + 5053).
Proof.
  intros He Hm. unfold scaled.
  replace (e + 5052) with (52 + (e + 5000)) by lia.
  replace (e + 5053) with (53 + (e + 5000)) by lia.
  rewrite (pow2_split 52 (e + 5000)), (pow2_split 53 (e + 5000)) by lia.
  pose proof (pow2_pos (e + 5000) ltac:(lia)) as Hp.
  split.
  - apply Z.mul_le_mono_nonneg_r; lia.
  - apply Z.mul_lt_mono_pos_r; lia.
Qed.

(** On normal doubles the order of the values is the lexicographic order
    of exponent and mantissa. *)
Lemma normal_above (s : bool) (m : positive) (e mc ec : Z) :
  -5000 <= e -> -5000 <= ec ->
  2 ^ 52 <= Zpos m < 2 ^ 53 -> 2 ^ 52 <= mc < 2 ^ 53 ->
  scaled mc ec <= scaled (Zpos m) e ->
  above s mc ec (S754_finite s m e).
Proof.
  intros He Hec Hm Hmc Hle. right. exists m, e.
  split; [reflexivity|]. split; [assumption|].
  destruct (Z_lt_le_dec ec e) as [|Hge]; [left; assumption | right].
  destruct (Z.eq_dec e ec) as [->|Hne].
  - split; [reflexivity|]. apply (scaled_le_cancel _ _ ec); assumption.
  - exfalso.
    pose proof (scaled_normal_bounds (Zpos m) e He Hm) as [_ B1].
    pose proof (scaled_normal_bounds mc ec Hec Hmc) as [B2 _].
    assert (2 ^ (e + 5053) <= 2 ^ (ec + 5052))
      by (apply Z.pow_le_mono_r; lia).
    lia.
Qed.

Lemma above_scaled (s : bool) (mc ec : Z) (m : positive) (e : Z) :
  -5000 <= ec -> 2 ^ 52 <= mc < 2 ^ 53 ->
  above s mc ec (S754_finite s m e) ->
  2 ^ 52 <= Zpos m < 2 ^ 53 /\ ec <= e /\ scaled mc ec <= scaled (Zpos m) e.
Proof.
  intros Hec Hmc [H | (m' & e' & E & Hm & Hlex)]; [discriminate|].
  injection E as -> ->. split; [assumption|].
  destruct Hlex as [Hlt | [-> Hge]].
  - split; [lia|].
    pose proof (scaled_normal_bounds (Zpos m') e' ltac:(lia) Hm) as [B1 _].
    pose proof (scaled_normal_bounds mc ec Hec Hmc) as [_ B2].
    assert (2 ^ (ec + 5053) <= 2 ^ (e' + 5052))
      by (apply Z.pow_le_mono_r; lia).
    lia.
  - split; [lia|]. apply scaled_le_mono; assumption.
Qed.

Lemma shl_align_fst (p : positive) (e e' : Z) :
  e' <= e -> Zpos (fst (shl_align p e e')) = Zpos p * 2 ^ (e - e').
Proof.
  intro H. unfold shl_align.
  destruct (e' - e) as [|n|n] eqn:E; cbn [fst]; try lia.
  - replace (e - e') with 0 by lia. cbn. lia.
  - rewrite iter_xO. f_equal. f_equal. lia.
Qed.

Lemma shl_align_snd (p : positive) (e e' : Z) :
  snd (shl_align p e e') = Z.min e e'.
Proof.
  unfold shl_align. destruct (e' - e) as [|n|n] eqn:E; cbn [snd]; lia.
Qed.

Lemma shl_align_ge (p : positive) (e e' : Z) :
  e <= e' -> shl_align p e e' = (p, e).
Proof.
  intro H. unfold shl_align. destruct (e' - e) as [|n|n] eqn:E; try reflexivity.
  lia.
Qed.

Lemma digits2_pos_shift (p q : positive) (k : Z) :
  0 <= k -> Zpos q = Zpos p * 2 ^ k ->
  Zpos (digits2_pos q) = Zpos (digits2_pos p) + k.
Proof.
  intros Hk E. apply digits2_pos_unique. rewrite E.
  destruct (digits2_pos_bounds p) as [Dlo Dhi].
  replace (Zpos (digits2_pos p) + k - 1)
    with ((Zpos (digits2_pos p) - 1) + k) by lia.
  rewrite (pow2_split (Zpos (digits2_pos p) - 1) k),
          (pow2_split (Zpos (digits2_pos p)) k) by lia.
  pose proof (pow2_pos k Hk). split.
  - apply Z.mul_le_mono_nonneg_r; lia.
  - apply Z.mul_lt_mono_pos_r; lia.
Qed.

Lemma binary_round_signed (s : bool) (p : positive) (e : Z) :
  signed s (binary_round prec emax s p e).
Proof.
  unfold binary_round.
  destruct (shl_align p e _) as [mz ez].
  apply binary_round_aux_signed. lia.
Qed.

Lemma binary_round_above (s : bool) (p : positive) (e mc ec : Z) :
  -1074 <= e -> 2 ^ 52 <= mc < 2 ^ 53 -> -1074 <= ec ->
  scaled mc ec <= scaled (Zpos p) e ->
  above s mc ec (binary_round prec emax s p e).
Proof.
  intros He Hmc Hec Hle. unfold binary_round.
  set (f := fexp prec emax (Zpos (digits2_pos p) + e)).
  assert (Hf : f = Z.max (Zpos (digits2_pos p) + e - 53) (-1074))
    by (unfold f; apply fexp_unfold).
  destruct (Z_lt_le_dec f e) as [Hlt | Hge].
  - pose proof (shl_align_fst p e f ltac:(lia)) as Em.
    pose proof (shl_align_snd p e f) as Ee.
    destruct (shl_align p e f) as [mz ez]. cbn [fst snd] in Em, Ee.
    assert (Ez : ez = f) by lia. clear Ee. subst ez.
    pose proof (digits2_pos_shift p mz (e - f) ltac:(lia) Em) as Dz.
    apply binary_round_aux_above; try lia.
    + cbn [Zdigits2]. rewrite Dz, fexp_unfold. lia.
    + rewrite Em, scaled_shift by lia.
      replace (f + (e - f)) with e by lia. exact Hle.
  - rewrite shl_align_ge by assumption.
    apply binary_round_aux_above; try lia.
    cbn [Zdigits2]. fold f. exact Hge.
Qed.

Lemma binary_round_aux_exact (s : bool) (m : positive) (e : Z) :
  Zpos (digits2_pos m) = 53 -> -1074 <= e <= 971 ->
  binary_round_aux prec emax s (Zpos m) e loc_Exact = S754_finite s m e.
Proof.
  intros D He. unfold binary_round_aux, shr_fexp.
  cbn [Zdigits2]. rewrite D.
  replace (fexp prec emax (53 + e) - e) with 0 by (rewrite fexp_unfold; lia).
  cbn [shr shr_record_of_loc shr_m loc_of_shr_record round_nearest_even
       Zdigits2].
  rewrite D.
  replace (fexp prec emax (53 + e) - e) with 0 by (rewrite fexp_unfold; lia).
  cbn [shr shr_m].
  replace (e <=? emax - prec) with true
    by (symmetry; apply Z.leb_le; unfold emax, prec; lia).
  reflexivity.
Qed.

(** An integer of at most 53 bits is a double: its mantissa is the
    integer shifted up to 53 digits. *)
Lemma binary_round_exact (s : bool) (p : positive) :
  Zpos p < 2 ^ 53 ->
  exists m e, binary_round prec emax s p 0 = S754_finite s m e /\
              -52 <= e <= 0 /\ Zpos m = Zpos p * 2 ^ (- e) /\
              2 ^ 52 <= Zpos m < 2 ^ 53.
Proof.
  intro Hp.
  destruct (digits2_pos_bounds p) as [Dlo Dhi].
  set (d := Zpos (digits2_pos p)) in *.
  assert (Hd1 : 0 < d) by (unfold d; lia).
  assert (Hd : d <= 53).
  { assert (d - 1 < 53) by (apply pow2_lt_inv; lia). lia. }
  unfold binary_round. fold d.
  replace (fexp prec emax (d + 0)) with (d - 53)
    by (rewrite fexp_unfold; lia).
  pose proof (shl_align_fst p 0 (d - 53) ltac:(lia)) as Em.
  pose proof (shl_align_snd p 0 (d - 53)) as Ee.
  destruct (shl_align p 0 (d - 53)) as [mz ez]. cbn [fst snd] in Em, Ee.
  assert (Ez : ez = d - 53) by lia. clear Ee. subst ez.
  replace (0 - (d - 53)) with (53 - d) in Em by lia.
  pose proof (digits2_pos_shift p mz (53 - d) ltac:(lia) Em) as Dz.
  fold d in Dz. replace (d + (53 - d)) with 53 in Dz by lia.
  exists mz, (d - 53).
  split; [apply binary_round_aux_exact; [assumption | lia]|].
  split; [lia|].
  split; [rewrite Em; f_equal; f_equal; lia|].
  destruct (digits2_pos_bounds mz) as [Zlo Zhi]. rewrite Dz in Zlo, Zhi.
  change (53 - 1) with 52 in Zlo. lia.
Qed.


Lemma binary_round_normal (s : bool) (m : positive) (e : Z) :
  2 ^ 52 <= Zpos m < 2 ^ 53 -> -1074 <= e <= 971 ->
  binary_round prec emax s m e = S754_finite s m e.
Proof.
  intros Hm He.
  assert (D : Zpos (digits2_pos m) = 53)
    by (apply digits2_pos_unique; change (53 - 1) with 52; assumption).
  unfold binary_round. rewrite D.
  rewrite shl_align_ge by (rewrite fexp_unfold; lia).
  apply binary_round_aux_exact; assumption.
Qed.

Lemma of_Z_cases (n : Z) :
  Z.abs n < 2 ^ 53 ->
  (n = 0 /\ of_Z n = S754_zero false) \/
  (n <> 0 /\
   exists m e, of_Z n = S754_finite (n <? 0) m e /\ -52 <= e <= 0 /\
               Zpos m = Z.abs n * 2 ^ (- e) /\ 2 ^ 52 <= Zpos m < 2 ^ 53).
Proof.
  intro Hn. destruct n as [|p|p]; [left; split; reflexivity | right | right];
    (split; [discriminate|]);
    unfold of_Z, binary_normalize;
    [destruct (binary_round_exact false p Hn) as (m & e & E & He & Em & Hm)
    |destruct (binary_round_exact true p Hn) as (m & e & E & He & Em & Hm)];
    exists m, e; repeat split; try assumption; lia.
Qed.

(** The difference of two integers of at most 53 bits is the rounding of
    their exact difference. *)
Lemma sub_of_Z (t now : Z) :
  Z.abs t < 2 ^ 53 -> Z.abs now < 2 ^ 53 -> t <> now ->
  exists ez p, -52 <= ez <= 0 /\ Zpos p = Z.abs (t - now) * 2 ^ (- ez) /\
    sub (of_Z t) (of_Z now) = binary_round prec emax (t - now <? 0) p ez.
Proof.
  intros Ht Hn Hne.
  destruct (of_Z_cases t Ht) as [[-> Et] | [Ht0 (mx & ex & Et & Hex & Emx & Hmx)]];
  destruct (of_Z_cases now Hn)
    as [[-> En] | [Hn0 (my & ey & En & Hey & Emy & Hmy)]];
  rewrite ?Et, ?En; [congruence | | |].
  - (* 0 - now *)
    exists ey, my. split; [assumption|].
    split; [rewrite Emy; f_equal; lia|].
    rewrite binary_round_normal by (try assumption; lia).
    cbn [sub SFsub]. unfold sub, SFsub. f_equal.
    destruct now; try congruence; reflexivity.
  - (* t - 0 *)
    exists ex, mx. split; [assumption|].
    split; [rewrite Emx; f_equal; f_equal; lia|].
    rewrite binary_round_normal by (try assumption; lia).
    unfold sub, SFsub. f_equal. f_equal. lia.
  - set (ez := Z.min ex ey).
    set (K := 2 ^ (- ez)).
    assert (HK : 0 < K) by (apply pow2_pos; unfold ez; lia).
    assert (Ax : cond_Zopp (t <? 0) (Zpos (fst (shl_align mx ex ez))) = t * K).
    { rewrite shl_align_fst by (unfold ez; lia). rewrite Emx.
      rewrite <- Z.mul_assoc, <- pow2_split by (unfold ez; lia).
      replace (- ex + (ex - ez)) with (- ez) by lia. fold K.
      unfold cond_Zopp. destruct (Z.ltb_spec t 0); rewrite ?Z.abs_neq, ?Z.abs_eq by lia; lia. }
    assert (Ay : cond_Zopp (now <? 0) (Zpos (fst (shl_align my ey ez))) = now * K).
    { rewrite shl_align_fst by (unfold ez; lia). rewrite Emy.
      rewrite <- Z.mul_assoc, <- pow2_split by (unfold ez; lia).
      replace (- ey + (ey - ez)) with (- ez) by lia. fold K.
      unfold cond_Zopp. destruct (Z.ltb_spec now 0); rewrite ?Z.abs_neq, ?Z.abs_eq by lia; lia. }
    assert (E : sub (S754_finite (t <? 0) mx ex) (S754_finite (now <? 0) my ey)
                = binary_normalize prec emax ((t - now) * K) ez false).
    { unfold sub, SFsub. fold ez. rewrite Ax, Ay. f_equal. ring. }
    rewrite E. unfold binary_normalize.
    destruct ((t - now) * K) as [|p|p] eqn:EM.
    + exfalso. apply Z.mul_eq_0 in EM. lia.
    + assert (Hpos : 0 <= t - now).
      { destruct (Z_lt_le_dec (t - now) 0) as [Hneg|]; [|assumption].
        exfalso. assert ((t - now) * K < 0) by (apply Z.mul_neg_pos; lia). lia. }
      exists ez, p. split; [unfold ez; lia|]. split.
      * fold K. rewrite Z.abs_eq by assumption. symmetry. exact EM.
      * f_equal. symmetry. apply Z.ltb_ge. assumption.
    + assert (Hneg : t - now < 0).
      { destruct (Z_lt_le_dec (t - now) 0) as [|Hpos]; [assumption|].
        exfalso. assert (0 <= (t - now) * K) by (apply Z.mul_nonneg_nonneg; lia).
        lia. }
      exists ez, p. split; [unfold ez; lia|]. split.
      * fold K. rewrite Z.abs_neq by lia. rewrite Z.mul_opp_l, EM. reflexivity.
      * f_equal. symmetry. apply Z.ltb_lt. assumption.
Qed.

Lemma sub_of_Z_signed (t now : Z) :
  Z.abs t < 2 ^ 53 -> Z.abs now < 2 ^ 53 -> t < now ->
  signed true (sub (of_Z t) (of_Z now)).
Proof.
  intros Ht Hn Hlt.
  destruct (sub_of_Z t now Ht Hn ltac:(lia)) as (ez & p & _ & _ & E).
  rewrite E. replace (t - now <? 0) with true by (symmetry; apply Z.ltb_lt; lia).
  apply binary_round_signed.
Qed.

Lemma sub_of_Z_above (t now mc ec : Z) :
  Z.abs t < 2 ^ 53 -> Z.abs now < 2 ^ 53 ->
  2 ^ 52 <= mc < 2 ^ 53 -> -1074 <= ec ->
  scaled mc ec <= scaled (t - now) 0 ->
  above false mc ec (sub (of_Z t) (of_Z now)).
Proof.
  intros Ht Hn Hmc Hec Hle.
  assert (Hpos : 0 < t - now).
  { destruct (Z_lt_le_dec 0 (t - now)) as [|Hle0]; [assumption|]. exfalso.
    pose proof (scaled_normal_bounds mc ec ltac:(lia) Hmc) as [B _].
    pose proof (pow2_pos (ec + 5052) ltac:(lia)).
    assert (scaled (t - now) 0 <= 0).
    { unfold scaled. apply Z.mul_nonpos_nonneg; [lia|].
      apply Z.lt_le_incl, pow2_pos; lia. }
    lia. }
  destruct (sub_of_Z t now Ht Hn ltac:(lia)) as (ez & p & Hez & Ep & E).
  rewrite E. replace (t - now <? 0) with false by (symmetry; apply Z.ltb_ge; lia).
  apply binary_round_above; try lia.
  rewrite Ep, scaled_shift by lia.
  replace (ez + - ez) with 0 by lia. rewrite Z.abs_eq by lia. exact Hle.
Qed.


Lemma div_eucl_pair (a b : Z) : Z.div_eucl a b = (a / b, a mod b).
Proof.
  unfold Z.div, Z.modulo. destruct (Z.div_eucl a b); reflexivity.
Qed.

Lemma div_finite_unfold (sx : bool) (mx : positive) (ex : Z)
    (sy : bool) (my : positive) (ey : Z) :
  div (S754_finite sx mx ex) (S754_finite sy my ey) =
  let '(mz, ez, lz) :=
    SFdiv_core_binary prec emax (Zpos mx) ex (Zpos my) ey in
  binary_round_aux prec emax (xorb sx sy) mz ez lz.
Proof. reflexivity. Qed.

(** Dividing by a positive finite double keeps the sign. *)
Lemma div_signed (s : bool) (x : number) (my : positive) (ey : Z) :
  signed s x -> signed s (div x (S754_finite false my ey)).
Proof.
  intros [-> | [-> | (m & e & ->)]].
  - left. cbn. rewrite xorb_false_r. reflexivity.
  - right; left. cbn. rewrite xorb_false_r. reflexivity.
  - rewrite div_finite_unfold. unfold SFdiv_core_binary.
    rewrite div_eucl_pair. rewrite xorb_false_r.
    apply binary_round_aux_signed.
    apply Z.div_pos; [|lia].
    destruct (e - ey - _) as [|k|k]; try lia.
    apply Z.shiftl_nonneg. lia.
Qed.

Lemma SFdiv_core_normal (mx : positive) (ex : Z) (my : positive) (ey : Z) :
  2 ^ 52 <= Zpos mx < 2 ^ 53 -> 2 ^ 52 <= Zpos my < 2 ^ 53 ->
  -1021 <= ex - ey ->
  SFdiv_core_binary prec emax (Zpos mx) ex (Zpos my) ey =
  (Zpos mx * 2 ^ 53 / Zpos my, ex - ey - 53,
   new_location (Zpos my) ((Zpos mx * 2 ^ 53) mod Zpos my)).
Proof.
  intros Hx Hy He. unfold SFdiv_core_binary. cbn [Zdigits2].
  rewrite (digits2_pos_unique mx 53), (digits2_pos_unique my 53)
    by (change (53 - 1) with 52; assumption).
  replace (Z.min (fexp prec emax (53 + ex - (53 + ey))) (ex - ey))
    with (ex - ey - 53) by (rewrite fexp_unfold; lia).
  replace (ex - ey - (ex - ey - 53)) with 53 by lia.
  rewrite Z.shiftl_mul_pow2 by lia.
  rewrite div_eucl_pair. reflexivity.
Qed.

(** A quotient is at least any normal double [c] with [c * y <= x]. *)
Lemma div_above (mx : positive) (ex : Z) (my : positive) (ey mc ec : Z) :
  2 ^ 52 <= Zpos mx < 2 ^ 53 -> 2 ^ 52 <= Zpos my < 2 ^ 53 ->
  2 ^ 52 <= mc < 2 ^ 53 ->
  -1074 <= ex -> -1074 <= ey -> -1074 <= ec -> -1021 <= ex - ey ->
  scaled (mc * Zpos my) (ec + ey) <= scaled (Zpos mx) ex ->
  above false mc ec (div (S754_finite false mx ex) (S754_finite false my ey)).
Proof.
  intros Hx Hy Hc Hex Hey Hec He Hle.
  rewrite div_finite_unfold, SFdiv_core_normal by assumption.
  set (q := Zpos mx * 2 ^ 53 / Zpos my).
  set (e' := ex - ey - 53).
  assert (Hq : 2 ^ 52 <= q).
  { unfold q. apply Z.div_le_lower_bound; [lia|].
    apply Z.le_trans with (2 ^ 53 * 2 ^ 52); [|lia].
    apply Z.mul_le_mono_nonneg_r; lia. }
  cbn [xorb].
  apply binary_round_aux_above; try (unfold e'; lia).
  - (* the quotient has at least 53 digits *)
    destruct q as [|pq|pq] eqn:Eq; try lia. cbn [Zdigits2].
    destruct (digits2_pos_bounds pq) as [_ Dhi].
    assert (52 < Zpos (digits2_pos pq)) by (apply pow2_lt_inv; lia).
    rewrite fexp_unfold. lia.
  - destruct (Z_lt_le_dec ec e') as [Hlt | Hge].
    + (* [c] lies a whole binade below the quotient *)
      pose proof (scaled_normal_bounds mc ec ltac:(lia) Hc) as [_ B1].
      assert (B2 : 2 ^ (e' + 5052) <= scaled q e').
      { apply Z.le_trans with (scaled (2 ^ 52) e').
        - apply (scaled_normal_bounds (2 ^ 52) e'); unfold e'; lia.
        - apply scaled_le_mono; [unfold e'; lia | exact Hq]. }
      assert (2 ^ (ec + 5053) <= 2 ^ (e' + 5052))
        by (apply Z.pow_le_mono_r; unfold e' in *; lia).
      lia.
    + (* [c] is a multiple of the unit of the quotient *)
      replace ec with (e' + (ec - e')) at 1 by lia.
      rewrite <- scaled_shift by (unfold e'; lia).
      apply scaled_le_mono; [unfold e'; lia|].
      unfold q. apply Z.div_le_lower_bound; [lia|].
      set (B := 2 ^ (e' + ey + 5000)).
      assert (HB : 0 < B) by (apply pow2_pos; unfold e'; lia).
      apply (proj2 (Z.mul_le_mono_pos_r _ _ B HB)).
      unfold scaled in Hle.
      replace (ec + ey + 5000) with ((ec - e') + (e' + ey + 5000)) in Hle
        by lia.
      replace (ex + 5000) with (53 + (e' + ey + 5000)) in Hle
        by (unfold e'; lia).
      rewrite (pow2_split (ec - e') (e' + ey + 5000)),
              (pow2_split 53 (e' + ey + 5000)) in Hle by (unfold e'; lia).
      fold B in Hle.
      replace (Zpos my * (mc * 2 ^ (ec - e')) * B)
        with (mc * Zpos my * (2 ^ (ec - e') * B)) by ring.
      replace (Zpos mx * 2 ^ 53 * B) with (Zpos mx * (2 ^ 53 * B)) by ring.
      exact Hle.
Qed.

(** [Math.ceil] keeps a negative sign. *)
Lemma Math_ceil_signed (x : number) :
  signed true x -> signed true (Math_ceil x).
Proof.
  intros [-> | [-> | (m & e & ->)]].
  - left; reflexivity.
  - right; left; reflexivity.
  - unfold Math_ceil.
    destruct (0 <=? e); [right; right; eauto|].
    destruct (Zpos m =? _); [right; right; eauto|].
    assert (Hq : 0 <= Z.shiftr (Zpos m) (- e)) by (apply Z.shiftr_nonneg; lia).
    destruct (Z.shiftr (Zpos m) (- e)) as [|q|q]; [left; reflexivity | | lia].
    unfold of_Z. cbn [Z.opp binary_normalize]. apply binary_round_signed.
Qed.

(** [Math.ceil] does not go below an integer that its argument reaches. *)
Lemma Math_ceil_above (x : number) (N mc ec : Z) :
  2 ^ 52 <= mc < 2 ^ 53 -> -52 <= ec <= 0 -> mc = N * 2 ^ (- ec) ->
  above false mc ec x -> above false mc ec (Math_ceil x).
Proof.
  intros Hc Hec EN H.
  destruct x as [s | s | | s m e]; try exact H.
  assert (s = false) as ->.
  { destruct H as [H | (m' & e' & E & _)]; [discriminate | congruence]. }
  destruct (above_scaled false mc ec m e ltac:(lia) Hc H) as (Hm & Hle & Hsc).
  unfold Math_ceil.
  destruct (Z.leb_spec 0 e) as [|Hneg]; [exact H|].
  destruct (Zpos m =? _); [exact H|].
  rewrite Z.shiftr_div_pow2 by lia.
  assert (HN : N <= Zpos m / 2 ^ (- e)).
  { apply Z.div_le_lower_bound; [apply pow2_pos; lia|].
    apply (scaled_le_cancel _ _ e); [lia|].
    rewrite (Z.mul_comm (2 ^ (- e)) N), scaled_shift by lia.
    replace (e + - e) with (ec + - ec) by lia.
    rewrite <- scaled_shift, <- EN by lia. exact Hsc. }
  assert (HNpos : 0 < N).
  { destruct (Z_lt_le_dec 0 N) as [|HN0]; [assumption|]. exfalso.
    assert (N * 2 ^ (- ec) <= 0).
    { apply Z.mul_nonpos_nonneg; [lia|]. apply Z.lt_le_incl, pow2_pos; lia. }
    lia. }
  destruct (Zpos m / 2 ^ (- e) + 1) as [|p|p] eqn:Ep; try lia.
  unfold of_Z. cbn [binary_normalize].
  apply binary_round_above; try lia.
  rewrite EN, scaled_shift by lia.
  replace (ec + - ec) with 0 by lia.
  apply scaled_le_mono; lia.
Qed.

Lemma above_not_lt (pc : positive) (ec : Z) (x : number) :
  above false (Zpos pc) ec x -> lt x (S754_finite false pc ec) = false.
Proof.
  intros [-> | (m & e & -> & _ & Hlex)]; [reflexivity|].
  unfold lt, SFltb, SFcompare.
  destruct Hlex as [Hlt | [-> Hge]].
  - replace (e ?= ec) with Gt by (symmetry; apply Z.compare_gt_iff; lia).
    reflexivity.
  - rewrite Z.compare_refl.
    rewrite Pos.compare_cont_spec. cbn [Pos.switch_Eq].
    destruct (Pos.compare_spec m pc); try reflexivity. lia.
Qed.

Lemma above_lower (s : bool) (mc ec mc' ec' : Z) (x : number) :
  ec' < ec -> above s mc ec x -> above s mc' ec' x.
Proof.
  intros He [-> | (m & e & -> & Hm & Hlex)]; [left; reflexivity|].
  right. exists m, e. split; [reflexivity|]. split; [assumption|].
  left. lia.
Qed.

Lemma signed_lt_one (x : number) : signed true x -> lt x (of_Z 1) = true.
Proof.
  intros [-> | [-> | (m & e & ->)]]; reflexivity.
Qed.

End FloatFacts.

(** * Facts on the three engines *)

Module EngineFacts.
Import JS Rounding FloatFacts RiskCore ExitOptimizer AuditManager.

(** ** The day count *)

Lemma ms_per_day :
  mul (mul (mul (of_Z 1000) (of_Z 60)) (of_Z 60)) (of_Z 24) =
  S754_finite false 5798205849600000 (-26).
Proof. vm_compute. reflexivity. Qed.

Lemma valid_time_53 (t : Z) : valid_time t -> Z.abs t < 2 ^ 53.
Proof. unfold valid_time. lia. Qed.

(** A date in the past is less than one day ahead. *)
Lemma days_past (now t : Z) :
  valid_time now -> valid_time t -> t < now ->
  lt (_daysUntilDate now (Some t)) (of_Z 1) = true.
Proof.
  intros Hn Ht Hlt. unfold _daysUntilDate, time_value. cbv zeta.
  rewrite ms_per_day.
  apply signed_lt_one, Math_ceil_signed, div_signed, sub_of_Z_signed;
    auto using valid_time_53.
Qed.

(** A date seven days ahead or more counts at least seven days. *)
Lemma days_future (now t : Z) :
  valid_time now -> valid_time t -> now + 604800000 <= t ->
  above false 7881299347898368 (-50) (_daysUntilDate now (Some t)).
Proof.
  intros Hn Ht Hge. unfold _daysUntilDate, time_value. cbv zeta.
  rewrite ms_per_day.
  apply (Math_ceil_above _ 7); [lia | lia | reflexivity |].
  assert (Hsub : above false 5073430118400000 (-23) (sub (of_Z t) (of_Z now))).
  { apply sub_of_Z_above; auto using valid_time_53; try lia.
    change 5073430118400000 with (604800000 * 2 ^ 23).
    rewrite scaled_shift by lia. apply scaled_le_mono; lia. }
  destruct (sub (of_Z t) (of_Z now)) as [s | s | | s m e] eqn:E.
  - destruct Hsub as [H | (m' & e' & H & _)]; discriminate.
  - destruct Hsub as [H | (m' & e' & H & _)]; [|discriminate].
    injection H as ->. left. reflexivity.
  - destruct Hsub as [H | (m' & e' & H & _)]; discriminate.
  - assert (s = false) as ->.
    { destruct Hsub as [H | (m' & e' & H & _)]; [discriminate | congruence]. }
    destruct (above_scaled false 5073430118400000 (-23) m e ltac:(lia) ltac:(lia) Hsub)
      as (Hm & He & Hsc).
    apply div_above; try lia.
    change (7881299347898368 * Zpos 5798205849600000)
      with (5073430118400000 * 2 ^ 53).
    rewrite scaled_shift by lia. exact Hsc.
Qed.

Lemma days_future_no_penalty (now t : Z) :
  valid_time now -> valid_time t -> now + 604800000 <= t ->
  lt (_daysUntilDate now (Some t)) (of_Z 1) = false /\
  lt (_daysUntilDate now (Some t)) (of_Z 3) = false /\
  lt (_daysUntilDate now (Some t)) (of_Z 7) = false.
Proof.
  intros Hn Ht Hge. pose proof (days_future now t Hn Ht Hge) as H.
  set (days := _daysUntilDate now (Some t)) in *. clearbody days.
  replace (of_Z 1) with (S754_finite false 4503599627370496 (-52))
    by (vm_compute; reflexivity).
  replace (of_Z 3) with (S754_finite false 6755399441055744 (-51))
    by (vm_compute; reflexivity).
  replace (of_Z 7) with (S754_finite false 7881299347898368 (-50))
    by (vm_compute; reflexivity).
  repeat split.
  - apply above_not_lt.
    refine (above_lower _ 7881299347898368 (-50) _ _ _ _ H). lia.
  - apply above_not_lt.
    refine (above_lower _ 7881299347898368 (-50) _ _ _ _ H). lia.
  - apply above_not_lt. exact H.
Qed.

(** ** Liveness *)

Lemma confidence_high (c : number) :
  ge c (decimal 95 2) = true -> liveness_penalty (Some c) = 0.
Proof.
  unfold liveness_penalty, ge, lt.
  replace (decimal 95 2) with (S754_finite false 8556839292003942 (-53))
    by (vm_compute; reflexivity).
  replace (decimal 9 1) with (S754_finite false 8106479329266893 (-53))
    by (vm_compute; reflexivity).
  replace (decimal 8 1) with (S754_finite false 7205759403792794 (-53))
    by (vm_compute; reflexivity).
  unfold SFleb, SFltb, SFcompare.
  destruct c as [s | s | | s m e]; try discriminate.
  - destruct s; [discriminate | reflexivity].
  - destruct s; [discriminate|].
    rewrite !Pos.compare_cont_spec. cbn [Pos.switch_Eq].
    rewrite (Z.compare_antisym e (-53)).
    destruct (Z.compare_spec e (-53)) as [-> | Hlt | Hgt];
      cbn [CompOpp]; try discriminate; try reflexivity.
    rewrite (Pos.compare_antisym m 8556839292003942).
    destruct (Pos.compare_spec m 8556839292003942) as [-> | Hlt | Hgt];
      cbn [CompOpp]; try discriminate; try reflexivity.
    intros _.
    replace (m ?= 7205759403792794)%positive with Gt
      by (symmetry; apply Pos.compare_gt_iff; lia).
    replace (m ?= 8106479329266893)%positive with Gt
      by (symmetry; apply Pos.compare_gt_iff; lia).
    reflexivity.
Qed.

(** ** The score as the sum of its factors *)

Lemma score_ethena (now : Z) (pd : ProtocolData) :
  protocol pd = "Ethena"%string ->
  calculatePulseScore now (Some pd) =
  clamp (100 - funding_penalty (fundingRate pd)
             - depeg_penalty (opt_or_default (depegRisk pd) (decimal 1 2))
             - liveness_penalty (confidence pd)).
Proof.
  intro H.
  unfold calculatePulseScore, clamp, funding_penalty, depeg_penalty,
    liveness_penalty.
  rewrite H.
  change ("Ethena" =? "Pendle")%string with false.
  change ("Ethena" =? "Falcon")%string with false.
  change ("Ethena" =? "Ethena")%string with true.
  cbv beta iota zeta.
  destruct (confidence pd) as [c|];
    repeat match goal with
           | |- context [if ?b then _ else _] => destruct b
           end; reflexivity.
Qed.

Lemma score_pendle (now : Z) (pd : ProtocolData) :
  protocol pd = "Pendle"%string ->
  calculatePulseScore now (Some pd) =
  clamp (100
         - (let days := _daysUntilDate now (maturityDate pd) in
            if lt days (of_Z 1) then 30
            else if lt days (of_Z 3) then 20
            else if lt days (of_Z 7) then 10
            else 0)
         - liveness_penalty (confidence pd)).
Proof.
  intro H.
  unfold calculatePulseScore, clamp, liveness_penalty.
  rewrite H.
  change ("Pendle" =? "Pendle")%string with true.
  change ("Pendle" =? "Falcon")%string with false.
  change ("Pendle" =? "Ethena")%string with false.
  cbv beta iota zeta.
  destruct (confidence pd) as [c|];
    repeat match goal with
           | |- context [if ?b then _ else _] => destruct b
           end; reflexivity.
Qed.

(** ** The comparison *)

Lemma sub_self (s : bool) (m : positive) (e : Z) :
  sub (S754_finite s m e) (S754_finite s m e) = S754_zero false.
Proof.
  unfold sub, SFsub. rewrite Z.min_id, shl_align_ge by lia.
  cbn [fst]. rewrite Z.sub_diag. reflexivity.
Qed.

(** Equal final values never give a positive difference. *)
Lemma tie_not_positive (x y : number) :
  eq x y = true -> gt (sub x y) (of_Z 0) = false.
Proof.
  unfold eq, SFeqb.
  destruct x as [sx | sx | | sx mx ex], y as [sy | sy | | sy my ey];
    cbn [SFcompare]; try discriminate;
    try (destruct sx); try (destruct sy); try discriminate;
    try (intros _; reflexivity).
  all: destruct (Z.compare_spec ex ey) as [-> | |]; try discriminate;
       rewrite Pos.compare_cont_spec; cbn [Pos.switch_Eq];
       destruct (Pos.compare_spec mx my) as [-> | |]; try discriminate;
       intros _; rewrite sub_self; reflexivity.
Qed.

Lemma eq_zero (x : number) :
  eq x (of_Z 0) = true -> exists s, x = S754_zero s.
Proof.
  unfold eq, SFeqb. change (of_Z 0) with (S754_zero false).
  destruct x as [s | s | | s m e]; cbn [SFcompare]; try discriminate.
  - intros _. exists s. reflexivity.
  - destruct s; discriminate.
  - destruct s; discriminate.
Qed.

(** A percentage over a zero final value is not a finite number. *)
Lemma percent_over_zero (n : number) (s : bool) :
  let p := toFixed 2 (mul (div n (S754_zero s)) (of_Z 100)) in
  p = "NaN"%string \/ p = "Infinity"%string \/ p = "-Infinity"%string.
Proof.
  replace (of_Z 100) with (S754_finite false 7036874417766400 (-46))
    by (vm_compute; reflexivity).
  destruct n as [sn | sn | | sn mn en]; destruct s; try destruct sn;
    cbn; auto.
Qed.

(** ** The export *)

Lemma includes_comma_escape (s : string) :
  includes_comma (escape_quotes s) = includes_comma s.
Proof.
  induction s as [|c rest IH]; [reflexivity|].
  cbn [escape_quotes].
  destruct (Ascii.eqb_spec c dquote) as [-> | Hc].
  - cbn [includes_comma]. rewrite IH. reflexivity.
  - cbn [includes_comma]. rewrite IH. reflexivity.
Qed.

Lemma render_cell_plain (cell : string) :
  includes_comma cell = false -> render_cell cell = escape_quotes cell.
Proof.
  intro H. unfold render_cell. rewrite includes_comma_escape, H. reflexivity.
Qed.

Lemma render_cell_quoted (cell : string) :
  includes_comma cell = true ->
  render_cell cell =
  String dquote (escape_quotes cell ++ String dquote EmptyString).
Proof.
  intro H. unfold render_cell. rewrite includes_comma_escape, H. reflexivity.
Qed.

End EngineFacts.

(** * The claims *)

Import JS Rounding FloatFacts EngineFacts RiskCore ExitOptimizer AuditManager.

(** C1.  For every metrics input, of any variant and with any field
    values, [calculatePulseScore] returns an integer between 0 and 100;
    for Ethena metrics with [fundingRate = 1.0], [depegRisk = 1.0] and
    [confidence = 0] the score is exactly 35. *)
Theorem calculatePulseScore_range :
  (forall (now : Z) (protocolData : option ProtocolData),
      0 <= calculatePulseScore now protocolData <= 100) /\
  (forall (now : Z) (date : option Z) (cooldown : option number),
      calculatePulseScore now
        (Some {| protocol := "Ethena";
                 maturityDate := date;
                 cooldownDays := cooldown;
                 fundingRate := Some (of_Z 1);
                 depegRisk := Some (of_Z 1);
                 confidence := Some (of_Z 0) |}) = 35).
Proof.
  split.
  - intros now [pd|]; unfold calculatePulseScore; lia.
  - intros now date cooldown. vm_compute. reflexivity.
Qed.

(** C2, as stated, fails: on the reference comparison the net difference
    is not the double 22.2. *)
Lemma reference_exit_net_not_22_2 :
  ~ (eq (r_finalValue (fst (fst (reference_exit (Some (of_Z 1000000)) None))))
        (decimal 1168 1) = true /\
     eq (m_finalValue (snd (fst (reference_exit (Some (of_Z 1000000)) None))))
        (decimal 946 1) = true /\
     eq (netDifference (snd (reference_exit (Some (of_Z 1000000)) None)))
        (decimal 222 1) = true /\
     recommendation (snd (reference_exit (Some (of_Z 1000000)) None)) = WAIT).
Proof.
  intros (_ & _ & H & _). vm_compute in H. discriminate H.
Qed.

(** C2, amended.  With the default configuration (slippage 0.004, gas 5,
    daily yield 0.024), an amount of 100, a redemption quote of NAV 1 and
    7 days, and a market quote at price 1, the redemption path is worth
    116.8, the market path 94.6, the recommendation is WAIT, and the net
    difference is the double 22.200000000000003, one unit in the last
    place above 22.2. *)
Theorem reference_exit_values :
  forall (liquidity : option number) (dex : option string),
    slippageEstimate default_engine = decimal 4 3 /\
    gasEstimate default_engine = of_Z 5 /\
    dailyYieldRate default_engine = decimal 24 3 /\
    r_finalValue (fst (fst (reference_exit liquidity dex))) = decimal 1168 1 /\
    m_finalValue (snd (fst (reference_exit liquidity dex))) = decimal 946 1 /\
    netDifference (snd (reference_exit liquidity dex)) =
      decimal 22200000000000003 15 /\
    netDifference (snd (reference_exit liquidity dex)) =
      S754_finite false 6248744482976564 (-48) /\
    decimal 222 1 = S754_finite false 6248744482976563 (-48) /\
    recommendation (snd (reference_exit liquidity dex)) = WAIT.
Proof.
  intros liquidity dex. vm_compute. repeat split; reflexivity.
Qed.

(** C3, as stated, fails: on the reference comparison the final value is
    not zero, yet the returned [percentDifference] is the text 19.01,
    which does not read as the quotient 19.006849315068497. *)
Lemma percentDifference_not_the_quotient :
  eq (r_finalValue (fst (fst (reference_exit None None)))) (of_Z 0) = false /\
  percentDifference (snd (reference_exit None None)) = "19.01" /\
  mul (div (netDifference (snd (reference_exit None None)))
           (r_finalValue (fst (fst (reference_exit None None)))))
      (of_Z 100) = decimal 19006849315068497 15 /\
  eq (StringToNumber (percentDifference (snd (reference_exit None None))))
     (mul (div (netDifference (snd (reference_exit None None)))
               (r_finalValue (fst (fst (reference_exit None None)))))
          (of_Z 100)) = false.
Proof. vm_compute. repeat split; reflexivity. Qed.

(** C3, amended.  For every comparison the returned [percentDifference]
    is the two-decimal text ([toFixed(2)]) of
    [netDifference / redemptionPath.finalValue * 100].  A zero final value
    is not special-cased: the text is then [NaN], [Infinity] or
    [-Infinity]. *)
Theorem percentDifference_toFixed :
  forall (this : Engine) (r : RedemptionPath) (m : MarketPath),
    percentDifference (calculateLiquidityGain this r m) =
      toFixed 2
        (mul (div (netDifference (calculateLiquidityGain this r m))
                  (r_finalValue r))
             (of_Z 100)) /\
    (eq (r_finalValue r) (of_Z 0) = true ->
     percentDifference (calculateLiquidityGain this r m) = "NaN" \/
     percentDifference (calculateLiquidityGain this r m) = "Infinity" \/
     percentDifference (calculateLiquidityGain this r m) = "-Infinity").
Proof.
  intros this r m. split; [reflexivity|].
  intro H. destruct (eq_zero _ H) as [s Hs].
  unfold calculateLiquidityGain. cbn [percentDifference]. rewrite Hs.
  apply percent_over_zero.
Qed.

Lemma percentDifference_toFixed_witness :
  eq (r_finalValue (fst (fst zero_exit))) (of_Z 0) = true /\
  (percentDifference (snd zero_exit) = "NaN" \/
   percentDifference (snd zero_exit) = "Infinity" \/
   percentDifference (snd zero_exit) = "-Infinity").
Proof.
  split; [vm_compute; reflexivity|].
  apply (proj2 (percentDifference_toFixed default_engine
                  (fst (fst zero_exit)) (snd (fst zero_exit)))).
  vm_compute. reflexivity.
Defined.

(** C4, as stated, fails: in the best case of a comparison whose two
    exits are both worth 100.00 to the cent, the result recommends WAIT
    although its [redemptionValue] does not exceed its [marketValue], and
    its [marketValue] does not read as the final value of the market
    path. *)
Lemma scenario_fields_are_rounded :
  s_redemptionValue (bestCase (snd close_exit)) = "100.00" /\
  s_marketValue (bestCase (snd close_exit)) = "100.00" /\
  s_recommendation (bestCase (snd close_exit)) = WAIT /\
  gt (StringToNumber (s_redemptionValue (bestCase (snd close_exit))))
     (StringToNumber (s_marketValue (bestCase (snd close_exit)))) = false /\
  eq (StringToNumber (s_marketValue (bestCase (snd close_exit))))
     (m_finalValue (snd (fst close_exit))) = false.
Proof. vm_compute. repeat split; reflexivity. Qed.

(** C4, amended.  The three fixed scenarios stress the redemption side by
    0, 0.005 and 0.02.  With [v = amount * (1 - d) + yieldAccrued], the
    result of a scenario carries the two-decimal texts ([toFixed(2)]) of
    [v], of the final value of the market path (the same in all three
    scenarios) and of their difference; it recommends WAIT exactly when the
    unrounded [v] exceeds the unrounded market value.  For an amount of
    100, a yield of 16.8 and a market value of 94.6 the worst scenario
    gives the text 114.80 and WAIT. *)
Theorem scenarioAnalysis_fields :
  forall (this : Engine) (r : RedemptionPath) (m : MarketPath)
         (scenario : Scenario),
    (forall config : Config,
        depegRiskScenarios (constructor config) best = of_Z 0 /\
        depegRiskScenarios (constructor config) mid = decimal 5 3 /\
        depegRiskScenarios (constructor config) worst = decimal 2 2) /\
    s_redemptionValue (_scenarioAnalysis this r m scenario) =
      toFixed 2 (add (mul (r_amount r)
                          (sub (of_Z 1) (depegRiskScenarios this scenario)))
                     (r_yieldAccrued r)) /\
    s_marketValue (_scenarioAnalysis this r m scenario) =
      toFixed 2 (m_finalValue m) /\
    (s_recommendation (_scenarioAnalysis this r m scenario) = WAIT <->
     gt (add (mul (r_amount r)
                  (sub (of_Z 1) (depegRiskScenarios this scenario)))
             (r_yieldAccrued r))
        (m_finalValue m) = true) /\
    s_gainLoss (_scenarioAnalysis this r m scenario) =
      toFixed 2 (sub (add (mul (r_amount r)
                               (sub (of_Z 1) (depegRiskScenarios this scenario)))
                          (r_yieldAccrued r))
                     (m_finalValue m)) /\
    (r_amount r = of_Z 100 -> r_yieldAccrued r = decimal 168 1 ->
     m_finalValue m = decimal 946 1 ->
     s_redemptionValue (_scenarioAnalysis default_engine r m worst) = "114.80"
     /\ s_recommendation (_scenarioAnalysis default_engine r m worst) = WAIT).
Proof.
  intros this r m scenario.
  split; [intro config; repeat split; reflexivity|].
  split; [reflexivity|]. split; [reflexivity|]. split.
  - unfold _scenarioAnalysis. cbn [s_recommendation].
    destruct (gt _ _); split; intro H; try reflexivity; discriminate H.
  - split; [reflexivity|].
    intros Ha Hy Hm. unfold _scenarioAnalysis.
    cbn [s_redemptionValue s_recommendation]. rewrite Ha, Hy, Hm.
    vm_compute. split; reflexivity.
Qed.

Lemma scenarioAnalysis_fields_witness :
  r_amount (fst (fst (reference_exit None None))) = of_Z 100 /\
  r_yieldAccrued (fst (fst (reference_exit None None))) = decimal 168 1 /\
  m_finalValue (snd (fst (reference_exit None None))) = decimal 946 1 /\
  s_redemptionValue
    (_scenarioAnalysis default_engine (fst (fst (reference_exit None None)))
       (snd (fst (reference_exit None None))) worst) = "114.80" /\
  s_recommendation
    (_scenarioAnalysis default_engine (fst (fst (reference_exit None None)))
       (snd (fst (reference_exit None None))) worst) = WAIT.
Proof.
  assert (Ha : r_amount (fst (fst (reference_exit None None))) = of_Z 100)
    by (vm_compute; reflexivity).
  assert (Hy : r_yieldAccrued (fst (fst (reference_exit None None)))
               = decimal 168 1) by (vm_compute; reflexivity).
  assert (Hm : m_finalValue (snd (fst (reference_exit None None)))
               = decimal 946 1) by (vm_compute; reflexivity).
  split; [exact Ha|]. split; [exact Hy|]. split; [exact Hm|].
  exact (proj2 (proj2 (proj2 (proj2 (proj2
           (scenarioAnalysis_fields default_engine
              (fst (fst (reference_exit None None)))
              (snd (fst (reference_exit None None))) worst))))) Ha Hy Hm).
Defined.

(** C5.  [calculatePulseScore] on an absent metrics input returns 0; it
    does not fail. *)
Theorem calculatePulseScore_null :
  forall now : Z, calculatePulseScore now None = 0.
Proof. reflexivity. Qed.

(** C6.  For Pendle metrics whose maturity date lies strictly before the
    current time, the whole-day count is below 1 and the temporal factor
    takes its maximum of 30 points: the score is 100 minus 30 minus the
    liveness penalty, clamped. *)
Theorem pendle_past_maturity_max_penalty :
  forall (now t : Z) (pd : ProtocolData),
    valid_time now -> valid_time t ->
    protocol pd = "Pendle" -> maturityDate pd = Some t -> t < now ->
    lt (_daysUntilDate now (maturityDate pd)) (of_Z 1) = true /\
    calculatePulseScore now (Some pd) =
      clamp (100 - 30 - liveness_penalty (confidence pd)).
Proof.
  intros now t pd Hn Ht Hp Hd Hlt.
  pose proof (days_past now t Hn Ht Hlt) as H.
  rewrite Hd. split; [exact H|].
  rewrite (score_pendle now pd Hp), Hd. cbv zeta. rewrite H. reflexivity.
Qed.

Lemma pendle_past_maturity_max_penalty_witness :
  valid_time 1700000000000 /\ valid_time 1699999999999 /\
  1699999999999 < 1700000000000 /\
  lt (_daysUntilDate 1700000000000
        (maturityDate (fetchPendleAPY_result (Some 1699999999999) None)))
     (of_Z 1) = true /\
  calculatePulseScore 1700000000000
    (Some (fetchPendleAPY_result (Some 1699999999999) None)) =
  clamp (100 - 30
         - liveness_penalty
             (confidence (fetchPendleAPY_result (Some 1699999999999) None))).
Proof.
  assert (Hn : valid_time 1700000000000) by (unfold valid_time; simpl; lia).
  assert (Ht : valid_time 1699999999999) by (unfold valid_time; simpl; lia).
  assert (Hlt : 1699999999999 < 1700000000000) by lia.
  split; [exact Hn|]. split; [exact Ht|]. split; [exact Hlt|].
  exact (pendle_past_maturity_max_penalty 1700000000000 1699999999999
           (fetchPendleAPY_result (Some 1699999999999) None)
           Hn Ht eq_refl eq_refl Hlt).
Defined.

(** C7.  For Pendle metrics with a confidence of at least 0.95 and a
    maturity date at least seven whole days after the current time, the
    score is exactly 100. *)
Theorem pendle_confident_far_maturity_100 :
  forall (now t : Z) (c : number) (pd : ProtocolData),
    valid_time now -> valid_time t ->
    protocol pd = "Pendle" -> maturityDate pd = Some t ->
    confidence pd = Some c -> ge c (decimal 95 2) = true ->
    now + 7 * 86400000 <= t ->
    calculatePulseScore now (Some pd) = 100.
Proof.
  intros now t c pd Hn Ht Hp Hd Hc Hge Hfar.
  destruct (days_future_no_penalty now t Hn Ht ltac:(lia)) as (H1 & H3 & H7).
  rewrite (score_pendle now pd Hp), Hd, Hc. cbv zeta.
  rewrite H1, H3, H7, (confidence_high c Hge). reflexivity.
Qed.

Lemma pendle_confident_far_maturity_100_witness :
  valid_time 1700000000000 /\ valid_time 1700604800000 /\
  ge (decimal 95 2) (decimal 95 2) = true /\
  1700000000000 + 7 * 86400000 <= 1700604800000 /\
  calculatePulseScore 1700000000000
    (Some {| protocol := "Pendle";
             maturityDate := Some 1700604800000;
             cooldownDays := None;
             fundingRate := None;
             depegRisk := None;
             confidence := Some (decimal 95 2) |}) = 100.
Proof.
  assert (Hn : valid_time 1700000000000) by (unfold valid_time; simpl; lia).
  assert (Ht : valid_time 1700604800000) by (unfold valid_time; simpl; lia).
  assert (Hc : ge (decimal 95 2) (decimal 95 2) = true)
    by (vm_compute; reflexivity).
  assert (Hfar : 1700000000000 + 7 * 86400000 <= 1700604800000) by lia.
  split; [exact Hn|]. split; [exact Ht|]. split; [exact Hc|].
  split; [exact Hfar|].
  exact (pendle_confident_far_maturity_100 1700000000000 1700604800000
           (decimal 95 2)
           {| protocol := "Pendle";
              maturityDate := Some 1700604800000;
              cooldownDays := None;
              fundingRate := None;
              depegRisk := None;
              confidence := Some (decimal 95 2) |}
           Hn Ht eq_refl eq_refl eq_refl Hc Hfar).
Defined.

(** C8.  The net difference of a comparison is the final value of the
    redemption path minus that of the market path, and the recommendation
    is WAIT if and only if it is strictly greater than 0; when the two
    final values are equal the recommendation is EXIT_NOW. *)
Theorem recommendation_wait_iff_positive :
  forall (this : Engine) (r : RedemptionPath) (m : MarketPath),
    netDifference (calculateLiquidityGain this r m) =
      sub (r_finalValue r) (m_finalValue m) /\
    (recommendation (calculateLiquidityGain this r m) = WAIT <->
     gt (netDifference (calculateLiquidityGain this r m)) (of_Z 0) = true) /\
    (eq (r_finalValue r) (m_finalValue m) = true ->
     recommendation (calculateLiquidityGain this r m) = EXIT_NOW).
Proof.
  intros this r m. split; [reflexivity|].
  unfold calculateLiquidityGain. cbn [recommendation netDifference]. split.
  - destruct (gt _ _); split; intro H; try reflexivity; discriminate H.
  - intro H. rewrite (tie_not_positive _ _ H). reflexivity.
Qed.

Lemma recommendation_wait_iff_positive_witness :
  eq (r_finalValue (fst (fst tie_exit)))
     (m_finalValue (snd (fst tie_exit))) = true /\
  recommendation
    (calculateLiquidityGain default_engine (fst (fst tie_exit))
       (snd (fst tie_exit))) = EXIT_NOW.
Proof.
  assert (H : eq (r_finalValue (fst (fst tie_exit)))
                 (m_finalValue (snd (fst tie_exit))) = true)
    by (vm_compute; reflexivity).
  split; [exact H|].
  exact (proj2 (proj2 (recommendation_wait_iff_positive default_engine
                         (fst (fst tie_exit)) (snd (fst tie_exit)))) H).
Defined.

(** C9, as stated, fails: the header row does not carry the column names
    of the specification.  With no logged record the export in KES is the
    header alone. *)
Lemma csv_header_not_the_specified_names :
  generateTaxCSV {| userLocation := "KE"; yieldLogs := [] |} "KES" =
    "Timestamp,Asset,Protocol,Reward Amount (Crypto),Value at Receipt (KES),Exchange Rate,Tax Liability,Risk Score at Time" /\
  generateTaxCSV {| userLocation := "KE"; yieldLogs := [] |} "KES" <>
    "Timestamp,Asset,Protocol,RewardAmount,ValueLocal,ExchangeRate,TaxLiability,RiskScoreAtTime".
Proof. split; [vm_compute; reflexivity | vm_compute; discriminate]. Qed.

(** C9, amended.  [generateTaxCSV] joins with line feeds one header row
    and then one row per logged record, each row being its eight cells
    joined with commas.  The header cells are [Timestamp], [Asset],
    [Protocol], [Reward Amount (Crypto)], [Value at Receipt (<currency>)],
    [Exchange Rate], [Tax Liability] and [Risk Score at Time].  In every
    cell each double quote is doubled, and a cell that contains a comma is
    wrapped in double quotes. *)
Theorem generateTaxCSV_shape :
  forall (this : Manager) (currency : string),
    generateTaxCSV this currency =
      String.concat newline
        (String.concat "," (map render_cell (header_row currency))
         :: map (fun log =>
                   String.concat "," (map render_cell (log_row this log)))
                (yieldLogs this)) /\
    header_row currency =
      [ "Timestamp"; "Asset"; "Protocol"; "Reward Amount (Crypto)";
        "Value at Receipt (" ++ currency ++ ")"; "Exchange Rate";
        "Tax Liability"; "Risk Score at Time" ] /\
    String.concat "," (map render_cell (header_row "KES")) =
      "Timestamp,Asset,Protocol,Reward Amount (Crypto),Value at Receipt (KES),Exchange Rate,Tax Liability,Risk Score at Time" /\
    String.concat "," (map render_cell (header_row "USD")) =
      "Timestamp,Asset,Protocol,Reward Amount (Crypto),Value at Receipt (USD),Exchange Rate,Tax Liability,Risk Score at Time" /\
    (forall log : YieldLog, List.length (log_row this log) = 8%nat) /\
    (forall cell : string,
        includes_comma cell = true ->
        render_cell cell =
          String dquote (escape_quotes cell ++ String dquote EmptyString)) /\
    (forall cell : string,
        includes_comma cell = false -> render_cell cell = escape_quotes cell).
Proof.
  intros this currency.
  split; [unfold generateTaxCSV; cbn [map]; rewrite map_map; reflexivity|].
  split; [reflexivity|].
  split; [vm_compute; reflexivity|]. split; [vm_compute; reflexivity|].
  split; [intro log; reflexivity|].
  split; [apply render_cell_quoted | apply render_cell_plain].
Qed.

Lemma generateTaxCSV_shape_witness :
  includes_comma "sUSDe, v2" = true /\
  render_cell "sUSDe, v2" =
    String dquote (escape_quotes "sUSDe, v2" ++ String dquote EmptyString).
Proof.
  split; [reflexivity|].
  apply (proj1 (proj2 (proj2 (proj2 (proj2 (proj2
           (generateTaxCSV_shape {| userLocation := "KE"; yieldLogs := [] |}
              "KES"))))))).
  reflexivity.
Defined.

(** C10.  For Ethena metrics whose [depegRisk] is absent, equal to 0 or
    exactly 0.01, the value used is 0.01, which is not above the strict
    threshold: the sub-penalty of [depegRisk] is 0, and the score is the
    one of the same metrics with [depegRisk = 0.01]. *)
Theorem ethena_default_depegRisk :
  forall (now : Z) (pd : ProtocolData) (d : option number),
    protocol pd = "Ethena" ->
    (d = None \/ (exists x, d = Some x /\ eq x (of_Z 0) = true) \/
     d = Some (decimal 1 2)) ->
    opt_or_default d (decimal 1 2) = decimal 1 2 /\
    depeg_penalty (opt_or_default d (decimal 1 2)) = 0 /\
    calculatePulseScore now (Some (with_depegRisk d pd)) =
      calculatePulseScore now
        (Some (with_depegRisk (Some (decimal 1 2)) pd)) /\
    calculatePulseScore now (Some (with_depegRisk d pd)) =
      clamp (100 - funding_penalty (fundingRate pd)
                 - liveness_penalty (confidence pd)).
Proof.
  intros now pd d Hp Hd.
  assert (Hdef : opt_or_default d (decimal 1 2) = decimal 1 2).
  { destruct Hd as [-> | [(x & -> & Hx) | ->]].
    - reflexivity.
    - destruct (eq_zero x Hx) as [s ->]. reflexivity.
    - vm_compute. reflexivity. }
  assert (Hpen : depeg_penalty (decimal 1 2) = 0) by (vm_compute; reflexivity).
  assert (Hself : opt_or_default (Some (decimal 1 2)) (decimal 1 2)
                  = decimal 1 2) by (vm_compute; reflexivity).
  split; [exact Hdef|]. split; [rewrite Hdef; exact Hpen|].
  rewrite !score_ethena by exact Hp.
  cbn [with_depegRisk fundingRate depegRisk confidence].
  rewrite Hdef, Hself, Hpen. split; [reflexivity | f_equal; lia].
Qed.

Lemma ethena_default_depegRisk_witness :
  protocol (fetchEthenaFundingRate_result (decimal 3 2) (of_Z 0)) = "Ethena" /\
  (@None number = None \/
   (exists x, @None number = Some x /\ eq x (of_Z 0) = true) \/
   @None number = Some (decimal 1 2)) /\
  opt_or_default None (decimal 1 2) = decimal 1 2 /\
  depeg_penalty (opt_or_default None (decimal 1 2)) = 0 /\
  calculatePulseScore 0
    (Some (with_depegRisk None
             (fetchEthenaFundingRate_result (decimal 3 2) (of_Z 0)))) =
  calculatePulseScore 0
    (Some (with_depegRisk (Some (decimal 1 2))
             (fetchEthenaFundingRate_result (decimal 3 2) (of_Z 0)))) /\
  calculatePulseScore 0
    (Some (with_depegRisk None
             (fetchEthenaFundingRate_result (decimal 3 2) (of_Z 0)))) =
  clamp (100
         - funding_penalty
             (fundingRate
                (fetchEthenaFundingRate_result (decimal 3 2) (of_Z 0)))
         - liveness_penalty
             (confidence
                (fetchEthenaFundingRate_result (decimal 3 2) (of_Z 0)))).
Proof.
  split; [reflexivity|]. split; [left; reflexivity|].
  exact (ethena_default_depegRisk 0
           (fetchEthenaFundingRate_result (decimal 3 2) (of_Z 0)) None
           eq_refl (or_introl eq_refl)).
Defined.

(** * Further properties of the engines *)

Module ExtraFacts.
Import JS Rounding FloatFacts EngineFacts RiskCore ExitOptimizer AuditManager.
Import Measures.

Lemma score_falcon (now : Z) (pd : ProtocolData) :
  protocol pd = "Falcon"%string ->
  calculatePulseScore now (Some pd) =
  clamp (100 - cooldown_penalty (cooldownDays pd)
             - liveness_penalty (confidence pd)).
Proof.
  intro H.
  unfold calculatePulseScore, clamp, cooldown_penalty, liveness_penalty.
  rewrite H.
  change ("Falcon" =? "Pendle")%string with false.
  change ("Falcon" =? "Falcon")%string with true.
  change ("Falcon" =? "Ethena")%string with false.
  cbv beta iota zeta.
  destruct (confidence pd) as [c|];
    repeat match goal with
           | |- context [if ?b then _ else _] => destruct b
           end; reflexivity.
Qed.

Lemma score_other (now : Z) (pd : ProtocolData) :
  protocol pd <> "Pendle"%string -> protocol pd <> "Falcon"%string ->
  protocol pd <> "Ethena"%string ->
  calculatePulseScore now (Some pd) =
  100 - liveness_penalty (confidence pd).
Proof.
  intros HP HF HE.
  unfold calculatePulseScore, liveness_penalty.
  destruct (String.eqb_spec (protocol pd) "Pendle"); [contradiction|].
  destruct (String.eqb_spec (protocol pd) "Falcon"); [contradiction|].
  destruct (String.eqb_spec (protocol pd) "Ethena"); [contradiction|].
  cbv beta iota zeta.
  destruct (confidence pd) as [c|];
    repeat match goal with
           | |- context [if ?b then _ else _] => destruct b
           end; reflexivity.
Qed.

Lemma liveness_penalty_range (c : option number) :
  0 <= liveness_penalty c <= 30.
Proof.
  unfold liveness_penalty. destruct c as [c|]; [|lia].
  repeat match goal with
         | |- context [if ?b then _ else _] => destruct b
         end; lia.
Qed.

Lemma funding_penalty_range (f : option number) :
  0 <= funding_penalty f <= 20.
Proof.
  unfold funding_penalty. cbv zeta.
  repeat match goal with
         | |- context [if ?b then _ else _] => destruct b
         end; lia.
Qed.

Lemma depeg_penalty_range (d : number) : 0 <= depeg_penalty d <= 15.
Proof.
  unfold depeg_penalty.
  repeat match goal with
         | |- context [if ?b then _ else _] => destruct b
         end; lia.
Qed.

Lemma cooldown_penalty_range (c : option number) :
  0 <= cooldown_penalty c <= 25.
Proof.
  unfold cooldown_penalty. cbv zeta.
  repeat match goal with
         | |- context [if ?b then _ else _] => destruct b
         end; lia.
Qed.

Lemma maturity_penalty_range (d : number) : 0 <= maturity_penalty d <= 30.
Proof.
  unfold maturity_penalty.
  repeat match goal with
         | |- context [if ?b then _ else _] => destruct b
         end; lia.
Qed.

Lemma score_pendle_penalty (now : Z) (pd : ProtocolData) :
  protocol pd = "Pendle"%string ->
  calculatePulseScore now (Some pd) =
  clamp (100 - maturity_penalty (_daysUntilDate now (maturityDate pd))
             - liveness_penalty (confidence pd)).
Proof. intro H. rewrite (score_pendle now pd H). reflexivity. Qed.

Lemma count_char_app (c : ascii) (a b : string) :
  count_char c (a ++ b) = (count_char c a + count_char c b)%nat.
Proof.
  induction a as [|x a IH]; [reflexivity|].
  cbn [append count_char]. destruct (Ascii.eqb x c); rewrite IH; reflexivity.
Qed.

Lemma count_dquote_escape (s : string) :
  count_char dquote (escape_quotes s) = (2 * count_char dquote s)%nat.
Proof.
  induction s as [|x s IH]; [reflexivity|].
  cbn [escape_quotes count_char].
  destruct (Ascii.eqb x dquote) eqn:E.
  - cbn [count_char]. change (Ascii.eqb dquote dquote) with true.
    cbv iota. rewrite IH. lia.
  - cbn [count_char]. rewrite E, IH. reflexivity.
Qed.

Lemma concat_cons (sep x : string) (rest : list string) :
  String.concat sep (x :: rest) =
  (x ++ match rest with
        | [] => EmptyString
        | _ :: _ => sep ++ String.concat sep rest
        end)%string.
Proof.
  destruct rest as [|y rest]; cbn [String.concat].
  - induction x as [|c x IH]; [reflexivity|]. cbn [append]. f_equal. exact IH.
  - reflexivity.
Qed.

End ExtraFacts.

Import ExtraFacts Measures.

(** X1.  The status is Safe exactly from 75 up, Monitor exactly from 50
    to 74, Warning exactly from 25 to 49 and Critical exactly below 25;
    a higher score never gets a more alarming status. *)
Theorem status_thresholds :
  forall a b : Z,
    (status (getStatusFromScore a) = Safe <-> 75 <= a) /\
    (status (getStatusFromScore a) = Monitor <-> 50 <= a < 75) /\
    (status (getStatusFromScore a) = Warning <-> 25 <= a < 50) /\
    (status (getStatusFromScore a) = Critical <-> a < 25) /\
    (a <= b ->
     rank (status (getStatusFromScore a))
     <= rank (status (getStatusFromScore b))).
Proof.
  intros a b. unfold getStatusFromScore.
  destruct (Z.leb_spec 75 a), (Z.leb_spec 50 a), (Z.leb_spec 25 a),
           (Z.leb_spec 75 b), (Z.leb_spec 50 b), (Z.leb_spec 25 b);
    cbn [status rank];
    repeat split; intros; try discriminate; try lia; try reflexivity.
Qed.

Lemma status_thresholds_witness :
  60 <= 80 /\
  rank (status (getStatusFromScore 60)) <= rank (status (getStatusFromScore 80)).
Proof.
  split; [lia|].
  apply (proj2 (proj2 (proj2 (proj2 (status_thresholds 60 80))))). lia.
Defined.

(** X2.  For metrics that are present the penalties never add up to more
    than 65: the score lies between 35 and 100, the clamp never acts and
    the status is never Critical.  A score of 0 is returned for an absent
    input and for no other. *)
Theorem score_of_present_metrics :
  forall (now : Z) (pd : ProtocolData) (x : option ProtocolData),
    35 <= calculatePulseScore now (Some pd) <= 100 /\
    status (getStatusFromScore (calculatePulseScore now (Some pd)))
      <> Critical /\
    (calculatePulseScore now x = 0 <-> x = None).
Proof.
  intros now pd x.
  assert (H : forall p, 35 <= calculatePulseScore now (Some p) <= 100).
  { intro p. unfold calculatePulseScore.
    destruct (String.eqb_spec (protocol p) "Pendle") as [HP|HP];
    destruct (String.eqb_spec (protocol p) "Falcon") as [HF|HF];
    destruct (String.eqb_spec (protocol p) "Ethena") as [HE|HE];
      try congruence; cbv beta iota zeta;
      destruct (confidence p) as [c|];
      repeat match goal with
             | |- context [if ?b then _ else _] => destruct b
             end; lia. }
  split; [apply H|]. split.
  - specialize (H pd). unfold getStatusFromScore.
    destruct (Z.leb_spec 75 (calculatePulseScore now (Some pd)));
      [discriminate|].
    destruct (Z.leb_spec 50 (calculatePulseScore now (Some pd)));
      [discriminate|].
    destruct (Z.leb_spec 25 (calculatePulseScore now (Some pd)));
      [discriminate|]. lia.
  - split.
    + destruct x as [p|]; [|reflexivity]. specialize (H p). lia.
    + intros ->. reflexivity.
Qed.

(** X3.  For the Falcon variant the score is 100 minus the cooldown tier
    minus the liveness tier; maturity date, funding rate and de-peg risk
    play no part.  A cooldown of exactly 3, 5 or 7 days takes the lesser
    tier (15, 5, 0), and an absent or NaN cooldown takes none. *)
Theorem falcon_score :
  forall (now : Z) (pd : ProtocolData),
    protocol pd = "Falcon" ->
    calculatePulseScore now (Some pd) =
      100 - cooldown_penalty (cooldownDays pd)
          - liveness_penalty (confidence pd) /\
    cooldown_penalty (Some (of_Z 3)) = 15 /\
    cooldown_penalty (Some (of_Z 5)) = 5 /\
    cooldown_penalty (Some (of_Z 7)) = 0 /\
    cooldown_penalty (Some NaN) = 0 /\
    cooldown_penalty None = 0.
Proof.
  intros now pd H. split.
  - rewrite (score_falcon now pd H). unfold clamp.
    pose proof (cooldown_penalty_range (cooldownDays pd)).
    pose proof (liveness_penalty_range (confidence pd)). lia.
  - repeat split; vm_compute; reflexivity.
Qed.

Lemma falcon_score_witness :
  protocol (fetchFalconCooldown_result (of_Z 3)) = "Falcon" /\
  calculatePulseScore 0 (Some (fetchFalconCooldown_result (of_Z 3))) =
    100 - cooldown_penalty (cooldownDays (fetchFalconCooldown_result (of_Z 3)))
        - liveness_penalty (confidence (fetchFalconCooldown_result (of_Z 3))).
Proof.
  split; [reflexivity|].
  exact (proj1 (falcon_score 0 (fetchFalconCooldown_result (of_Z 3)) eq_refl)).
Defined.

(** X4.  For a protocol other than Pendle, Falcon and Ethena only the
    liveness factor applies: the score is 100 minus the liveness tier,
    whatever the other fields hold. *)
Theorem other_protocol_score :
  forall (now : Z) (pd : ProtocolData),
    protocol pd <> "Pendle" -> protocol pd <> "Falcon" ->
    protocol pd <> "Ethena" ->
    calculatePulseScore now (Some pd) = 100 - liveness_penalty (confidence pd).
Proof. exact score_other. Qed.

Lemma other_protocol_score_witness :
  "Aave" <> "Pendle" /\ "Aave" <> "Falcon" /\ "Aave" <> "Ethena" /\
  calculatePulseScore 0
    (Some {| protocol := "Aave"; maturityDate := Some 0;
             cooldownDays := Some (of_Z 1); fundingRate := Some (of_Z 1);
             depegRisk := Some (of_Z 1); confidence := Some (decimal 85 2) |})
  = 100 - liveness_penalty (Some (decimal 85 2)).
Proof.
  assert (H1 : "Aave" <> "Pendle") by discriminate.
  assert (H2 : "Aave" <> "Falcon") by discriminate.
  assert (H3 : "Aave" <> "Ethena") by discriminate.
  split; [exact H1|]. split; [exact H2|]. split; [exact H3|].
  exact (other_protocol_score 0
           {| protocol := "Aave"; maturityDate := Some 0;
              cooldownDays := Some (of_Z 1); fundingRate := Some (of_Z 1);
              depegRisk := Some (of_Z 1); confidence := Some (decimal 85 2) |}
           H1 H2 H3).
Defined.

(** X5.  Pendle metrics whose maturity date is absent or unparsable take
    no temporal penalty: the day count is NaN, every comparison with it
    is false, and the score is 100 minus the liveness tier. *)
Theorem pendle_invalid_date :
  forall (now : Z) (pd : ProtocolData),
    protocol pd = "Pendle" -> maturityDate pd = None ->
    _daysUntilDate now (maturityDate pd) = NaN /\
    calculatePulseScore now (Some pd) = 100 - liveness_penalty (confidence pd).
Proof.
  intros now pd HP HD.
  assert (E : _daysUntilDate now None = NaN) by reflexivity.
  rewrite HD. split; [exact E|].
  rewrite (score_pendle_penalty now pd HP), HD, E.
  change (maturity_penalty NaN) with 0. unfold clamp.
  pose proof (liveness_penalty_range (confidence pd)). lia.
Qed.

Lemma pendle_invalid_date_witness :
  protocol (fetchPendleAPY_result None (Some (decimal 85 2))) = "Pendle" /\
  maturityDate (fetchPendleAPY_result None (Some (decimal 85 2))) = None /\
  _daysUntilDate 0
    (maturityDate (fetchPendleAPY_result None (Some (decimal 85 2)))) = NaN /\
  calculatePulseScore 0
    (Some (fetchPendleAPY_result None (Some (decimal 85 2)))) =
  100 - liveness_penalty
          (confidence (fetchPendleAPY_result None (Some (decimal 85 2)))).
Proof.
  split; [reflexivity|]. split; [reflexivity|].
  exact (pendle_invalid_date 0
           (fetchPendleAPY_result None (Some (decimal 85 2))) eq_refl eq_refl).
Defined.

(** X6.  The record that [fetchFalconCooldown] builds carries no
    confidence, so only the cooldown tier applies: whatever the webhook
    answers, the Falcon score is 75, 85, 95 or 100 and the status Safe. *)
Theorem fetched_falcon_always_safe :
  forall (now : Z) (data_cooldownDays : number),
    (calculatePulseScore now
       (Some (fetchFalconCooldown_result data_cooldownDays)) = 75 \/
     calculatePulseScore now
       (Some (fetchFalconCooldown_result data_cooldownDays)) = 85 \/
     calculatePulseScore now
       (Some (fetchFalconCooldown_result data_cooldownDays)) = 95 \/
     calculatePulseScore now
       (Some (fetchFalconCooldown_result data_cooldownDays)) = 100) /\
    status (getStatusFromScore
              (calculatePulseScore now
                 (Some (fetchFalconCooldown_result data_cooldownDays))))
      = Safe.
Proof.
  intros now x.
  rewrite (score_falcon now (fetchFalconCooldown_result x) eq_refl).
  cbn [fetchFalconCooldown_result cooldownDays confidence liveness_penalty].
  unfold cooldown_penalty, clamp. cbv zeta.
  repeat match goal with
         | |- context [if ?b then _ else _] => destruct b
         end; split; try reflexivity; lia.
Qed.

(** X7.  The record that [fetchEthenaFundingRate] builds carries no
    confidence either: the Ethena score is 100 minus the funding tier
    minus the de-peg tier, at least 65, and the status is Safe or
    Monitor.  A de-peg risk that the webhook reports as 0 or that does not
    parse is replaced by 0.01 and costs nothing. *)
Theorem fetched_ethena_score :
  forall (now : Z) (data_fundingRate data_depegRisk : number),
    calculatePulseScore now
      (Some (fetchEthenaFundingRate_result data_fundingRate data_depegRisk)) =
      100 - funding_penalty (Some data_fundingRate)
          - depeg_penalty (or_default data_depegRisk (decimal 1 2)) /\
    65 <= calculatePulseScore now
            (Some (fetchEthenaFundingRate_result data_fundingRate
                     data_depegRisk)) /\
    (status (getStatusFromScore
               (calculatePulseScore now
                  (Some (fetchEthenaFundingRate_result data_fundingRate
                           data_depegRisk)))) = Safe \/
     status (getStatusFromScore
               (calculatePulseScore now
                  (Some (fetchEthenaFundingRate_result data_fundingRate
                           data_depegRisk)))) = Monitor) /\
    (truthy data_depegRisk = false ->
     calculatePulseScore now
       (Some (fetchEthenaFundingRate_result data_fundingRate data_depegRisk)) =
       100 - funding_penalty (Some data_fundingRate)).
Proof.
  intros now f d.
  assert (E : calculatePulseScore now
                (Some (fetchEthenaFundingRate_result f d)) =
              100 - funding_penalty (Some f)
                  - depeg_penalty (or_default d (decimal 1 2))).
  { rewrite (score_ethena now (fetchEthenaFundingRate_result f d) eq_refl).
    cbn [fetchEthenaFundingRate_result fundingRate depegRisk confidence
         liveness_penalty opt_or_default].
    assert (T : or_default (or_default d (decimal 1 2)) (decimal 1 2)
                = or_default d (decimal 1 2)).
    { unfold or_default. destruct (truthy d) eqn:Td; [rewrite Td; reflexivity|].
      vm_compute. reflexivity. }
    rewrite T. unfold clamp.
    pose proof (funding_penalty_range (Some f)).
    pose proof (depeg_penalty_range (or_default d (decimal 1 2))). lia. }
  pose proof (funding_penalty_range (Some f)) as Hf.
  pose proof (depeg_penalty_range (or_default d (decimal 1 2))) as Hd.
  split; [exact E|]. split; [rewrite E; lia|]. split.
  - rewrite E. unfold getStatusFromScore.
    destruct (Z.leb_spec 75
                (100 - funding_penalty (Some f)
                     - depeg_penalty (or_default d (decimal 1 2))));
      [left; reflexivity|].
    destruct (Z.leb_spec 50
                (100 - funding_penalty (Some f)
                     - depeg_penalty (or_default d (decimal 1 2))));
      [right; reflexivity | lia].
  - intro Td. rewrite E. unfold or_default. rewrite Td.
    replace (depeg_penalty (decimal 1 2)) with 0 by (vm_compute; reflexivity).
    lia.
Qed.

Lemma fetched_ethena_score_witness :
  truthy (of_Z 0) = false /\
  calculatePulseScore 0
    (Some (fetchEthenaFundingRate_result (decimal 3 2) (of_Z 0))) =
  100 - funding_penalty (Some (decimal 3 2)).
Proof.
  split; [reflexivity|].
  apply (proj2 (proj2 (proj2
           (fetched_ethena_score 0 (decimal 3 2) (of_Z 0))))).
  reflexivity.
Defined.

(** X8.  [fetchPendleAPY] replaces a confidence that the webhook omits or
    reports as 0 (or NaN) by 0.95: such a Pendle record takes no liveness
    penalty, and its score is 100 minus the maturity tier. *)
Theorem fetched_pendle_default_confidence :
  forall (now : Z) (data_maturityDate : option Z)
         (data_confidence : option number),
    (data_confidence = None \/
     exists c, data_confidence = Some c /\ truthy c = false) ->
    confidence (fetchPendleAPY_result data_maturityDate data_confidence) =
      Some (decimal 95 2) /\
    calculatePulseScore now
      (Some (fetchPendleAPY_result data_maturityDate data_confidence)) =
      100 - maturity_penalty (_daysUntilDate now data_maturityDate).
Proof.
  intros now date conf H.
  assert (E : opt_or_default conf (decimal 95 2) = decimal 95 2).
  { destruct H as [-> | (c & -> & Hc)]; [reflexivity|].
    cbn [opt_or_default]. unfold or_default. rewrite Hc. reflexivity. }
  split; [cbn [fetchPendleAPY_result confidence]; rewrite E; reflexivity|].
  rewrite (score_pendle_penalty now (fetchPendleAPY_result date conf) eq_refl).
  cbn [fetchPendleAPY_result maturityDate confidence]. rewrite E.
  replace (liveness_penalty (Some (decimal 95 2))) with 0
    by (vm_compute; reflexivity).
  unfold clamp.
  pose proof (maturity_penalty_range (_daysUntilDate now date)). lia.
Qed.

Lemma fetched_pendle_default_confidence_witness :
  (Some (of_Z 0) = None \/
   exists c, Some (of_Z 0) = Some c /\ truthy c = false) /\
  confidence (fetchPendleAPY_result None (Some (of_Z 0))) =
    Some (decimal 95 2) /\
  calculatePulseScore 0 (Some (fetchPendleAPY_result None (Some (of_Z 0)))) =
    100 - maturity_penalty (_daysUntilDate 0 None).
Proof.
  assert (H : Some (of_Z 0) = None \/
              exists c, Some (of_Z 0) = Some c /\ truthy c = false)
    by (right; exists (of_Z 0); split; reflexivity).
  split; [exact H|].
  exact (fetched_pendle_default_confidence 0 None (Some (of_Z 0)) H).
Defined.



(** X10.  The stress scenarios and the breakeven never read the NAV: two
    comparisons that differ only in the redemption NAV have the same
    three scenario results and the same breakeven.  The best case (a
    de-peg of 0) can therefore contradict the headline: at a NAV of 0.9
    the comparison recommends EXIT_NOW while its best case recommends
    WAIT. *)
Theorem scenarios_ignore_nav :
  forall (this : Engine) (amount nav1 nav2 cooldown : number)
         (marketData : MarketData),
    bestCase (snd (calculateExit this amount
                     {| rd_nav := nav1; rd_cooldownDays := cooldown |}
                     marketData)) =
    bestCase (snd (calculateExit this amount
                     {| rd_nav := nav2; rd_cooldownDays := cooldown |}
                     marketData)) /\
    midCase (snd (calculateExit this amount
                    {| rd_nav := nav1; rd_cooldownDays := cooldown |}
                    marketData)) =
    midCase (snd (calculateExit this amount
                    {| rd_nav := nav2; rd_cooldownDays := cooldown |}
                    marketData)) /\
    worstCase (snd (calculateExit this amount
                      {| rd_nav := nav1; rd_cooldownDays := cooldown |}
                      marketData)) =
    worstCase (snd (calculateExit this amount
                      {| rd_nav := nav2; rd_cooldownDays := cooldown |}
                      marketData)) /\
    breakeven_depegPercent
      (snd (calculateExit this amount
              {| rd_nav := nav1; rd_cooldownDays := cooldown |} marketData)) =
    breakeven_depegPercent
      (snd (calculateExit this amount
              {| rd_nav := nav2; rd_cooldownDays := cooldown |} marketData)) /\
    recommendation (snd discount_exit) = EXIT_NOW /\
    s_recommendation (bestCase (snd discount_exit)) = WAIT.
Proof.
  intros this amount nav1 nav2 cooldown md.
  split; [reflexivity|]. split; [reflexivity|]. split; [reflexivity|].
  split; [reflexivity|]. vm_compute. split; reflexivity.
Qed.

(** X11.  Every rendered CSV cell holds an even number of double quotes:
    each quote of the cell is doubled, and the wrapping adds two. *)
Theorem render_cell_quotes_even :
  forall cell : string,
    Nat.even (count_char dquote (render_cell cell)) = true /\
    count_char dquote (escape_quotes cell) =
      (2 * count_char dquote cell)%nat.
Proof.
  intro cell. split; [|apply count_dquote_escape].
  unfold render_cell. destruct (includes_comma (escape_quotes cell)).
  - cbn [count_char]. change (Ascii.eqb dquote dquote) with true. cbv iota.
    rewrite count_char_app. cbn [count_char].
    change (Ascii.eqb dquote dquote) with true. cbv iota.
    rewrite count_dquote_escape.
    replace (S (2 * count_char dquote cell + 1))
      with (2 * (count_char dquote cell + 1))%nat by lia.
    apply Nat.even_spec. exists (count_char dquote cell + 1)%nat. reflexivity.
  - rewrite count_dquote_escape.
    apply Nat.even_spec. exists (count_char dquote cell). reflexivity.
Qed.

(** X12.  [calculateCostBasis] never returns the currency tag of the
    record: because the conditional binds weaker than the disjunction,
    any non-empty tag, USD included, gives KES; without a tag the
    currency is KES for a user in Kenya and USD otherwise. *)
Theorem cost_basis_currency :
  forall (this : Manager) (yieldLog : YieldLog),
    (forall (c : ascii) (tag : string),
        Currency yieldLog = Some (String c tag) ->
        cb_currency (calculateCostBasis this yieldLog) = "KES") /\
    (Currency yieldLog = None \/ Currency yieldLog = Some "" ->
     cb_currency (calculateCostBasis this yieldLog) =
       if (userLocation this =? "KE")%string then "KES" else "USD").
Proof.
  intros this log. unfold calculateCostBasis. cbn [cb_currency]. split.
  - intros c tag ->. reflexivity.
  - intros [-> | ->]; reflexivity.
Qed.

Lemma cost_basis_currency_witness :
  Currency {| Timestamp := "2024-01-01"; Asset := "sUSDe";
              Protocol := "Ethena"; RewardAmount := of_Z 1;
              ExchangeRate := of_Z 1; RiskScore := None;
              Currency := Some "USD" |} = Some "USD" /\
  cb_currency
    (calculateCostBasis {| userLocation := "US"; yieldLogs := [] |}
       {| Timestamp := "2024-01-01"; Asset := "sUSDe";
          Protocol := "Ethena"; RewardAmount := of_Z 1;
          ExchangeRate := of_Z 1; RiskScore := None;
          Currency := Some "USD" |}) = "KES".
Proof.
  split; [reflexivity|].
  apply (proj1 (cost_basis_currency {| userLocation := "US"; yieldLogs := [] |}
                  {| Timestamp := "2024-01-01"; Asset := "sUSDe";
                     Protocol := "Ethena"; RewardAmount := of_Z 1;
                     ExchangeRate := of_Z 1; RiskScore := None;
                     Currency := Some "USD" |}) "U"%char "SD").
  reflexivity.
Defined.

(** X13.  The currency handed to [generateTaxCSV] only relabels one
    header cell: the record rows of two exports of the same logs are the
    same text, no amount is converted. *)
Theorem csv_currency_only_in_header :
  forall (this : Manager),
  exists body : string,
    forall currency : string,
      generateTaxCSV this currency =
        String.concat "," (map render_cell (header_row currency)) ++ body.
Proof.
  intro this.
  exists (match map (fun log =>
                       String.concat "," (map render_cell (log_row this log)))
                    (yieldLogs this) with
          | [] => EmptyString
          | _ :: _ =>
              newline ++
              String.concat newline
                (map (fun log =>
                        String.concat "," (map render_cell (log_row this log)))
                     (yieldLogs this))
          end)%string.
  intro currency.
  unfold generateTaxCSV. cbn [map]. rewrite map_map.
  apply concat_cons.
Qed.


(** X15.  The colour of every status is found in the colour map, so the
    green fallback of [_getHexColor] is reached only by an unknown key:
    Safe is #22c55e, Monitor #eab308, Warning #f97316 and Critical
    #ef4444.  Monitor and Warning share the indicator status-warning. *)
Theorem status_colour :
  forall score : Z,
    _getHexColor (color (getStatusFromScore score)) =
      match status (getStatusFromScore score) with
      | Safe => "#22c55e"
      | Monitor => "#eab308"
      | Warning => "#f97316"
      | Critical => "#ef4444"
      end /\
    lookup (color (getStatusFromScore score)) colorMap <> None /\
    (indicator (getStatusFromScore score) = "status-warning" <->
     status (getStatusFromScore score) = Monitor \/
     status (getStatusFromScore score) = Warning) /\
    _getHexColor "text-blue-400" = "#22c55e".
Proof.
  intro score. unfold getStatusFromScore.
  destruct (75 <=? score); [|destruct (50 <=? score); [|destruct (25 <=? score)]];
    cbn; repeat split; try discriminate; auto;
    try (intros [H | H]; discriminate H).
Qed.

(** * Upper bounds on rounded results *)

Module UpperFacts.
Import JS Rounding FloatFacts EngineFacts RiskCore.

Lemma scaled_lt_cancel (a b e : Z) :
  -5000 <= e -> scaled a e < scaled b e -> a < b.
Proof.
  intros He H. unfold scaled in H.
  apply (proj2 (Z.mul_lt_mono_pos_r (2 ^ (e + 5000)) a b
                  (pow2_pos (e + 5000) ltac:(lia)))). exact H.
Qed.

Lemma scaled_eq_cancel (a b e : Z) :
  -5000 <= e -> scaled a e = scaled b e -> a = b.
Proof.
  intros He H.
  assert (a <= b) by (apply (scaled_le_cancel a b e); lia).
  assert (b <= a) by (apply (scaled_le_cancel b a e); lia).
  lia.
Qed.

(** A shift that drops only zero bits leaves an exact location exact. *)
Lemma shr_1_exact (r : shr_record) :
  0 <= shr_m r -> shr_r r = false -> shr_s r = false ->
  (exists q, shr_m r = 2 * q) ->
  shr_r (shr_1 r) = false /\ shr_s (shr_1 r) = false.
Proof.
  destruct r as [m rb sb]. cbn [shr_m shr_r shr_s].
  intros Hm -> -> [q Hq].
  destruct m as [|[p|p|]|p]; cbn; try lia; auto.
Qed.

Lemma iter_shr_1_exact (n : positive) (r : shr_record) :
  0 <= shr_m r -> shr_r r = false -> shr_s r = false ->
  (exists q, shr_m r = q * 2 ^ Zpos n) ->
  shr_r (iter_pos shr_1 n r) = false /\ shr_s (iter_pos shr_1 n r) = false.
Proof.
  revert r. induction n as [n IH | n IH |]; intros r Hm Hr Hs [q Hq];
    cbn [iter_pos].
  - (* 2n + 1 *)
    assert (E : shr_m r = 2 * (q * 2 ^ Zpos n * 2 ^ Zpos n)).
    { rewrite Hq. change (Zpos n~1) with (2 * Zpos n + 1).
      replace (2 * Zpos n + 1) with (1 + Zpos n + Zpos n) by lia.
      rewrite (pow2_split (1 + Zpos n) (Zpos n)),
              (pow2_split 1 (Zpos n)) by lia.
      change (2 ^ 1) with 2. ring. }
    destruct (shr_1_exact r Hm Hr Hs (ex_intro _ _ E)) as [R1 S1].
    assert (M1 : shr_m (shr_1 r) = q * 2 ^ Zpos n * 2 ^ Zpos n).
    { rewrite shr_1_m by assumption. rewrite E.
      rewrite Z.mul_comm, Z.div_mul by lia. reflexivity. }
    assert (P := pow2_pos (Zpos n) ltac:(lia)).
    assert (H1 : 0 <= shr_m (shr_1 r)).
    { rewrite shr_1_m by assumption. apply Z.div_pos; lia. }
    destruct (IH (shr_1 r) H1 R1 S1 (ex_intro _ _ M1)) as [R2 S2].
    assert (M2 : shr_m (iter_pos shr_1 n (shr_1 r)) = q * 2 ^ Zpos n).
    { rewrite iter_shr_1_m by assumption. rewrite M1.
      rewrite Z.div_mul by lia. reflexivity. }
    assert (H2 : 0 <= shr_m (iter_pos shr_1 n (shr_1 r))).
    { rewrite iter_shr_1_m by assumption. apply Z.div_pos; lia. }
    apply (IH _ H2 R2 S2 (ex_intro _ _ M2)).
  - (* 2n *)
    assert (M1 : shr_m r = q * 2 ^ Zpos n * 2 ^ Zpos n).
    { rewrite Hq. change (Zpos n~0) with (2 * Zpos n).
      replace (2 * Zpos n) with (Zpos n + Zpos n) by lia.
      rewrite (pow2_split (Zpos n) (Zpos n)) by lia. ring. }
    assert (P := pow2_pos (Zpos n) ltac:(lia)).
    destruct (IH r Hm Hr Hs (ex_intro _ _ M1)) as [R2 S2].
    assert (M2 : shr_m (iter_pos shr_1 n r) = q * 2 ^ Zpos n).
    { rewrite iter_shr_1_m by assumption. rewrite M1.
      rewrite Z.div_mul by lia. reflexivity. }
    assert (H2 : 0 <= shr_m (iter_pos shr_1 n r)).
    { rewrite iter_shr_1_m by assumption. apply Z.div_pos; lia. }
    apply (IH _ H2 R2 S2 (ex_intro _ _ M2)).
  - apply shr_1_exact; try assumption.
    exists q. rewrite Hq. change (2 ^ 1) with 2. ring.
Qed.

Lemma shr_fexp_exact (m e : Z) :
  0 <= m ->
  (exists q, m = q * 2 ^ Z.max 0 (fexp prec emax (Zdigits2 m + e) - e)) ->
  loc_of_shr_record (fst (shr_fexp prec emax m e loc_Exact)) = loc_Exact.
Proof.
  intros Hm Hq. unfold shr_fexp, shr.
  destruct (fexp prec emax (Zdigits2 m + e) - e) as [|n|n] eqn:E;
    cbn [fst shr_record_of_loc]; try reflexivity.
  replace (Z.max 0 (Zpos n)) with (Zpos n) in Hq by lia.
  destruct (iter_shr_1_exact n {| shr_m := m; shr_r := false; shr_s := false |}
              Hm eq_refl eq_refl Hq) as [R S].
  destruct (iter_pos shr_1 n _) as [m' r' s']. cbn [shr_r shr_s] in R, S.
  subst. reflexivity.
Qed.

(** The rounding of a value that is at most a normal double [c], given
    on a unit that divides [c], is at most [c]. *)
Lemma binary_round_aux_below (mx ex : Z) (lx : location) (mc ec : Z) :
  0 < mx -> -5000 <= ex -> ex <= ec ->
  2 ^ 52 <= mc < 2 ^ 53 -> -1074 <= ec <= 971 ->
  scaled mx ex <= scaled mc ec ->
  (scaled mx ex = scaled mc ec -> lx = loc_Exact) ->
  below mc ec (binary_round_aux prec emax false mx ex lx).
Proof.
  intros Hmx Hex Hexc Hmc Hec Hle Hloc.
  destruct mx as [|p|p]; try lia.
  destruct (digits2_pos_bounds p) as [Dlo Dhi].
  set (d := Zpos (digits2_pos p)) in *.
  assert (Hd : 0 < d) by (unfold d; lia).
  pose proof (scaled_normal_bounds mc ec ltac:(lia) Hmc) as [_ Bc].
  assert (B1 : 2 ^ (d - 1 + (ex + 5000)) <= scaled (Zpos p) ex).
  { unfold scaled. rewrite (pow2_split (d - 1) (ex + 5000)) by lia.
    apply Z.mul_le_mono_nonneg_r; [apply Z.lt_le_incl, pow2_pos|]; lia. }
  assert (H3 : d - 1 + (ex + 5000) < ec + 5053) by (apply pow2_lt_inv; lia).
  set (k1 := Z.max 0 (fexp prec emax (d + ex) - ex)).
  assert (Hk1 : 0 <= k1) by (unfold k1; lia).
  assert (Hk1d : d - 53 <= k1) by (unfold k1; rewrite fexp_unfold; lia).
  assert (He1 : ex + k1 <= ec) by (unfold k1; rewrite fexp_unfold; lia).
  assert (He1m : -1074 <= ex + k1) by (unfold k1; rewrite fexp_unfold; lia).
  rewrite binary_round_aux_unfold. cbv zeta.
  destruct (shr_fexp_spec (Zpos p) ex lx ltac:(lia)) as [R1m R1e].
  cbn [Zdigits2] in R1m, R1e. fold d in R1m, R1e. fold k1 in R1m, R1e.
  pose proof (pow2_pos k1 Hk1) as Pk1.
  assert (M1 : 0 <= Zpos p / 2 ^ k1 < 2 ^ 53).
  { split; [apply Z.div_pos; lia|].
    apply Z.div_lt_upper_bound; [lia|].
    apply Z.lt_le_trans with (2 ^ d); [lia|].
    replace d with ((d - 53 - k1 + k1) + 53) at 1 by lia.
    rewrite <- (pow2_split k1 53) by lia.
    apply Z.pow_le_mono_r; lia. }
  assert (M1c : ex + k1 = ec -> Zpos p / 2 ^ k1 <= mc).
  { intro E.
    assert (Zpos p <= mc * 2 ^ k1).
    { apply (scaled_le_cancel _ _ ex); [lia|].
      rewrite scaled_shift by lia. rewrite E. exact Hle. }
    apply Z.div_le_upper_bound; lia. }
  assert (M1x : ex + k1 = ec -> Zpos p / 2 ^ k1 = mc ->
                loc_of_shr_record (fst (shr_fexp prec emax (Zpos p) ex lx))
                = loc_Exact).
  { intros E Em.
    assert (Hge : mc * 2 ^ k1 <= Zpos p).
    { rewrite <- Em. rewrite Z.mul_comm. apply Z.mul_div_le. lia. }
    assert (Hle' : Zpos p <= mc * 2 ^ k1).
    { apply (scaled_le_cancel _ _ ex); [lia|].
      rewrite scaled_shift by lia. rewrite E. exact Hle. }
    assert (Ep : Zpos p = mc * 2 ^ k1) by lia.
    assert (lx = loc_Exact) as ->.
    { apply Hloc. rewrite Ep, scaled_shift by lia. rewrite E. reflexivity. }
    apply shr_fexp_exact; [lia|]. cbn [Zdigits2]. fold d. fold k1.
    exists mc. exact Ep. }
  set (r1 := shr_fexp prec emax (Zpos p) ex lx) in *.
  pose proof (round_nearest_even_bounds (shr_m (fst r1))
                (loc_of_shr_record (fst r1))) as B2.
  set (m2 := round_nearest_even (shr_m (fst r1)) (loc_of_shr_record (fst r1)))
    in *.
  rewrite R1m in B2.
  destruct (shr_fexp_spec m2 (snd r1) loc_Exact ltac:(lia)) as [R2m R2e].
  set (r2 := shr_fexp prec emax m2 (snd r1) loc_Exact) in *.
  rewrite R1e in R2m, R2e. rewrite fexp_unfold in R2m, R2e.
  destruct m2 as [|p2|p2] eqn:Em2; try lia.
  - (* the value was rounded to zero *)
    cbn [Zdigits2] in R2m. rewrite Z.div_0_l in R2m
      by (apply Z.pow_nonzero; lia).
    rewrite R2m. left. reflexivity.
  - cbn [Zdigits2] in R2m, R2e.
    destruct (Z_lt_le_dec (Zpos p2) (2 ^ 53)) as [Hlt | Hge].
    + (* no carry *)
      destruct (digits2_pos_bounds p2) as [D2lo _].
      assert (D2 : Zpos (digits2_pos p2) <= 53).
      { assert (Zpos (digits2_pos p2) - 1 < 53) by (apply pow2_lt_inv; lia).
        lia. }
      replace (Z.max 0 (Z.max (Zpos (digits2_pos p2) + (ex + k1) - 53) (-1074)
                        - (ex + k1))) with 0 in R2m, R2e by lia.
      change (2 ^ 0) with 1 in R2m. rewrite Z.div_1_r in R2m.
      rewrite R2m, R2e.
      replace (ex + k1 + 0 <=? emax - prec) with true
        by (symmetry; apply Z.leb_le; unfold emax, prec; lia).
      right. exists p2, (ex + k1 + 0). split; [reflexivity|].
      split; [exact Hlt|]. split; [lia|].
      destruct (Z.eq_dec (ex + k1) ec) as [E|E]; [right | left; lia].
      split; [lia|].
      specialize (M1c E).
      destruct (Z.eq_dec (Zpos p / 2 ^ k1) mc) as [Em|Em]; [|lia].
      (* the truncation is [c] itself: the location is exact *)
      specialize (M1x E Em).
      assert (Zpos p2 = Zpos p / 2 ^ k1); [|lia].
      rewrite <- Em2. unfold m2. rewrite M1x, R1m. reflexivity.
    + (* carry into a 54th digit *)
      assert (E2 : Zpos p2 = 2 ^ 53) by lia.
      assert (D2 : Zpos (digits2_pos p2) = 54)
        by (apply digits2_pos_unique; change (54 - 1) with 53; lia).
      rewrite D2 in R2m, R2e.
      replace (Z.max 0 (Z.max (54 + (ex + k1) - 53) (-1074) - (ex + k1)))
        with 1 in R2m, R2e by lia.
      rewrite E2 in R2m. change (2 ^ 53 / 2 ^ 1) with (2 ^ 52) in R2m.
      assert (Hne : ex + k1 <> ec).
      { intro E. specialize (M1c E).
        destruct (Z.eq_dec (Zpos p / 2 ^ k1) mc) as [Em|Em]; [|lia].
        specialize (M1x E Em).
        assert (Zpos p2 = Zpos p / 2 ^ k1); [|lia].
        rewrite <- Em2. unfold m2. rewrite M1x, R1m. reflexivity. }
      rewrite R2e.
      destruct (shr_m (fst r2)) as [|p3|p3] eqn:E3; try (exfalso; lia).
      replace (ex + k1 + 1 <=? emax - prec) with true
        by (symmetry; apply Z.leb_le; unfold emax, prec; lia).
      right. exists p3, (ex + k1 + 1). split; [reflexivity|].
      split; [lia|]. split; [lia|].
      destruct (Z.eq_dec (ex + k1 + 1) ec) as [E|E]; [right; lia | left; lia].
Qed.

Lemma binary_round_below (p : positive) (e mc ec : Z) :
  -1074 <= e -> 2 ^ 52 <= mc < 2 ^ 53 -> -1074 <= ec <= 971 ->
  scaled (Zpos p) e <= scaled mc ec ->
  below mc ec (binary_round prec emax false p e).
Proof.
  intros He Hmc Hec Hle. unfold binary_round.
  destruct (digits2_pos_bounds p) as [Dlo Dhi].
  set (d := Zpos (digits2_pos p)) in *.
  assert (Hd : 0 < d) by (unfold d; lia).
  pose proof (scaled_normal_bounds mc ec ltac:(lia) Hmc) as [_ Bc].
  assert (B1 : 2 ^ (d - 1 + (e + 5000)) <= scaled (Zpos p) e).
  { unfold scaled. rewrite (pow2_split (d - 1) (e + 5000)) by lia.
    apply Z.mul_le_mono_nonneg_r; [apply Z.lt_le_incl, pow2_pos|]; lia. }
  assert (H3 : d - 1 + (e + 5000) < ec + 5053) by (apply pow2_lt_inv; lia).
  set (f := fexp prec emax (d + e)).
  assert (Hf : f = Z.max (d + e - 53) (-1074)) by (unfold f; apply fexp_unfold).
  destruct (Z_lt_le_dec f e) as [Hlt | Hge].
  - pose proof (shl_align_fst p e f ltac:(lia)) as Em.
    pose proof (shl_align_snd p e f) as Ee.
    destruct (shl_align p e f) as [mz ez]. cbn [fst snd] in Em, Ee.
    assert (Ez : ez = f) by lia. clear Ee. subst ez.
    apply binary_round_aux_below; try lia.
    + rewrite Em, scaled_shift by lia.
      replace (f + (e - f)) with e by lia. exact Hle.
    + reflexivity.
  - rewrite shl_align_ge by assumption.
    apply binary_round_aux_below; try lia. reflexivity.
Qed.


Lemma below_scaled (mc ec : Z) (m : positive) (e : Z) :
  -1074 <= ec -> 2 ^ 52 <= mc < 2 ^ 53 ->
  below mc ec (S754_finite false m e) ->
  scaled (Zpos m) e <= scaled mc ec.
Proof.
  intros Hec Hmc [H | (m' & e' & E & Hm & He & Hlex)]; [discriminate|].
  injection E as -> ->.
  destruct Hlex as [Hlt | [-> Hle]].
  - pose proof (scaled_normal_bounds mc ec ltac:(lia) Hmc) as [B _].
    assert (scaled (Zpos m') e' < 2 ^ (e' + 5053)).
    { unfold scaled. replace (e' + 5053) with (53 + (e' + 5000)) by lia.
      rewrite (pow2_split 53 (e' + 5000)) by lia.
      apply Z.mul_lt_mono_pos_r; [apply pow2_pos|]; lia. }
    assert (2 ^ (e' + 5053) <= 2 ^ (ec + 5052))
      by (apply Z.pow_le_mono_r; lia).
    lia.
  - apply scaled_le_mono; lia.
Qed.

Lemma sub_of_Z_below (t now mc ec : Z) :
  Z.abs t < 2 ^ 53 -> Z.abs now < 2 ^ 53 -> now < t ->
  2 ^ 52 <= mc < 2 ^ 53 -> -1074 <= ec <= 971 ->
  scaled (t - now) 0 <= scaled mc ec ->
  below mc ec (sub (of_Z t) (of_Z now)).
Proof.
  intros Ht Hn Hlt Hmc Hec Hle.
  destruct (sub_of_Z t now Ht Hn ltac:(lia)) as (ez & p & Hez & Ep & E).
  rewrite E. replace (t - now <? 0) with false by (symmetry; apply Z.ltb_ge; lia).
  apply binary_round_below; try lia.
  rewrite Ep, scaled_shift by lia.
  replace (ez + - ez) with 0 by lia. rewrite Z.abs_eq by lia. exact Hle.
Qed.

Lemma new_location_zero (nb : Z) : new_location nb 0 = loc_Exact.
Proof.
  unfold new_location, new_location_even, new_location_odd.
  destruct (Z.even nb); reflexivity.
Qed.

(** A quotient is at most any normal double [c] with [x <= c * y]. *)
Lemma div_below (mx : positive) (ex : Z) (my : positive) (ey mc ec : Z) :
  2 ^ 52 <= Zpos mx < 2 ^ 53 -> 2 ^ 52 <= Zpos my < 2 ^ 53 ->
  2 ^ 52 <= mc < 2 ^ 53 ->
  -1074 <= ex -> -1074 <= ey -> -1074 <= ec <= 971 -> -1021 <= ex - ey ->
  scaled (Zpos mx) ex <= scaled (mc * Zpos my) (ec + ey) ->
  below mc ec (div (S754_finite false mx ex) (S754_finite false my ey)).
Proof.
  intros Hx Hy Hc Hex Hey Hec He Hle.
  rewrite div_finite_unfold, SFdiv_core_normal by assumption.
  set (a := Zpos mx * 2 ^ 53).
  set (q := a / Zpos my).
  set (e' := ex - ey - 53).
  assert (Hq : 2 ^ 52 <= q).
  { unfold q, a. apply Z.div_le_lower_bound; [lia|].
    apply Z.le_trans with (2 ^ 53 * 2 ^ 52); [|lia].
    apply Z.mul_le_mono_nonneg_r; lia. }
  assert (He' : e' <= ec).
  { pose proof (scaled_normal_bounds (Zpos mx) ex ltac:(lia) Hx) as [B1 _].
    assert (B2 : scaled (mc * Zpos my) (ec + ey) < 2 ^ (ec + ey + 5106)).
    { unfold scaled. replace (ec + ey + 5106) with (106 + (ec + ey + 5000))
        by lia.
      rewrite (pow2_split 106 (ec + ey + 5000)) by lia.
      apply Z.mul_lt_mono_pos_r; [apply pow2_pos; lia|].
      change (2 ^ 106) with (2 ^ 53 * 2 ^ 53).
      apply Z.mul_lt_mono_nonneg; lia. }
    assert (ex + 5052 < ec + ey + 5106) by (apply pow2_lt_inv; lia).
    unfold e'. lia. }
  set (B := 2 ^ (e' + ey + 5000)).
  assert (HB : 0 < B) by (apply pow2_pos; unfold e'; lia).
  assert (Ha : a <= Zpos my * (mc * 2 ^ (ec - e'))).
  { apply (proj2 (Z.mul_le_mono_pos_r _ _ B HB)).
    unfold scaled in Hle.
    replace (ec + ey + 5000) with ((ec - e') + (e' + ey + 5000)) in Hle by lia.
    replace (ex + 5000) with (53 + (e' + ey + 5000)) in Hle
      by (unfold e'; lia).
    rewrite (pow2_split (ec - e') (e' + ey + 5000)),
            (pow2_split 53 (e' + ey + 5000)) in Hle by (unfold e'; lia).
    fold B in Hle. unfold a.
    replace (Zpos mx * 2 ^ 53 * B) with (Zpos mx * (2 ^ 53 * B)) by ring.
    replace (Zpos my * (mc * 2 ^ (ec - e')) * B)
      with (mc * Zpos my * (2 ^ (ec - e') * B)) by ring.
    exact Hle. }
  cbn [xorb].
  apply binary_round_aux_below; try (unfold e'; lia).
  - replace ec with (e' + (ec - e')) at 1 by lia.
    rewrite <- scaled_shift by (unfold e'; lia).
    apply scaled_le_mono; [unfold e'; lia|].
    unfold q. apply Z.div_le_upper_bound; [lia | exact Ha].
  - intro Eq.
    replace ec with (e' + (ec - e')) in Eq at 1 by lia.
    rewrite <- scaled_shift in Eq by (unfold e'; lia).
    apply scaled_eq_cancel in Eq; [|unfold e'; lia].
    pose proof (Z.div_mod a (Zpos my) ltac:(lia)) as Hdm. fold q in Hdm.
    pose proof (Z.mod_pos_bound a (Zpos my) ltac:(lia)) as Hmod.
    assert (a mod Zpos my = 0) as -> by (rewrite Eq in Hdm; lia).
    apply new_location_zero.
Qed.

(** [Math.ceil] does not exceed an integer that bounds its argument. *)
Lemma Math_ceil_below (x : number) (N mc ec : Z) :
  2 ^ 52 <= mc < 2 ^ 53 -> -52 <= ec <= 0 -> mc = N * 2 ^ (- ec) ->
  below mc ec x -> below mc ec (Math_ceil x).
Proof.
  intros Hc Hec EN H.
  destruct x as [s | s | | s m e]; try exact H.
  assert (s = false) as ->.
  { destruct H as [H | (m' & e' & E & _)]; [discriminate | congruence]. }
  pose proof (below_scaled mc ec m e ltac:(lia) Hc H) as Hsc.
  assert (He : -1074 <= e).
  { destruct H as [H | (m' & e' & E & _ & He & _)]; [discriminate|].
    injection E as -> ->. exact He. }
  unfold Math_ceil.
  destruct (Z.leb_spec 0 e) as [|Hneg]; [exact H|].
  rewrite Z.shiftr_div_pow2, Z.shiftl_mul_pow2 by lia.
  destruct (Z.eqb_spec (Zpos m) (Zpos m / 2 ^ (- e) * 2 ^ (- e)))
    as [|Hinexact]; [exact H|].
  pose proof (pow2_pos (- e) ltac:(lia)) as Pe.
  assert (Hm : Zpos m <= N * 2 ^ (- e)).
  { apply (scaled_le_cancel _ _ e); [lia|].
    rewrite scaled_shift by lia.
    replace (e + - e) with (ec + - ec) by lia.
    rewrite <- scaled_shift, <- EN by lia. exact Hsc. }
  assert (Hlt : Zpos m / 2 ^ (- e) < N).
  { apply Z.div_lt_upper_bound; [lia|].
    destruct (Z.eq_dec (Zpos m) (N * 2 ^ (- e))) as [E|]; [|lia].
    exfalso. apply Hinexact. rewrite E at 2.
    rewrite Z.div_mul by lia. exact E. }
  assert (Hq : 0 <= Zpos m / 2 ^ (- e)) by (apply Z.div_pos; lia).
  destruct (Zpos m / 2 ^ (- e) + 1) as [|p|p] eqn:Ep; try lia.
  unfold of_Z. cbn [binary_normalize].
  apply binary_round_below; try lia.
  rewrite EN, scaled_shift by lia.
  replace (ec + - ec) with 0 by lia.
  apply scaled_le_mono; lia.
Qed.

(** [Math.ceil] reaches an integer [N] as soon as its argument exceeds
    [N - 1]. *)
Lemma Math_ceil_above_strict (x : number) (N mN eN mc ec : Z) :
  2 ^ 52 <= mN < 2 ^ 53 -> -52 <= eN <= 0 -> mN = N * 2 ^ (- eN) ->
  2 ^ 52 <= mc < 2 ^ 53 -> -1074 <= ec ->
  scaled (N - 1) 0 < scaled mc ec ->
  above false mc ec x -> above false mN eN (Math_ceil x).
Proof.
  intros HN HeN EN Hc Hec Hgt H.
  destruct x as [s | s | | s m e];
    try (destruct H as [H | (m' & e' & E & _)]; discriminate).
  - destruct H as [H | (m' & e' & E & _)]; [|discriminate].
    injection H as ->. left. reflexivity.
  - assert (s = false) as ->.
    { destruct H as [H | (m' & e' & E & _)]; [discriminate | congruence]. }
    destruct (above_scaled false mc ec m e ltac:(lia) Hc H) as (Hm & Hle & Hsc).
    assert (HsN : scaled mN eN = scaled N 0).
    { rewrite EN, scaled_shift by lia. f_equal. lia. }
    unfold Math_ceil.
    destruct (Z.leb_spec 0 e) as [Hpos|Hneg].
    + apply normal_above; try lia.
      rewrite HsN. rewrite <- (Z.add_0_l e), <- scaled_shift by lia.
      apply scaled_le_mono; [lia|].
      assert (N - 1 < Zpos m * 2 ^ e); [|lia].
      apply (scaled_lt_cancel _ _ 0); [lia|].
      rewrite scaled_shift by lia. rewrite Z.add_0_l. lia.
    + rewrite Z.shiftr_div_pow2, Z.shiftl_mul_pow2 by lia.
      pose proof (pow2_pos (- e) ltac:(lia)) as Pe.
      assert (Hm1 : (N - 1) * 2 ^ (- e) < Zpos m).
      { apply (scaled_lt_cancel _ _ e); [lia|].
        rewrite scaled_shift by lia.
        replace (e + - e) with 0 by lia. lia. }
      assert (Hq : N - 1 <= Zpos m / 2 ^ (- e)).
      { apply Z.div_le_lower_bound; lia. }
      destruct (Z.eqb_spec (Zpos m) (Zpos m / 2 ^ (- e) * 2 ^ (- e)))
        as [Hexact|Hinexact].
      * apply normal_above; try lia.
        rewrite HsN.
        assert (E : scaled (Zpos m) e = scaled (Zpos m / 2 ^ (- e)) 0).
        { rewrite Hexact at 1. rewrite scaled_shift by lia.
          f_equal. lia. }
        rewrite E. apply scaled_le_mono; [lia|].
        assert (Zpos m / 2 ^ (- e) <> N - 1); [|lia].
        intro E1. rewrite E1 in Hexact. lia.
      * assert (HNpos : 0 < N).
        { destruct (Z_lt_le_dec 0 N) as [|HN0]; [assumption|]. exfalso.
          assert (N * 2 ^ (- eN) <= 0).
          { apply Z.mul_nonpos_nonneg; [lia|].
            apply Z.lt_le_incl, pow2_pos; lia. }
          lia. }
        destruct (Zpos m / 2 ^ (- e) + 1) as [|p|p] eqn:Ep; try lia.
        unfold of_Z. cbn [binary_normalize].
        apply binary_round_above; try lia.
        rewrite HsN. apply scaled_le_mono; lia.
Qed.

Lemma below_lt (mc ec : Z) (pc' : positive) (ec' : Z) (x : number) :
  below mc ec x -> ec <= ec' -> (ec = ec' -> mc < Zpos pc') ->
  lt x (S754_finite false pc' ec') = true.
Proof.
  intros [-> | (m & e & -> & _ & _ & Hlex)] He Hm; [reflexivity|].
  unfold lt, SFltb, SFcompare.
  destruct (Z.compare_spec e ec') as [-> | Hlt | Hgt]; [|reflexivity|lia].
  rewrite Pos.compare_cont_spec. cbn [Pos.switch_Eq].
  destruct (Pos.compare_spec m pc'); [lia | reflexivity | lia].
Qed.

End UpperFacts.

(** * The maturity tiers in milliseconds *)

Module TierFacts.
Import JS Rounding FloatFacts EngineFacts UpperFacts RiskCore.

(** Side conditions on constants are settled by evaluation. *)
Ltac by_eval :=
  match goal with
  | |- _ <= _ < _ => split; by_eval
  | |- _ <= _ <= _ => split; by_eval
  | |- _ <= _ => apply Z.leb_le; vm_compute; reflexivity
  | |- _ < _ => apply Z.ltb_lt; vm_compute; reflexivity
  | |- _ = _ => vm_compute; reflexivity
  end.

Lemma days_now (t : Z) :
  valid_time t -> lt (_daysUntilDate t (Some t)) (of_Z 1) = true.
Proof.
  intro Ht. unfold _daysUntilDate, time_value. cbv zeta. rewrite ms_per_day.
  assert (E : sub (of_Z t) (of_Z t) = S754_zero false).
  { destruct (of_Z_cases t (valid_time_53 t Ht))
      as [[-> ->] | [_ (m & e & -> & _)]]; [reflexivity | apply sub_self]. }
  rewrite E. reflexivity.
Qed.

(** From [D1] milliseconds ahead on, the day count reaches [N]. *)
Lemma days_lower (now t D1 mD eD mc ec N mN eN : Z) :
  valid_time now -> valid_time t -> now + D1 <= t ->
  2 ^ 52 <= mD < 2 ^ 53 -> -52 <= eD <= 0 -> mD = D1 * 2 ^ (- eD) ->
  2 ^ 52 <= mc < 2 ^ 53 -> -1074 <= ec ->
  scaled (mc * 5798205849600000) (ec + -26) <= scaled mD eD ->
  2 ^ 52 <= mN < 2 ^ 53 -> -52 <= eN <= 0 -> mN = N * 2 ^ (- eN) ->
  scaled (N - 1) 0 < scaled mc ec ->
  above false mN eN (_daysUntilDate now (Some t)).
Proof.
  intros Hn Ht Hge HmD HeD ED Hmc Hec Hcy HmN HeN EN Hgt.
  unfold _daysUntilDate, time_value. cbv zeta. rewrite ms_per_day.
  apply (Math_ceil_above_strict _ N mN eN mc ec); try assumption.
  assert (Hsub : above false mD eD (sub (of_Z t) (of_Z now))).
  { apply sub_of_Z_above; auto using valid_time_53; try lia.
    rewrite ED, scaled_shift by lia. replace (eD + - eD) with 0 by lia.
    apply scaled_le_mono; lia. }
  destruct (sub (of_Z t) (of_Z now)) as [s | s | | s m e] eqn:E;
    try (destruct Hsub as [H | (m' & e' & H & _)]; discriminate).
  - destruct Hsub as [H | (m' & e' & H & _)]; [|discriminate].
    injection H as ->. left. reflexivity.
  - assert (s = false) as ->.
    { destruct Hsub as [H | (m' & e' & H & _)]; [discriminate | congruence]. }
    destruct (above_scaled false mD eD m e ltac:(lia) HmD Hsub)
      as (Hm & He & Hsc).
    apply div_above; lia.
Qed.

(** Up to [D] milliseconds ahead, the day count stays at most [N]. *)
Lemma days_upper (now t D mD eD mc ec N : Z) :
  valid_time now -> valid_time t -> now < t -> t <= now + D ->
  2 ^ 52 <= mD < 2 ^ 53 -> -52 <= eD <= 0 -> mD = D * 2 ^ (- eD) ->
  2 ^ 52 <= mc < 2 ^ 53 -> -52 <= ec <= 0 -> mc = N * 2 ^ (- ec) ->
  scaled mD eD <= scaled (mc * 5798205849600000) (ec + -26) ->
  below mc ec (_daysUntilDate now (Some t)).
Proof.
  intros Hn Ht Hlt Hle HmD HeD ED Hmc Hec EN Hcy.
  unfold _daysUntilDate, time_value. cbv zeta. rewrite ms_per_day.
  apply (Math_ceil_below _ N); try assumption.
  assert (Hlo : above false (2 ^ 52) (-52) (sub (of_Z t) (of_Z now))).
  { apply sub_of_Z_above; auto using valid_time_53; try lia.
    change (2 ^ 52) with (1 * 2 ^ 52).
    rewrite scaled_shift by lia. apply scaled_le_mono; lia. }
  assert (Hhi : below mD eD (sub (of_Z t) (of_Z now))).
  { apply sub_of_Z_below; auto using valid_time_53; try lia.
    rewrite ED, scaled_shift by lia. replace (eD + - eD) with 0 by lia.
    apply scaled_le_mono; lia. }
  destruct (sub (of_Z t) (of_Z now)) as [s | s | | s m e] eqn:E;
    try (destruct Hlo as [H | (m' & e' & H & _)]; discriminate).
  - destruct Hhi as [H | (m' & e' & H & _)]; discriminate.
  - assert (s = false) as ->.
    { destruct Hlo as [H | (m' & e' & H & _)]; [discriminate | congruence]. }
    destruct (above_scaled false (2 ^ 52) (-52) m e ltac:(lia) ltac:(lia) Hlo)
      as (Hm & He & _).
    pose proof (below_scaled mD eD m e ltac:(lia) HmD Hhi) as Hsc.
    assert (He2 : e <= eD).
    { destruct Hhi as [H | (m' & e' & H & _ & _ & Hlex)]; [discriminate|].
      injection H as -> ->. lia. }
    apply div_below; lia.
Qed.

Lemma of_Z_small :
  of_Z 1 = S754_finite false 4503599627370496 (-52) /\
  of_Z 3 = S754_finite false 6755399441055744 (-51) /\
  of_Z 7 = S754_finite false 7881299347898368 (-50).
Proof. repeat split; vm_compute; reflexivity. Qed.

(** The four tiers of the maturity penalty, by the distance to the
    maturity date. *)
Lemma maturity_penalty_tiers (now t : Z) :
  valid_time now -> valid_time t ->
  maturity_penalty (_daysUntilDate now (Some t)) =
  if t <=? now then 30
  else if t <=? now + 2 * 86400000 then 20
  else if t <=? now + 6 * 86400000 then 10
  else 0.
Proof.
  intros Hn Ht. unfold maturity_penalty.
  destruct (Z.leb_spec t now) as [Hpast | Hfut].
  - (* not in the future *)
    destruct (Z.eq_dec t now) as [-> | Hne].
    + rewrite (days_now now Hn). reflexivity.
    + rewrite (days_past now t Hn Ht ltac:(lia)). reflexivity.
  - (* at least one day is counted *)
    assert (A1 : above false 4503599627370496 (-52)
                   (_daysUntilDate now (Some t))).
    { apply (days_lower now t 1 4503599627370496 (-52)
               4503599627370496 (-79) 1); try assumption; try lia; by_eval. }
    destruct of_Z_small as (E1 & E3 & E7). rewrite E1, E3, E7.
    rewrite (above_not_lt 4503599627370496 (-52) _ A1).
    destruct (Z.leb_spec t (now + 2 * 86400000)) as [H2 | H2].
    + assert (B : below 4503599627370496 (-51) (_daysUntilDate now (Some t))).
      { apply (days_upper now t 172800000 5798205849600000 (-25)
                 4503599627370496 (-51) 2); try assumption; try lia; by_eval. }
      rewrite (below_lt _ _ 6755399441055744 (-51) _ B) by lia. reflexivity.
    + assert (A3 : above false 6755399441055744 (-51)
                     (_daysUntilDate now (Some t))).
      { apply (days_lower now t 172800001 5798205883154432 (-25)
                 4503599627370497 (-51) 3); try assumption; try lia; by_eval. }
      rewrite (above_not_lt 6755399441055744 (-51) _ A3).
      destruct (Z.leb_spec t (now + 6 * 86400000)) as [H6 | H6].
      * assert (B : below 6755399441055744 (-50)
                      (_daysUntilDate now (Some t))).
        { apply (days_upper now t 518400000 8697308774400000 (-24)
                   6755399441055744 (-50) 6); try assumption; try lia;
            by_eval. }
        rewrite (below_lt _ _ 7881299347898368 (-50) _ B) by lia.
        reflexivity.
      * assert (A7 : above false 7881299347898368 (-50)
                       (_daysUntilDate now (Some t))).
        { apply (days_lower now t 518400001 8697308791177216 (-24)
                   6755399441055745 (-50) 7); try assumption; try lia;
            by_eval. }
        rewrite (above_not_lt 7881299347898368 (-50) _ A7). reflexivity.
Qed.

End TierFacts.

Import TierFacts.

(** X16.  The temporal tiers of Pendle in milliseconds, for every pair of
    dates: 30 points when the maturity date is not after the current
    time, 20 up to two days ahead, 10 up to six days ahead, nothing from
    six days and one millisecond on.  The score is 100 minus the tier
    minus the liveness tier. *)
Theorem pendle_maturity_tiers :
  forall (now t : Z) (pd : ProtocolData),
    valid_time now -> valid_time t ->
    protocol pd = "Pendle" -> maturityDate pd = Some t ->
    maturity_penalty (_daysUntilDate now (maturityDate pd)) =
      (if t <=? now then 30
       else if t <=? now + 2 * 86400000 then 20
       else if t <=? now + 6 * 86400000 then 10
       else 0) /\
    calculatePulseScore now (Some pd) =
      100 - (if t <=? now then 30
             else if t <=? now + 2 * 86400000 then 20
             else if t <=? now + 6 * 86400000 then 10
             else 0)
          - liveness_penalty (confidence pd).
Proof.
  intros now t pd Hn Ht Hp Hd.
  pose proof (maturity_penalty_tiers now t Hn Ht) as H.
  rewrite Hd. split; [exact H|].
  rewrite (score_pendle_penalty now pd Hp), Hd, H. unfold clamp.
  pose proof (liveness_penalty_range (confidence pd)).
  destruct (t <=? now); [lia|].
  destruct (t <=? now + 2 * 86400000); [lia|].
  destruct (t <=? now + 6 * 86400000); lia.
Qed.

Lemma pendle_maturity_tiers_witness :
  valid_time 1700000000000 /\ valid_time 1700518400001 /\
  maturity_penalty
    (_daysUntilDate 1700000000000
       (maturityDate (fetchPendleAPY_result (Some 1700518400001) None))) =
    (if 1700518400001 <=? 1700000000000 then 30
     else if 1700518400001 <=? 1700000000000 + 2 * 86400000 then 20
     else if 1700518400001 <=? 1700000000000 + 6 * 86400000 then 10
     else 0) /\
  calculatePulseScore 1700000000000
    (Some (fetchPendleAPY_result (Some 1700518400001) None)) =
    100 - (if 1700518400001 <=? 1700000000000 then 30
           else if 1700518400001 <=? 1700000000000 + 2 * 86400000 then 20
           else if 1700518400001 <=? 1700000000000 + 6 * 86400000 then 10
           else 0)
        - liveness_penalty
            (confidence (fetchPendleAPY_result (Some 1700518400001) None)).
Proof.
  assert (Hn : valid_time 1700000000000) by (unfold valid_time; simpl; lia).
  assert (Ht : valid_time 1700518400001) by (unfold valid_time; simpl; lia).
  split; [exact Hn|]. split; [exact Ht|].
  exact (pendle_maturity_tiers 1700000000000 1700518400001
           (fetchPendleAPY_result (Some 1700518400001) None)
           Hn Ht eq_refl eq_refl).
Defined.

(** * The texts of the export *)

Module CsvFacts.
Import JS RiskCore AuditManager Measures ExtraFacts.

Lemma plain_app (a b : string) : plain (a ++ b) = plain a && plain b.
Proof.
  induction a as [|c a IH]; [reflexivity|].
  cbn [append plain]. rewrite IH. rewrite andb_assoc. reflexivity.
Qed.

Lemma plain_substring (s : string) (n m : nat) :
  plain s = true -> plain (substring n m s) = true.
Proof.
  revert n m. induction s as [|c s IH]; intros n m H.
  - destruct n, m; reflexivity.
  - cbn [plain] in H. apply andb_prop in H. destruct H as [Hc Hs].
    destruct n as [|n].
    + destruct m as [|m]; [reflexivity|].
      cbn [substring plain]. rewrite Hc. apply IH. exact Hs.
    + cbn [substring]. apply IH. exact Hs.
Qed.

Lemma plain_uint (d : Decimal.uint) :
  plain (NilEmpty.string_of_uint d) = true.
Proof.
  induction d; cbn [NilEmpty.string_of_uint plain]; try reflexivity;
    rewrite IHd; reflexivity.
Qed.

Lemma plain_digits (n : Z) : plain (digits n) = true.
Proof.
  unfold digits, NilZero.string_of_int, NilZero.string_of_uint.
  destruct (Z.to_int n) as [d|d]; destruct d; try reflexivity;
    try apply (plain_uint (Decimal.D0 _));
    try apply (plain_uint (Decimal.D1 _));
    try apply (plain_uint (Decimal.D2 _));
    try apply (plain_uint (Decimal.D3 _));
    try apply (plain_uint (Decimal.D4 _));
    try apply (plain_uint (Decimal.D5 _));
    try apply (plain_uint (Decimal.D6 _));
    try apply (plain_uint (Decimal.D7 _));
    try apply (plain_uint (Decimal.D8 _));
    try apply (plain_uint (Decimal.D9 _));
    cbn [plain]; rewrite plain_uint; reflexivity.
Qed.

Lemma plain_zeros (k : nat) : plain (zeros k) = true.
Proof. induction k as [|k IH]; [reflexivity|]. cbn [zeros plain]. exact IH. Qed.

Lemma plain_fixed_point (f : nat) (n : Z) : plain (fixed_point f n) = true.
Proof.
  unfold fixed_point. destruct f as [|f]; [apply plain_digits|].
  cbv zeta.
  set (m := if Nat.leb _ _ then _ else _).
  assert (Hm : plain m = true).
  { unfold m. destruct (Nat.leb _ _); [|apply plain_digits].
    rewrite plain_app, plain_zeros, plain_digits. reflexivity. }
  rewrite !plain_app, !plain_substring by exact Hm. reflexivity.
Qed.

Lemma plain_toString_large (m : positive) (e : Z) :
  plain (toString_large m e) = true.
Proof.
  unfold toString_large. cbv zeta.
  destruct (shortest _ _ _ _ _) as [s n].
  rewrite !plain_app, plain_digits.
  pose proof (plain_digits s) as Hs.
  destruct (digits s) as [|c [|c' rest]]; try reflexivity.
  - cbn [plain] in *. rewrite Hs. reflexivity.
  - cbn [plain append] in *.
    apply andb_prop in Hs. destruct Hs as [Hc Hr]. rewrite Hc, Hr.
    reflexivity.
Qed.

Lemma plain_toFixed (f : nat) (x : number) : plain (toFixed f x) = true.
Proof.
  unfold toFixed. destruct x as [s | s | | s m e].
  - apply plain_fixed_point.
  - destruct s; reflexivity.
  - reflexivity.
  - rewrite plain_app.
    destruct (SFleb _ _);
      rewrite ?plain_toString_large, ?plain_fixed_point;
      destruct s; reflexivity.
Qed.

Lemma plain_render (s : string) :
  plain s = true ->
  render_cell s = s /\ count_char comma s = O /\ count_char line_feed s = O.
Proof.
  intro H.
  assert (E : escape_quotes s = s /\ includes_comma s = false /\
              count_char comma s = O /\ count_char line_feed s = O).
  { induction s as [|c s IH]; [repeat split|].
    cbn [plain] in H.
    apply andb_prop in H. destruct H as [H Hs].
    apply andb_prop in H. destruct H as [H Hl].
    apply andb_prop in H. destruct H as [Hc Hq].
    apply negb_true_iff in Hc, Hq, Hl.
    destruct (IH Hs) as (E1 & E2 & E3 & E4).
    cbn [escape_quotes includes_comma count_char].
    rewrite Hc, Hq, Hl, E1, E2. repeat split; assumption. }
  destruct E as (E1 & E2 & E3 & E4).
  unfold render_cell. rewrite E1, E2. repeat split; assumption.
Qed.

Lemma count_concat_plain (c : ascii) (sep : string) (cells : list string) :
  (forall s, In s cells -> count_char c s = O) ->
  count_char c (String.concat sep cells) =
  (count_char c sep * (List.length cells - 1))%nat.
Proof.
  induction cells as [|x rest IH]; intro H; [cbn; lia|].
  rewrite concat_cons, count_char_app, (H x (or_introl eq_refl)).
  destruct rest as [|y rest]; [cbn; lia|].
  rewrite count_char_app, IH by (intros s Hs; apply H; right; exact Hs).
  cbn [List.length]. lia.
Qed.

End CsvFacts.

Import CsvFacts.

(** X17.  The numeric cells of the export never need quoting: the text
    that [toFixed] gives holds no comma, double quote or line feed, and so
    does the score cell.  A record whose timestamp, asset and protocol are
    free of these characters is therefore exported verbatim, on one line
    with exactly seven commas. *)
Theorem csv_row_fields :
  forall (this : Manager) (log : YieldLog) (f : nat) (x : number),
    plain (toFixed f x) = true /\
    render_cell (toFixed f x) = toFixed f x /\
    (plain (Timestamp log) = true -> plain (Asset log) = true ->
     plain (Protocol log) = true ->
     String.concat "," (map render_cell (log_row this log)) =
       String.concat "," (log_row this log) /\
     count_char comma (String.concat "," (map render_cell (log_row this log)))
       = 7%nat /\
     count_char line_feed
       (String.concat "," (map render_cell (log_row this log))) = O).
Proof.
  intros this log f x.
  split; [apply plain_toFixed|].
  split; [apply plain_render, plain_toFixed|].
  intros HT HA HP.
  assert (Hrow : forall s, In s (log_row this log) -> plain s = true).
  { unfold log_row. cbv zeta. intros s Hs. cbn [In] in Hs.
    destruct Hs as [<- | [<- | [<- | [<- | [<- | [<- | [<- | [<- | []]]]]]]]];
      try assumption; try apply plain_toFixed.
    destruct (RiskScore log) as [[|p|p]|]; try reflexivity; apply plain_digits. }
  assert (Hmap : map render_cell (log_row this log) = log_row this log).
  { induction (log_row this log) as [|s l IH]; [reflexivity|].
    cbn [map]. rewrite (proj1 (plain_render s (Hrow s (or_introl eq_refl)))).
    rewrite IH by (intros s' Hs'; apply Hrow; right; exact Hs').
    reflexivity. }
  rewrite Hmap. split; [reflexivity|]. split.
  - rewrite count_concat_plain
      by (intros s Hs; apply (plain_render s (Hrow s Hs))).
    reflexivity.
  - rewrite count_concat_plain
      by (intros s Hs; apply (plain_render s (Hrow s Hs))).
    reflexivity.
Qed.

Lemma csv_row_fields_witness :
  plain "2024-01-01T00:00:00Z" = true /\ plain "sUSDe" = true /\
  plain "Ethena" = true /\
  count_char comma
    (String.concat ","
       (map render_cell
          (log_row {| userLocation := "KE"; yieldLogs := [] |}
             {| Timestamp := "2024-01-01T00:00:00Z"; Asset := "sUSDe";
                Protocol := "Ethena"; RewardAmount := decimal 125 1;
                ExchangeRate := decimal 1295 1; RiskScore := Some 85;
                Currency := None |}))) = 7%nat.
Proof.
  split; [reflexivity|]. split; [reflexivity|]. split; [reflexivity|].
  exact (proj1 (proj2 (proj2 (proj2
           (csv_row_fields {| userLocation := "KE"; yieldLogs := [] |}
              {| Timestamp := "2024-01-01T00:00:00Z"; Asset := "sUSDe";
                 Protocol := "Ethena"; RewardAmount := decimal 125 1;
                 ExchangeRate := decimal 1295 1; RiskScore := Some 85;
                 Currency := None |} 2%nat (of_Z 0)))
           eq_refl eq_refl eq_refl))).
Defined.

(** * Facts on valid doubles *)

Module ValidFacts.
Import JS Rounding FloatFacts EngineFacts UpperFacts.

(** What the validity of a finite double says of its mantissa. *)
Lemma valid_finite (s : bool) (m : positive) (e : Z) :
  valid_binary prec emax (S754_finite s m e) = true ->
  -1074 <= e <= 971 /\ Zpos m < 2 ^ 53 /\
  fexp prec emax (Zpos (digits2_pos m) + e) = e /\
  (-1074 < e -> 2 ^ 52 <= Zpos m).
Proof.
  cbn [valid_binary]. unfold bounded, canonical_mantissa. intro H.
  apply andb_prop in H. destruct H as [Hc Hb].
  apply Z.eqb_eq in Hc. apply Z.leb_le in Hb.
  change (emax - prec) with 971 in Hb.
  destruct (digits2_pos_bounds m) as [Dlo Dhi].
  pose proof Hc as Hc'. rewrite fexp_unfold in Hc'.
  assert (Hd : Zpos (digits2_pos m) <= 53) by lia.
  repeat split; try lia; try assumption.
  - apply Z.lt_le_trans with (2 ^ Zpos (digits2_pos m)); [lia|].
    apply Z.pow_le_mono_r; lia.
  - intro He. assert (Zpos (digits2_pos m) = 53) as E by lia.
    rewrite E in Dlo. exact Dlo.
Qed.

(** Multiplying by 1 returns the number itself. *)
Lemma mul_one (x : number) :
  valid_binary prec emax x = true -> mul x (of_Z 1) = x.
Proof.
  intro Hv.
  replace (of_Z 1) with (S754_finite false 4503599627370496 (-52))
    by (vm_compute; reflexivity).
  destruct x as [s | s | | s m e]; unfold mul; cbn [SFmul];
    rewrite ?xorb_false_r; try reflexivity.
  destruct (valid_finite s m e Hv) as (He & Hm & Hc & _).
  assert (EM : Zpos (m * 4503599627370496) = Zpos m * 2 ^ 52)
    by (rewrite Pos2Z.inj_mul; reflexivity).
  pose proof (digits2_pos_shift m (m * 4503599627370496) 52 ltac:(lia) EM)
    as DM.
  rewrite binary_round_aux_unfold. cbv zeta.
  assert (K : Z.max 0 (fexp prec emax
                         (Zdigits2 (Zpos (m * 4503599627370496)) + (e + -52))
                       - (e + -52)) = 52).
  { cbn [Zdigits2]. rewrite DM.
    replace (Zpos (digits2_pos m) + 52 + (e + -52))
      with (Zpos (digits2_pos m) + e) by lia.
    rewrite Hc. lia. }
  destruct (shr_fexp_spec (Zpos (m * 4503599627370496)) (e + -52) loc_Exact
              ltac:(lia)) as [R1m R1e].
  rewrite K in R1m, R1e.
  assert (Q : Zpos (m * 4503599627370496) / 2 ^ 52 = Zpos m)
    by (rewrite EM, Z.div_mul; lia).
  rewrite Q in R1m.
  assert (L1 : loc_of_shr_record
                 (fst (shr_fexp prec emax (Zpos (m * 4503599627370496))
                         (e + -52) loc_Exact)) = loc_Exact).
  { apply shr_fexp_exact; [lia|]. rewrite K. exists (Zpos m). exact EM. }
  rewrite L1, R1m, R1e. cbn [round_nearest_even].
  replace (e + -52 + 52) with e by lia.
  destruct (shr_fexp_spec (Zpos m) e loc_Exact ltac:(lia)) as [R2m R2e].
  cbn [Zdigits2] in R2m, R2e. rewrite Hc in R2m, R2e.
  replace (Z.max 0 (e - e)) with 0 in R2m, R2e by lia.
  change (2 ^ 0) with 1 in R2m. rewrite Z.div_1_r in R2m.
  rewrite R2m, R2e.
  replace (e + 0 <=? emax - prec) with true
    by (symmetry; apply Z.leb_le; change (emax - prec) with 971; lia).
  f_equal. lia.
Qed.

(** A rounding of a positive multiple of the smallest unit is not zero. *)
Lemma binary_round_nonzero (s : bool) (p : positive) (e : Z) :
  -1074 <= e ->
  binary_round prec emax s p e = S754_infinity s \/
  exists m e', binary_round prec emax s p e = S754_finite s m e'.
Proof.
  intro He. unfold binary_round.
  set (f := fexp prec emax (Zpos (digits2_pos p) + e)).
  assert (Hf : f = Z.max (Zpos (digits2_pos p) + e - 53) (-1074))
    by (unfold f; apply fexp_unfold).
  assert (G : forall (mz : positive) (ez : Z),
             -1074 <= ez ->
             ez <= fexp prec emax (Zpos (digits2_pos mz) + ez) ->
             binary_round_aux prec emax s (Zpos mz) ez loc_Exact
               = S754_infinity s \/
             exists m e', binary_round_aux prec emax s (Zpos mz) ez loc_Exact
                          = S754_finite s m e').
  { intros mz ez Hez Hpre.
    destruct (digits2_pos_bounds mz) as [Dlo Dhi].
    set (d := Zpos (digits2_pos mz)) in *.
    rewrite fexp_unfold in Hpre.
    rewrite binary_round_aux_unfold. cbv zeta.
    destruct (shr_fexp_spec (Zpos mz) ez loc_Exact ltac:(lia)) as [R1m R1e].
    cbn [Zdigits2] in R1m, R1e. fold d in R1m, R1e.
    rewrite fexp_unfold in R1m, R1e.
    set (k1 := Z.max 0 (Z.max (d + ez - 53) (-1074) - ez)) in *.
    assert (M1 : 1 <= Zpos mz / 2 ^ k1).
    { apply Z.div_le_lower_bound; [apply pow2_pos; unfold k1; lia|].
      rewrite Z.mul_1_r.
      apply Z.le_trans with (2 ^ (d - 1)); [|lia].
      apply Z.pow_le_mono_r; unfold k1; lia. }
    set (r1 := shr_fexp prec emax (Zpos mz) ez loc_Exact) in *.
    pose proof (round_nearest_even_bounds (shr_m (fst r1))
                  (loc_of_shr_record (fst r1))) as B2.
    set (m2 := round_nearest_even (shr_m (fst r1))
                 (loc_of_shr_record (fst r1))) in *.
    rewrite R1m in B2.
    destruct (shr_fexp_spec m2 (snd r1) loc_Exact ltac:(lia)) as [R2m _].
    rewrite R1e, fexp_unfold in R2m. rewrite R1e.
    destruct m2 as [|p2|p2] eqn:Em2; try lia.
    cbn [Zdigits2] in R2m.
    destruct (digits2_pos_bounds p2) as [D2lo D2hi].
    set (d2 := Zpos (digits2_pos p2)) in *.
    set (k2 := Z.max 0 (Z.max (d2 + (ez + k1) - 53) (-1074) - (ez + k1))) in *.
    assert (M3 : 1 <= Zpos p2 / 2 ^ k2).
    { apply Z.div_le_lower_bound; [apply pow2_pos; unfold k2; lia|].
      rewrite Z.mul_1_r.
      apply Z.le_trans with (2 ^ (d2 - 1)); [|lia].
      apply Z.pow_le_mono_r; unfold k2, k1, d2; lia. }
    rewrite <- R2m in M3.
    destruct (shr_m (fst (shr_fexp prec emax (Zpos p2) (ez + k1) loc_Exact)))
      as [|p3|p3]; try lia.
    destruct (_ <=? _); [right; eauto | left; reflexivity]. }
  destruct (Z_lt_le_dec f e) as [Hlt | Hge].
  - pose proof (shl_align_fst p e f ltac:(lia)) as Em.
    pose proof (shl_align_snd p e f) as Ee.
    destruct (shl_align p e f) as [mz ez]. cbn [fst snd] in Em, Ee.
    assert (Ez : ez = f) by lia. clear Ee. subst ez.
    pose proof (digits2_pos_shift p mz (e - f) ltac:(lia) Em) as Dz.
    apply G; [lia|]. rewrite Dz, fexp_unfold. lia.
  - rewrite shl_align_ge by assumption. apply G; [lia|]. fold f. exact Hge.
Qed.

(** The sign of a difference of valid doubles is the order of the two:
    [x - y > 0] says the same as [x > y]. *)
Lemma sub_positive_iff (x y : number) :
  valid_binary prec emax x = true -> valid_binary prec emax y = true ->
  gt (sub x y) (of_Z 0) = gt x y.
Proof.
  intros Hx Hy. change (of_Z 0) with (S754_zero false).
  destruct x as [sx | sx | | sx mx ex], y as [sy | sy | | sy my ey];
    try (destruct sx); try (destruct sy); try reflexivity.
  all: destruct (valid_finite _ mx ex Hx) as (Hex & Hmx & _ & Hnx).
  all: destruct (valid_finite _ my ey Hy) as (Hey & Hmy & _ & Hny).
  all: set (ez := Z.min ex ey).
  all: pose proof (shl_align_fst mx ex ez ltac:(unfold ez; lia)) as Ax.
  all: pose proof (shl_align_fst my ey ez ltac:(unfold ez; lia)) as Ay.
  all: assert (Px : 0 < Zpos mx * 2 ^ (ex - ez))
         by (apply Z.mul_pos_pos; [lia | apply pow2_pos; unfold ez; lia]).
  all: assert (Py : 0 < Zpos my * 2 ^ (ey - ez))
         by (apply Z.mul_pos_pos; [lia | apply pow2_pos; unfold ez; lia]).
  all: assert (Ord : (ex < ey ->
                      Zpos mx * 2 ^ (ex - ez) < Zpos my * 2 ^ (ey - ez)) /\
                     (ey < ex ->
                      Zpos my * 2 ^ (ey - ez) < Zpos mx * 2 ^ (ex - ez)) /\
                     (ex = ey ->
                      Zpos mx * 2 ^ (ex - ez) = Zpos mx /\
                      Zpos my * 2 ^ (ey - ez) = Zpos my)).
  all: try (split; [|split]; intro Hc;
            [ replace (ex - ez) with 0 by (unfold ez; lia);
              change (2 ^ 0) with 1;
              assert (2 ^ 1 <= 2 ^ (ey - ez))
                by (apply Z.pow_le_mono_r; unfold ez; lia);
              change (2 ^ 1) with 2 in *; specialize (Hny ltac:(lia)); nia
            | replace (ey - ez) with 0 by (unfold ez; lia);
              change (2 ^ 0) with 1;
              assert (2 ^ 1 <= 2 ^ (ex - ez))
                by (apply Z.pow_le_mono_r; unfold ez; lia);
              change (2 ^ 1) with 2 in *; specialize (Hnx ltac:(lia)); nia
            | replace (ex - ez) with 0 by (unfold ez; lia);
              replace (ey - ez) with 0 by (unfold ez; lia);
              change (2 ^ 0) with 1; lia ]).
  all: destruct Ord as (O1 & O2 & O3).
  all: unfold sub, SFsub; fold ez; rewrite Ax, Ay; cbn [cond_Zopp];
       set (vx := Zpos mx * 2 ^ (ex - ez)) in *;
       set (vy := Zpos my * 2 ^ (ey - ez)) in *;
       unfold gt, SFltb; cbn [SFcompare];
       rewrite ?Pos.compare_cont_spec; cbn [Pos.switch_Eq].
  - (* both negative *)
    destruct (Z.compare_spec ey ex) as [E | E | E].
    + destruct (O3 (eq_sym E)) as [Ex Ey].
      destruct (Pos.compare_spec my mx) as [E' | E' | E']; cbn [CompOpp].
      * replace (- vx - - vy) with 0 by lia. reflexivity.
      * destruct (- vx - - vy) as [|p|p] eqn:EM; try lia.
        cbn [binary_normalize].
        destruct (binary_round_signed true p ez)
          as [-> | [-> | (m' & e' & ->)]]; reflexivity.
      * destruct (- vx - - vy) as [|p|p] eqn:EM; try lia.
        cbn [binary_normalize].
        destruct (binary_round_nonzero false p ez ltac:(unfold ez; lia))
          as [-> | (m' & e' & ->)]; reflexivity.
    + specialize (O2 E).
      destruct (- vx - - vy) as [|p|p] eqn:EM; try lia.
      cbn [binary_normalize].
      destruct (binary_round_signed true p ez)
        as [-> | [-> | (m' & e' & ->)]]; reflexivity.
    + specialize (O1 E).
      destruct (- vx - - vy) as [|p|p] eqn:EM; try lia.
      cbn [binary_normalize].
      destruct (binary_round_nonzero false p ez ltac:(unfold ez; lia))
        as [-> | (m' & e' & ->)]; reflexivity.
  - (* x negative, y positive *)
    destruct (- vx - vy) as [|p|p] eqn:EM; try lia.
    cbn [binary_normalize].
    destruct (binary_round_signed true p ez)
      as [-> | [-> | (m' & e' & ->)]]; reflexivity.
  - (* x positive, y negative *)
    destruct (vx - - vy) as [|p|p] eqn:EM; try lia.
    cbn [binary_normalize].
    destruct (binary_round_nonzero false p ez ltac:(unfold ez; lia))
      as [-> | (m' & e' & ->)]; reflexivity.
  - (* both positive *)
    destruct (Z.compare_spec ey ex) as [E | E | E].
    + destruct (O3 (eq_sym E)) as [Ex Ey].
      destruct (Pos.compare_spec my mx) as [E' | E' | E'].
      * replace (vx - vy) with 0 by lia. reflexivity.
      * destruct (vx - vy) as [|p|p] eqn:EM; try lia.
        cbn [binary_normalize].
        destruct (binary_round_nonzero false p ez ltac:(unfold ez; lia))
          as [-> | (m' & e' & ->)]; reflexivity.
      * destruct (vx - vy) as [|p|p] eqn:EM; try lia.
        cbn [binary_normalize].
        destruct (binary_round_signed true p ez)
          as [-> | [-> | (m' & e' & ->)]]; reflexivity.
    + specialize (O2 E).
      destruct (vx - vy) as [|p|p] eqn:EM; try lia.
      cbn [binary_normalize].
      destruct (binary_round_nonzero false p ez ltac:(unfold ez; lia))
        as [-> | (m' & e' & ->)]; reflexivity.
    + specialize (O1 E).
      destruct (vx - vy) as [|p|p] eqn:EM; try lia.
      cbn [binary_normalize].
      destruct (binary_round_signed true p ez)
        as [-> | [-> | (m' & e' & ->)]]; reflexivity.
Qed.

End ValidFacts.
(** * The comparison and the exchange rate on arbitrary numbers *)

(** X18. The headline recommendation compares the two final values
    themselves: the difference of two numbers is positive exactly when the
    first is the greater, so [WAIT] is returned exactly when the redemption
    path is worth more than the market path. *)
Theorem recommendation_compares_values :
  forall (this : ExitOptimizer.Engine) (r : ExitOptimizer.RedemptionPath)
         (m : ExitOptimizer.MarketPath),
    valid_binary JS.prec JS.emax (ExitOptimizer.r_finalValue r) = true ->
    valid_binary JS.prec JS.emax (ExitOptimizer.m_finalValue m) = true ->
    ExitOptimizer.recommendation (ExitOptimizer.calculateLiquidityGain this r m)
    = if JS.gt (ExitOptimizer.r_finalValue r) (ExitOptimizer.m_finalValue m)
      then ExitOptimizer.WAIT else ExitOptimizer.EXIT_NOW.
Proof.
  intros this r m Hr Hm.
  unfold ExitOptimizer.calculateLiquidityGain.
  cbn [ExitOptimizer.recommendation].
  rewrite ValidFacts.sub_positive_iff by assumption. reflexivity.
Qed.

Lemma recommendation_compares_values_witness :
  ExitOptimizer.recommendation
    (snd (ExitOptimizer.reference_exit None None))
  = ExitOptimizer.WAIT.
Proof.
  exact (recommendation_compares_values ExitOptimizer.default_engine
           (fst (fst (ExitOptimizer.reference_exit None None)))
           (snd (fst (ExitOptimizer.reference_exit None None)))
           eq_refl eq_refl).
Defined.

(** X19. A record without a usable exchange rate (absent, zero or not a
    number) is valued at the rate 1: its local value is the crypto amount
    itself, in the cost basis and in the CSV row, and the rate cell reads
    1.0000. *)
Theorem missing_exchange_rate :
  forall (this : AuditManager.Manager) (log : AuditManager.YieldLog),
    JS.truthy (AuditManager.ExchangeRate log) = false ->
    valid_binary JS.prec JS.emax (AuditManager.RewardAmount log) = true ->
    AuditManager.costBasisLocal
      (AuditManager.calculateCostBasis this log)
    = AuditManager.RewardAmount log /\
    AuditManager.acquisitionRate
      (AuditManager.calculateCostBasis this log) = JS.of_Z 1 /\
    nth 4 (AuditManager.log_row this log) EmptyString
    = JS.toFixed 2 (AuditManager.RewardAmount log) /\
    nth 5 (AuditManager.log_row this log) EmptyString = "1.0000"%string /\
    nth 6 (AuditManager.log_row this log) EmptyString
    = JS.toFixed 2
        (AuditManager.calculateTaxLiability this
           (AuditManager.RewardAmount log)).
Proof.
  intros this log Hr Hv.
  unfold AuditManager.calculateCostBasis, AuditManager.log_row.
  cbn [AuditManager.costBasisLocal AuditManager.acquisitionRate nth].
  unfold JS.or_default. rewrite Hr.
  rewrite (ValidFacts.mul_one _ Hv).
  repeat split; vm_compute; reflexivity.
Qed.

Lemma missing_exchange_rate_witness :
  AuditManager.costBasisLocal
    (AuditManager.calculateCostBasis
       {| AuditManager.userLocation := "KE";
          AuditManager.yieldLogs := [] |}
       {| AuditManager.Timestamp := "2025-01-15";
          AuditManager.Asset := "PT-sUSDe";
          AuditManager.Protocol := "Pendle";
          AuditManager.RewardAmount := JS.decimal 125 1;
          AuditManager.ExchangeRate := JS.NaN;
          AuditManager.RiskScore := None;
          AuditManager.Currency := None |})
  = JS.decimal 125 1.
Proof.
  exact (proj1 (missing_exchange_rate
    {| AuditManager.userLocation := "KE"; AuditManager.yieldLogs := [] |}
    {| AuditManager.Timestamp := "2025-01-15";
       AuditManager.Asset := "PT-sUSDe";
       AuditManager.Protocol := "Pendle";
       AuditManager.RewardAmount := JS.decimal 125 1;
       AuditManager.ExchangeRate := JS.NaN;
       AuditManager.RiskScore := None;
       AuditManager.Currency := None |}
    eq_refl eq_refl)).
Defined.
(** * The global average *)

Module AverageFacts.
Import JS Rounding FloatFacts EngineFacts UpperFacts RiskCore Measures.
Import ExtraFacts.

(** A result bounded from both sides by the same normal double is that
    double. *)
Lemma above_below_eq (mc : positive) (ec : Z) (x : number) :
  above false (Zpos mc) ec x -> below (Zpos mc) ec x ->
  x = S754_finite false mc ec.
Proof.
  intros [-> | (m & e & -> & Hm & Hlo)] [H | (m' & e' & E & _ & _ & Hhi)];
    try discriminate.
  injection E as <- <-.
  assert (e = ec) as -> by lia.
  assert (Zpos m = Zpos mc) as E by lia.
  injection E as ->. reflexivity.
Qed.

(** The sum of two positive integers of at most 53 bits is the rounding
    of their exact sum. *)
Lemma add_of_Z (a b : Z) :
  0 < a < 2 ^ 53 -> 0 < b < 2 ^ 53 ->
  exists ez p, -52 <= ez <= 0 /\ Zpos p = (a + b) * 2 ^ (- ez) /\
    add (of_Z a) (of_Z b) = binary_round prec emax false p ez.
Proof.
  intros Ha Hb.
  destruct (of_Z_cases a ltac:(lia))
    as [[-> _] | [_ (mx & ex & Ea & Hex & Emx & Hmx)]]; [lia|].
  destruct (of_Z_cases b ltac:(lia))
    as [[-> _] | [_ (my & ey & Eb & Hey & Emy & Hmy)]]; [lia|].
  rewrite Ea, Eb.
  replace (a <? 0) with false by (symmetry; apply Z.ltb_ge; lia).
  replace (b <? 0) with false by (symmetry; apply Z.ltb_ge; lia).
  rewrite Z.abs_eq in Emx, Emy by lia.
  set (ez := Z.min ex ey).
  set (K := 2 ^ (- ez)).
  assert (HK : 0 < K) by (apply pow2_pos; unfold ez; lia).
  assert (Ax : Zpos (fst (shl_align mx ex ez)) = a * K).
  { rewrite shl_align_fst by (unfold ez; lia). rewrite Emx.
    rewrite <- Z.mul_assoc, <- pow2_split by (unfold ez; lia).
    replace (- ex + (ex - ez)) with (- ez) by lia. reflexivity. }
  assert (Ay : Zpos (fst (shl_align my ey ez)) = b * K).
  { rewrite shl_align_fst by (unfold ez; lia). rewrite Emy.
    rewrite <- Z.mul_assoc, <- pow2_split by (unfold ez; lia).
    replace (- ey + (ey - ez)) with (- ez) by lia. reflexivity. }
  assert (E : add (S754_finite false mx ex) (S754_finite false my ey)
              = binary_normalize prec emax ((a + b) * K) ez false).
  { unfold add, SFadd. fold ez. cbn [cond_Zopp]. rewrite Ax, Ay.
    f_equal. ring. }
  rewrite E. unfold binary_normalize.
  destruct ((a + b) * K) as [|p|p] eqn:EM.
  - exfalso. apply Z.mul_eq_0 in EM. lia.
  - exists ez, p. split; [unfold ez; lia|]. split; [|reflexivity].
    fold K. symmetry. exact EM.
  - exfalso. assert (0 < (a + b) * K) by (apply Z.mul_pos_pos; lia). lia.
Qed.

(** Integers are added without any rounding as long as the sum has at
    most 53 bits. *)
Lemma add_of_Z_exact (a b : Z) :
  0 <= a -> 0 <= b -> a + b < 2 ^ 53 ->
  add (of_Z a) (of_Z b) = of_Z (a + b).
Proof.
  intros Ha Hb Hs.
  destruct (Z.eq_dec a 0) as [-> | Ha0].
  { cbn [Z.add]. change (of_Z 0) with (S754_zero false).
    destruct (of_Z_cases b ltac:(lia))
      as [[-> ->] | [_ (m & e & -> & _)]]; reflexivity. }
  destruct (Z.eq_dec b 0) as [-> | Hb0].
  { rewrite Z.add_0_r. change (of_Z 0) with (S754_zero false).
    destruct (of_Z_cases a ltac:(lia))
      as [[-> ->] | [_ (m & e & -> & _)]]; reflexivity. }
  destruct (add_of_Z a b ltac:(lia) ltac:(lia)) as (ez & p & Hez & Ep & E).
  destruct (of_Z_cases (a + b) ltac:(lia))
    as [[H0 _] | [_ (m & e & Es & He & Em & Hm)]]; [lia|].
  rewrite Es, E.
  replace (a + b <? 0) with false by (symmetry; apply Z.ltb_ge; lia).
  rewrite Z.abs_eq in Em by lia.
  assert (Q : scaled (Zpos p) ez = scaled (Zpos m) e).
  { rewrite Ep, Em, !scaled_shift by lia. f_equal; lia. }
  apply above_below_eq.
  - apply binary_round_above; lia.
  - apply binary_round_below; lia.
Qed.

Lemma score_bounds (now : Z) (x : option ProtocolData) :
  0 <= calculatePulseScore now x <= 100 /\
  (x <> None -> 35 <= calculatePulseScore now x).
Proof.
  split.
  - destruct x as [pd|]; unfold calculatePulseScore; lia.
  - destruct x as [p|]; [intros _ | congruence].
    unfold calculatePulseScore.
    destruct (String.eqb_spec (protocol p) "Pendle") as [HP|HP];
    destruct (String.eqb_spec (protocol p) "Falcon") as [HF|HF];
    destruct (String.eqb_spec (protocol p) "Ethena") as [HE|HE];
      try congruence; cbv beta iota zeta;
      destruct (confidence p) as [c|];
      repeat match goal with
             | |- context [if ?b then _ else _] => destruct b
             end; lia.
Qed.

Lemma totalScore_bounds (now : Z) (values : list (option ProtocolData)) :
  0 <= totalScore now values <= 100 * Z.of_nat (List.length values) /\
  (Forall (fun x => x <> None) values ->
   35 * Z.of_nat (List.length values) <= totalScore now values).
Proof.
  induction values as [|v values [IH1 IH2]].
  - cbn. split; [lia | intros _; lia].
  - unfold totalScore in *. cbn [map fold_right List.length].
    destruct (score_bounds now v) as [B1 B2].
    split; [lia|]. intro F. inversion F as [|? ? Hv Hr]; subst.
    specialize (B2 Hv). specialize (IH2 Hr). lia.
Qed.

(** The exact sum of the scores. *)
Lemma sum_exact (now : Z) (values : list (option ProtocolData)) (acc : Z) :
  0 <= acc ->
  acc + 100 * Z.of_nat (List.length values) < 2 ^ 53 ->
  fold_left (fun a b => add a (of_Z (calculatePulseScore now b)))
            values (of_Z acc)
  = of_Z (acc + totalScore now values).
Proof.
  revert acc. induction values as [|v values IH]; intros acc Hacc Hlen.
  - cbn. f_equal. lia.
  - cbn [fold_left totalScore map fold_right List.length] in *.
    destruct (score_bounds now v) as [Hv _].
    rewrite add_of_Z_exact by lia.
    rewrite IH by lia. f_equal. unfold totalScore. cbn [map fold_right]. lia.
Qed.

(** Below one half, [Math.round] gives zero. *)
Lemma Math_round_zero (x : number) :
  below (2 ^ 53 - 1) (-54) x -> Math_round x = S754_zero false.
Proof.
  intros [-> | (m & e & -> & Hm & He & Hlex)]; [reflexivity|].
  assert (He' : e <= -54) by lia.
  unfold Math_round.
  replace (0 <=? e) with false by (symmetry; apply Z.leb_gt; lia).
  assert (HP : 2 ^ 54 <= 2 ^ (- e)) by (apply Z.pow_le_mono_r; lia).
  replace (2 ^ (1 - e)) with (2 * 2 ^ (- e))
    by (replace (1 - e) with (1 + - e) by lia;
        rewrite (pow2_split 1 (- e)) by lia; reflexivity).
  set (P := 2 ^ (- e)) in *. clearbody P.
  change (2 ^ 54) with 18014398509481984 in HP.
  change (2 ^ 53) with 9007199254740992 in Hm.
  rewrite Z.div_small; [reflexivity|]. lia.
Qed.

(** Between [k - 1/2] and [k + 1/2], the latter excluded, [Math.round]
    gives [k]. *)
Lemma Math_round_between (x : number) (k mlo elo mhi ehi : Z) :
  1 <= k ->
  2 ^ 52 <= mlo < 2 ^ 53 -> 2 ^ 52 <= mhi < 2 ^ 53 ->
  -1074 <= elo -> -1074 <= ehi < 0 ->
  above false mlo elo x -> below mhi ehi x ->
  scaled (2 * k - 1) (-1) <= scaled mlo elo ->
  scaled mhi ehi < scaled (2 * k + 1) (-1) ->
  Math_round x = of_Z k.
Proof.
  intros Hk Hlo Hhi Helo Hehi Ha Hb Slo Shi.
  destruct x as [s | s | | s m e];
    try (destruct Ha as [H | (m' & e' & H & _)]; discriminate);
    try (destruct Hb as [H | (m' & e' & H & _)]; discriminate).
  assert (s = false) as ->.
  { destruct Hb as [H | (m' & e' & H & _)]; [discriminate | congruence]. }
  destruct (above_scaled false mlo elo m e ltac:(lia) Hlo Ha)
    as (Hm & He & Sa).
  pose proof (below_scaled mhi ehi m e ltac:(lia) Hhi Hb) as Sb.
  assert (He2 : e <= ehi).
  { destruct Hb as [H | (m' & e' & H & _ & _ & Hlex)]; [discriminate|].
    injection H as -> ->. lia. }
  unfold Math_round.
  replace (0 <=? e) with false by (symmetry; apply Z.leb_gt; lia).
  assert (EPQ : 2 ^ (- e) * 2 ^ (e + 5000) = 2 * 2 ^ 4999).
  { rewrite <- pow2_split by lia. replace (- e + (e + 5000)) with 5000 by lia.
    change 5000 with (1 + 4999). rewrite (pow2_split 1 4999) by lia.
    reflexivity. }
  pose proof (pow2_pos (- e) ltac:(lia)) as HP.
  pose proof (pow2_pos (e + 5000) ltac:(lia)) as HQ.
  pose proof (pow2_pos 4999 ltac:(lia)) as HT.
  unfold scaled in Slo, Shi, Sa, Sb.
  replace (-1 + 5000) with 4999 in Slo, Shi by lia.
  replace (2 ^ (1 - e)) with (2 * 2 ^ (- e))
    by (replace (1 - e) with (1 + - e) by lia;
        rewrite (pow2_split 1 (- e)) by lia; reflexivity).
  set (P := 2 ^ (- e)) in *. set (Q := 2 ^ (e + 5000)) in *.
  set (T := 2 ^ 4999) in *.
  clearbody P Q T.
  assert (L : (2 * k - 1) * P <= 2 * Zpos m).
  { apply (proj2 (Z.mul_le_mono_pos_r _ _ Q HQ)).
    replace ((2 * k - 1) * P * Q) with ((2 * k - 1) * (P * Q)) by ring.
    rewrite EPQ. lia. }
  assert (U : 2 * Zpos m < (2 * k + 1) * P).
  { apply (proj2 (Z.mul_lt_mono_pos_r Q _ _ HQ)).
    replace ((2 * k + 1) * P * Q) with ((2 * k + 1) * (P * Q)) by ring.
    rewrite EPQ. lia. }
  assert (E : (2 * Zpos m + P) / (2 * P) = k).
  { symmetry. apply Z.div_unique with (2 * Zpos m + P - 2 * P * k); lia. }
  rewrite E. destruct k; try lia. reflexivity.
Qed.

(** The representation of an odd number of at least 3 is not the least
    normal mantissa. *)
Lemma odd_mantissa (k m e : Z) :
  1 <= k -> -52 <= e <= 0 -> m = (2 * k + 1) * 2 ^ (- e) -> m <> 2 ^ 52.
Proof.
  intros Hk He Em E. rewrite Em in E.
  replace 52 with ((52 + e) + - e) in E by lia.
  rewrite (pow2_split (52 + e) (- e)) in E by lia.
  apply Z.mul_cancel_r in E; [|pose proof (pow2_pos (- e)); lia].
  destruct (Z.eq_dec (52 + e) 0) as [Z0 | NZ].
  - rewrite Z0 in E. change (2 ^ 0) with 1 in E. lia.
  - replace (52 + e) with (1 + (51 + e)) in E by lia.
    rewrite (pow2_split 1 (51 + e)) in E by lia.
    change (2 ^ 1) with 2 in E. lia.
Qed.

(** The rounded quotient of the sum by the count is the exact mean,
    rounded to the nearest integer with ties upwards. *)
Lemma average_value (S n : Z) :
  0 <= S <= 100 * n -> 1 <= n <= 2 ^ 45 ->
  Math_round (div (of_Z S) (of_Z n)) = of_Z (roundedMean S n).
Proof.
  intros HS Hn. unfold roundedMean.
  assert (Hn53 : n < 2 ^ 53)
    by (apply Z.le_lt_trans with (2 ^ 45); [lia | reflexivity]).
  destruct (of_Z_cases n ltac:(lia))
    as [[-> _] | [_ (my & ey & En & Hey & Emy & Hmy)]]; [lia|].
  replace (n <? 0) with false in En by (symmetry; apply Z.ltb_ge; lia).
  rewrite Z.abs_eq in Emy by lia.
  set (k := (2 * S + n) / (2 * n)).
  assert (Hk : 2 * n * k <= 2 * S + n < 2 * n * (k + 1)).
  { pose proof (Z.div_mod (2 * S + n) (2 * n) ltac:(lia)) as D.
    pose proof (Z.mod_pos_bound (2 * S + n) (2 * n) ltac:(lia)) as M.
    fold k in D. lia. }
  assert (Hk0 : 0 <= k <= 100).
  { split.
    - apply Z.div_pos; lia.
    - assert (k < 101) by (apply Z.div_lt_upper_bound; lia). lia. }
  destruct (Z.eq_dec S 0) as [-> | HS0].
  { assert (k = 0) as -> by (unfold k; apply Z.div_small; lia).
    rewrite En. reflexivity. }
  assert (HS53 : S < 2 ^ 53).
  { apply Z.le_lt_trans with (100 * 2 ^ 45); [lia | reflexivity]. }
  destruct (of_Z_cases S ltac:(lia))
    as [[-> _] | [_ (mx & ex & ES & Hex & Emx & Hmx)]]; [lia|].
  replace (S <? 0) with false in ES by (symmetry; apply Z.ltb_ge; lia).
  rewrite Z.abs_eq in Emx by lia.
  rewrite ES, En.
  assert (Sx : scaled (Zpos mx) ex = scaled S 0).
  { rewrite Emx, scaled_shift by lia. f_equal. lia. }
  assert (Sy : forall a j, -4000 <= j ->
             scaled (a * Zpos my) (j + ey) = scaled (a * n) j).
  { intros a j Hj. rewrite Emy.
    replace (a * (n * 2 ^ (- ey))) with (a * n * 2 ^ (- ey)) by ring.
    rewrite scaled_shift by lia. f_equal. lia. }
  destruct (Z.eq_dec k 0) as [K0 | K0].
  - rewrite K0. change (of_Z 0) with (S754_zero false).
    apply Math_round_zero.
    apply div_below; try lia.
    rewrite Sx, Sy by lia. unfold scaled.
    change (0 + 5000) with (54 + 4946). change (-54 + 5000) with 4946.
    rewrite (pow2_split 54 4946) by lia.
    pose proof (pow2_pos 4946 ltac:(lia)) as HT.
    set (T := 2 ^ 4946) in *. clearbody T.
    replace (S * (2 ^ 54 * T)) with (S * 2 ^ 54 * T) by ring.
    apply Z.mul_le_mono_nonneg_r; [lia|].
    change (2 ^ 54) with (2 * 2 ^ 53).
    assert (n <= 2 ^ 53) by lia. set (V := 2 ^ 53) in *.
    assert (0 < V) by reflexivity. clearbody V. nia.
  - destruct (of_Z_cases (2 * k - 1) ltac:(lia))
      as [[H0 _] | [_ (m1 & e1 & _ & He1 & Em1 & Hm1)]]; [lia|].
    destruct (of_Z_cases (2 * k + 1) ltac:(lia))
      as [[H0 _] | [_ (m2 & e2 & _ & He2 & Em2 & Hm2)]]; [lia|].
    rewrite Z.abs_eq in Em1, Em2 by lia.
    pose proof (odd_mantissa k (Zpos m2) e2 ltac:(lia) He2 Em2) as Odd.
    assert (He2' : e2 <= -45).
    { destruct (Z_le_gt_dec e2 (-45)) as [|G]; [assumption|]. exfalso.
      assert (2 ^ (- e2) <= 2 ^ 44) by (apply Z.pow_le_mono_r; lia).
      assert (Zpos m2 <= 201 * 2 ^ 44).
      { rewrite Em2. apply Z.mul_le_mono_nonneg; lia. }
      assert (201 * 2 ^ 44 < 2 ^ 52) by reflexivity. lia. }
    apply (Math_round_between _ k (Zpos m1) (e1 - 1) (Zpos m2 - 1) (e2 - 1));
      try lia.
    + apply div_above; try lia.
      replace (e1 - 1 + ey) with (e1 - 1 + ey) by lia.
      rewrite Sx, Sy by lia.
      rewrite Em1.
      replace ((2 * k - 1) * 2 ^ (- e1) * n)
        with ((2 * k - 1) * n * 2 ^ (- e1)) by ring.
      rewrite scaled_shift by lia.
      replace (e1 - 1 + - e1) with (-1) by lia.
      unfold scaled. change (-1 + 5000) with 4999.
      change (0 + 5000) with (1 + 4999). rewrite (pow2_split 1 4999) by lia.
      change (2 ^ 1) with 2.
      pose proof (pow2_pos 4999 ltac:(lia)) as HT.
      set (T := 2 ^ 4999) in *. clearbody T.
      replace (S * (2 * T)) with (2 * S * T) by ring.
      apply Z.mul_le_mono_nonneg_r; lia.
    + apply div_below; try lia.
      rewrite Sx, Sy by lia.
      replace ((Zpos m2 - 1) * n) with (Zpos m2 * n - n) by ring.
      rewrite Em2.
      assert (A : scaled ((2 * k + 1) * 2 ^ (- e2) * n - n) (e2 - 1)
                  = scaled ((2 * k + 1) * n) (-1) - scaled n (e2 - 1)).
      { assert (EP : 2 ^ (- e2) * 2 ^ (e2 - 1 + 5000) = 2 ^ 4999)
          by (rewrite <- pow2_split by lia; f_equal; lia).
        unfold scaled. replace (-1 + 5000) with 4999 by lia.
        rewrite <- EP. ring. }
      rewrite A.
      assert (B : scaled n (e2 - 1) <= 2 ^ 4999).
      { unfold scaled.
        apply Z.le_trans with (2 ^ 45 * 2 ^ (e2 - 1 + 5000)).
        - apply Z.mul_le_mono_nonneg_r;
            [apply Z.lt_le_incl, pow2_pos|]; lia.
        - rewrite <- pow2_split by lia. apply Z.pow_le_mono_r; lia. }
      unfold scaled in *. change (-1 + 5000) with 4999.
      change (0 + 5000) with (1 + 4999). rewrite (pow2_split 1 4999) by lia.
      change (2 ^ 1) with 2.
      pose proof (pow2_pos 4999 ltac:(lia)) as HT.
      set (T := 2 ^ 4999) in *. set (R := n * 2 ^ (e2 - 1 + 5000)) in *.
      clearbody T R.
      assert ((2 * S + 1) * T <= (2 * k + 1) * n * T)
        by (apply Z.mul_le_mono_nonneg_r; lia).
      lia.
    + rewrite Em1, scaled_shift by lia.
      replace (e1 - 1 + - e1) with (-1) by lia. lia.
    + replace (scaled (Zpos m2 - 1) (e2 - 1))
        with (scaled (Zpos m2) (e2 - 1) - scaled 1 (e2 - 1))
        by (unfold scaled; ring).
      rewrite Em2, scaled_shift by lia.
      replace (e2 - 1 + - e2) with (-1) by lia.
      assert (0 < scaled 1 (e2 - 1))
        by (unfold scaled; pose proof (pow2_pos (e2 - 1 + 5000)); lia).
      lia.
Qed.

(** The displayed average is the rounded mean of the scores. *)
Lemma averageScore_value (now : Z) (values : list (option ProtocolData)) :
  values <> [] -> Z.of_nat (List.length values) <= 2 ^ 45 ->
  averageScore now values
  = of_Z (roundedMean (totalScore now values)
                      (Z.of_nat (List.length values))).
Proof.
  intros Hne Hlen.
  assert (E : averageScore now values =
              Math_round
                (div (fold_left
                        (fun a b => add a (of_Z (calculatePulseScore now b)))
                        values (of_Z 0))
                     (of_Z (Z.of_nat (List.length values)))))
    by (destruct values; [congruence | reflexivity]).
  rewrite E.
  assert (L : 1 <= Z.of_nat (List.length values))
    by (destruct values; [congruence | cbn [List.length]; lia]).
  assert (B : 100 * 2 ^ 45 < 2 ^ 53) by reflexivity.
  rewrite sum_exact by lia. cbn [Z.add].
  apply average_value; [apply totalScore_bounds | lia].
Qed.

Lemma roundedMean_bounds (S n lo hi : Z) :
  1 <= n -> lo * n <= S <= hi * n -> lo <= roundedMean S n <= hi.
Proof.
  intros Hn HS. unfold roundedMean. split.
  - apply Z.div_le_lower_bound; lia.
  - assert ((2 * S + n) / (2 * n) < hi + 1)
      by (apply Z.div_lt_upper_bound; lia).
    lia.
Qed.

Lemma fetched_pendle_min (now : Z) (d : option Z) (c : option number) :
  40 <= calculatePulseScore now (Some (fetchPendleAPY_result d c)) <= 100.
Proof.
  rewrite (score_pendle_penalty now (fetchPendleAPY_result d c) eq_refl).
  pose proof (maturity_penalty_range
                (_daysUntilDate now (maturityDate (fetchPendleAPY_result d c)))).
  pose proof (liveness_penalty_range (confidence (fetchPendleAPY_result d c))).
  unfold clamp. lia.
Qed.

Lemma fetched_ethena_min (now : Z) (f d : number) :
  65 <= calculatePulseScore now (Some (fetchEthenaFundingRate_result f d))
     <= 100.
Proof.
  rewrite (score_ethena now (fetchEthenaFundingRate_result f d) eq_refl).
  cbn [fetchEthenaFundingRate_result fundingRate depegRisk confidence
       liveness_penalty].
  pose proof (funding_penalty_range (Some f)).
  pose proof (depeg_penalty_range
                (opt_or_default (Some (or_default d (decimal 1 2)))
                   (decimal 1 2))).
  unfold clamp. lia.
Qed.

Lemma fetched_falcon_min (now : Z) (c : number) :
  75 <= calculatePulseScore now (Some (fetchFalconCooldown_result c)) <= 100.
Proof.
  rewrite (score_falcon now (fetchFalconCooldown_result c) eq_refl).
  cbn [fetchFalconCooldown_result cooldownDays confidence liveness_penalty].
  pose proof (cooldown_penalty_range (Some c)).
  unfold clamp. lia.
Qed.

End AverageFacts.

Import AverageFacts.

(** X20.  The global score that [updateGlobalScore] shows is the exact
    mean of the individual scores rounded to the nearest integer, upwards
    on a tie: summing and dividing in floating point loses nothing.  It
    lies between 0 and 100, and at 35 or more when no value is [null].  An
    object without values gives 0. *)
Theorem global_score_is_rounded_mean :
  forall (now : Z) (values : list (option ProtocolData)),
    values <> [] -> Z.of_nat (List.length values) <= 2 ^ 45 ->
    averageScore now values
    = of_Z (roundedMean (totalScore now values)
                        (Z.of_nat (List.length values))) /\
    0 <= roundedMean (totalScore now values) (Z.of_nat (List.length values))
      <= 100 /\
    (Forall (fun x => x <> None) values ->
     35 <= roundedMean (totalScore now values)
                       (Z.of_nat (List.length values))) /\
    averageScore now [] = of_Z 0.
Proof.
  intros now values Hne Hlen.
  assert (L : 1 <= Z.of_nat (List.length values))
    by (destruct values; [congruence | cbn [List.length]; lia]).
  destruct (totalScore_bounds now values) as [B1 B2].
  split; [apply averageScore_value; assumption|].
  split; [apply roundedMean_bounds; lia|].
  split; [|reflexivity].
  intro F. specialize (B2 F).
  apply (roundedMean_bounds _ _ 35 100); lia.
Qed.

Lemma global_score_is_rounded_mean_witness :
  averageScore 0
    [ None;
      Some (fetchFalconCooldown_result (of_Z 7));
      Some (fetchFalconCooldown_result (of_Z 7)) ]
  = of_Z 67.
Proof.
  exact (proj1 (global_score_is_rounded_mean 0
    [ None;
      Some (fetchFalconCooldown_result (of_Z 7));
      Some (fetchFalconCooldown_result (of_Z 7)) ]
    ltac:(discriminate) ltac:(vm_compute; discriminate))).
Defined.

(** X21.  A polling cycle in which the three fetches succeed: whatever
    the webhooks answer, the Pendle score is at least 40, the Ethena score
    at least 65 and the Falcon score at least 75, so the global score is
    an integer from 60 to 100 and the gauge shows Safe or Monitor. *)
Theorem polling_cycle_global_score :
  forall (now : Z) (data_maturityDate : option Z)
         (data_confidence : option number)
         (data_fundingRate data_depegRisk data_cooldownDays : number),
  exists k : Z,
    averageScore now
      [ Some (fetchPendleAPY_result data_maturityDate data_confidence);
        Some (fetchEthenaFundingRate_result data_fundingRate data_depegRisk);
        Some (fetchFalconCooldown_result data_cooldownDays) ]
    = of_Z k /\
    60 <= k <= 100 /\
    (status (getStatusFromScore k) = Safe \/
     status (getStatusFromScore k) = Monitor).
Proof.
  intros now dm dc df dd dcool.
  set (values := [ Some (fetchPendleAPY_result dm dc);
                   Some (fetchEthenaFundingRate_result df dd);
                   Some (fetchFalconCooldown_result dcool) ]).
  exists (roundedMean (totalScore now values) 3).
  pose proof (fetched_pendle_min now dm dc) as HP.
  pose proof (fetched_ethena_min now df dd) as HE.
  pose proof (fetched_falcon_min now dcool) as HF.
  assert (B : 60 <= roundedMean (totalScore now values) 3 <= 100).
  { apply roundedMean_bounds; [lia|].
    unfold totalScore, values. cbn [map fold_right]. lia. }
  split.
  - apply (averageScore_value now values); [discriminate|].
    vm_compute. discriminate.
  - split; [exact B|].
    unfold getStatusFromScore.
    destruct (Z.leb_spec 75 (roundedMean (totalScore now values) 3));
      [left; reflexivity|].
    destruct (Z.leb_spec 50 (roundedMean (totalScore now values) 3));
      [right; reflexivity | lia].
Qed.
(** * The trimmed conversation history *)

Module HistoryFacts.
Import RiskCore.

Lemma trim_positive {A : Type} (n : Z) (h : list A) :
  0 < n ->
  _trimHistory n h
  = skipn (Z.to_nat (Z.max (Z.of_nat (List.length h) - n) 0)) h.
Proof.
  intro Hn. unfold _trimHistory, slice_from. cbv zeta.
  replace (- n <? 0) with true by (symmetry; apply Z.ltb_lt; lia).
  f_equal.
Qed.

End HistoryFacts.

(** X22.  [_trimHistory(n)] returns a suffix of the history.  For a
    positive [n] it holds the last [n] messages, or all of them when there
    are fewer; [_trimHistory(0)] does not return an empty list but the
    whole history.  The history sent with a message holds at most 10
    messages and ends with the message just typed. *)
Theorem trimHistory_keeps_the_last :
  forall (A : Type) (n : Z) (h : list A) (userMessage : A),
    (exists dropped, h = (dropped ++ _trimHistory n h)%list) /\
    (0 < n ->
     Z.of_nat (List.length (_trimHistory n h))
     = Z.min n (Z.of_nat (List.length h))) /\
    _trimHistory 0 h = h /\
    (List.length (sent_history h userMessage) <= 10)%nat /\
    last (sent_history h userMessage) userMessage = userMessage /\
    sent_history h userMessage <> [].
Proof.
  intros A n h msg.
  assert (S : forall k (l : list A) , exists dropped, l = (dropped ++ skipn k l)%list).
  { intros k l. exists (firstn k l). symmetry. apply firstn_skipn. }
  split; [unfold _trimHistory, slice_from; apply S|].
  split.
  { intro Hn. rewrite (HistoryFacts.trim_positive n h Hn).
    rewrite length_skipn. lia. }
  split.
  { unfold _trimHistory, slice_from. cbn [Z.opp Z.ltb Z.compare].
    replace (Z.min 0 (Z.of_nat (List.length h))) with 0 by lia.
    reflexivity. }
  unfold sent_history.
  rewrite (HistoryFacts.trim_positive 10 (h ++ [msg])%list ltac:(lia)).
  rewrite length_skipn, length_app. cbn [List.length].
  set (k := Z.to_nat (Z.max (Z.of_nat (List.length h + 1) - 10) 0)).
  assert (Hk : (k <= List.length h)%nat) by (unfold k; lia).
  rewrite skipn_app.
  replace (k - List.length h)%nat with O by lia. cbn [skipn].
  split; [unfold k; lia|]. split.
  - apply last_last.
  - intro E. apply app_eq_nil in E. destruct E as [_ E]. discriminate.
Qed.

Lemma trimHistory_keeps_the_last_witness :
  Z.of_nat (List.length (_trimHistory 2 [1; 2; 3])) = 2.
Proof.
  exact (proj1 (proj2 (trimHistory_keeps_the_last Z 2 [1; 2; 3] 0))
           ltac:(lia)).
Defined.
(** * The slippage floor of a swap *)

Module SwapFacts.
Import JS Rounding FloatFacts EngineFacts UpperFacts ValidFacts.

Lemma slippage_factor :
  decimal 995 3 = S754_finite false 8962163258467287 (-53).
Proof. vm_compute. reflexivity. Qed.

Lemma below_le (m : positive) (e : Z) (x : number) :
  below (Zpos m) e x -> SFleb x (S754_finite false m e) = true.
Proof.
  intros [-> | (m' & e' & -> & _ & _ & Hlex)]; [reflexivity|].
  unfold SFleb, SFcompare.
  destruct (Z.compare_spec e' e) as [-> | Hlt | Hgt]; [|reflexivity|lia].
  rewrite Pos.compare_cont_spec. cbn [Pos.switch_Eq].
  destruct (Pos.compare_spec m' m); [reflexivity | reflexivity | lia].
Qed.

Lemma below_nonneg (mc ec : Z) (x : number) :
  below mc ec x -> SFleb (S754_zero false) x = true.
Proof.
  intros [-> | (m' & e' & -> & _)]; reflexivity.
Qed.

(** A non-negative number times 0.995 is a non-negative number that
    does not exceed it: the rounding of the product never steps over the
    number itself. *)
Lemma mul_slippage (x : number) :
  valid_binary prec emax x = true -> ge x (of_Z 0) = true ->
  SFleb (mul x (decimal 995 3)) x = true /\
  SFleb (S754_zero false) (mul x (decimal 995 3)) = true.
Proof.
  intros Hv Hge. rewrite slippage_factor.
  change (of_Z 0) with (S754_zero false) in Hge.
  destruct x as [s | s | | s m e]; try discriminate.
  - destruct s; split; reflexivity.
  - destruct s; [discriminate|]. split; reflexivity.
  - destruct s; [discriminate|].
    destruct (valid_finite false m e Hv) as (He & Hm & Hc & Hn).
    unfold mul. cbn [SFmul xorb].
    assert (EP : Zpos (m * 8962163258467287) = Zpos m * 8962163258467287)
      by apply Pos2Z.inj_mul.
    destruct (Z_le_gt_dec (2 ^ 52) (Zpos m)) as [Hnorm | Hsub].
    + assert (B : below (Zpos m) e
                    (binary_round_aux prec emax false
                       (Zpos (m * 8962163258467287)) (e + -53) loc_Exact)).
      { apply binary_round_aux_below; try lia; [|reflexivity].
        rewrite EP. replace e with (e + -53 + 53) at 2 by lia.
        rewrite <- (scaled_shift (Zpos m) (e + -53) 53) by lia.
        apply scaled_le_mono; [lia|].
        apply Z.mul_le_mono_nonneg_l; [lia|]. apply Z.leb_le. reflexivity. }
      split; [apply below_le; exact B | apply (below_nonneg _ _ _ B)].
    + assert (e = -1074) as -> by (specialize (Hn); lia).
      rewrite binary_round_aux_unfold. cbv zeta.
      set (P := Zpos (m * 8962163258467287)).
      assert (HP : 0 < P < 2 ^ 105).
      { unfold P. rewrite EP. split; [lia|].
        change (2 ^ 105) with (2 ^ 52 * 2 ^ 53).
        apply Z.mul_lt_mono_nonneg; lia. }
      assert (K : Z.max 0 (fexp prec emax (Zdigits2 P + (-1074 + -53))
                           - (-1074 + -53)) = 53).
      { unfold P. cbn [Zdigits2].
        destruct (digits2_pos_bounds (m * 8962163258467287)) as [Dlo Dhi].
        fold P in Dlo, Dhi.
        assert (Zpos (digits2_pos (m * 8962163258467287)) - 1 < 105)
          by (apply pow2_lt_inv; lia).
        rewrite fexp_unfold. lia. }
      destruct (shr_fexp_spec P (-1074 + -53) loc_Exact ltac:(lia))
        as [R1m R1e].
      rewrite K in R1m, R1e.
      set (r1 := shr_fexp prec emax P (-1074 + -53) loc_Exact) in *.
      assert (M1 : 0 <= shr_m (fst r1) <= Zpos m - 1).
      { rewrite R1m. split; [apply Z.div_pos; lia|].
        assert (P / 2 ^ 53 < Zpos m); [|lia].
        apply Z.div_lt_upper_bound; [lia|].
        unfold P. rewrite EP. rewrite Z.mul_comm.
        apply Z.mul_lt_mono_pos_r; [lia|]. apply Z.ltb_lt. reflexivity. }
      pose proof (round_nearest_even_bounds (shr_m (fst r1))
                    (loc_of_shr_record (fst r1))) as RB.
      set (r := round_nearest_even (shr_m (fst r1))
                  (loc_of_shr_record (fst r1))) in *.
      rewrite R1e. replace (-1074 + -53 + 53) with (-1074) by lia.
      destruct (shr_fexp_spec r (-1074) loc_Exact ltac:(lia)) as [R2m R2e].
      assert (K2 : Z.max 0 (fexp prec emax (Zdigits2 r + -1074) - -1074) = 0).
      { rewrite fexp_unfold.
        destruct r as [|p|p]; cbn [Zdigits2]; try lia.
        destruct (digits2_pos_bounds p) as [Dlo Dhi].
        assert (Zpos (digits2_pos p) - 1 < 52) by (apply pow2_lt_inv; lia).
        lia. }
      rewrite K2 in R2m, R2e. change (2 ^ 0) with 1 in R2m.
      rewrite Z.div_1_r in R2m. rewrite R2m, R2e.
      destruct r as [|p|p]; try lia; [split; reflexivity|].
      replace (-1074 + 0 <=? emax - prec) with true by reflexivity.
      replace (-1074 + 0) with (-1074) by reflexivity.
      split; [|reflexivity].
      unfold SFleb, SFcompare. rewrite Z.compare_refl.
      rewrite Pos.compare_cont_spec. cbn [Pos.switch_Eq].
      destruct (Pos.compare_spec p m); [reflexivity | reflexivity | lia].
Qed.

End SwapFacts.

(** X23.  The swap that [prepareUniswapTransaction] prepares for a
    non-negative amount asks for a minimum output that is itself
    non-negative and never above the amount put in, whatever the rounding
    of [amount * 0.995]; the input amount is passed on unchanged.  For the
    smallest positive number the minimum equals the amount: no tolerance
    is left. *)
Theorem swap_minimum_within_amount :
  forall (this : ExitOptimizer.Engine) (amount : JS.number),
    valid_binary JS.prec JS.emax amount = true ->
    JS.ge amount (JS.of_Z 0) = true ->
    ExitOptimizer.amountIn
      (ExitOptimizer.prepareUniswapTransaction this amount) = amount /\
    JS.ge amount
      (ExitOptimizer.minAmountOut
         (ExitOptimizer.prepareUniswapTransaction this amount)) = true /\
    JS.ge (ExitOptimizer.minAmountOut
             (ExitOptimizer.prepareUniswapTransaction this amount))
          (JS.of_Z 0) = true /\
    ExitOptimizer.minAmountOut
      (ExitOptimizer.prepareUniswapTransaction this
         (S754_finite false 1 (-1074)))
    = S754_finite false 1 (-1074).
Proof.
  intros this amount Hv Hge.
  destruct (SwapFacts.mul_slippage amount Hv Hge) as [H1 H2].
  split; [reflexivity|]. split; [exact H1|]. split; [exact H2|].
  vm_compute. reflexivity.
Qed.

Lemma swap_minimum_within_amount_witness :
  JS.ge (JS.of_Z 100)
    (ExitOptimizer.minAmountOut
       (ExitOptimizer.prepareUniswapTransaction
          ExitOptimizer.default_engine (JS.of_Z 100))) = true.
Proof.
  exact (proj1 (proj2 (swap_minimum_within_amount
    ExitOptimizer.default_engine (JS.of_Z 100) eq_refl eq_refl))).
Defined.
